(** * GoPick: a shallow embedding of the search-and-install engine

    The development follows the packages of the repository:

    - [GoString], [GoTime]: the few operations of Go's [strings] and [time]
      packages the program uses, on byte strings and on 64-bit durations;
    - [GoJSON]: what [encoding/json] does to a string, and [Standin], a
      document format for the examples;
    - [History]   (internal/history/history.go): the activity log;
    - [Cache]     (internal/cache): the TTL result cache;
    - [Packages]  (internal/packages): the install-command builder;
    - [Scraper]   (internal/scraper): the retrying search;
    - [Tui]       (internal/tui): the session state machine;
    - [Term]      (internal/term): typing a command into the terminal;
    - [Main]      (main.go): what [main] does when the session is over.

    The second half of the file states and proves the properties of the
    specification against these definitions.

    Conventions.  A Go [string] is a [string] of bytes.  A Go [int] is a [Z]
    in the 64-bit range; arithmetic that can leave the range has its
    wrap-around written out ([GoTime.wrap64]).  A [time.Time] is the number of
    nanoseconds of its wall clock since the epoch, a [time.Duration] a number
    of nanoseconds.  A run-time panic is the result [Panic]. *)

From Stdlib Require Import ZArith NArith String Ascii List Lia Bool.
From Equations Require Import Equations.
From stdpp Require Import gmap strings list.

Open Scope Z_scope.

(** ** Results of Go code that can panic *)

Inductive result (A : Type) : Type :=
| Ok (a : A)
| Panic.
Arguments Ok {A} a.
Arguments Panic {A}.

Definition bind {A B} (r : result A) (k : A -> result B) : result B :=
  match r with
  | Ok a => k a
  | Panic => Panic
  end.

Notation "'do' x <- r ; k" := (bind r (fun x => k))
  (at level 10, x pattern, r at level 100, k at level 200).

Definition inspect {A} (a : A) : {b | a = b} := exist _ a eq_refl.

(** ** Strings *)

Module GoString.

Definition len (s : string) : Z := Z.of_nat (String.length s).

(** [s[1:]], for a non-empty [s]. *)
Definition slice_from_1 (s : string) : string :=
  match s with
  | "" => ""
  | String _ t => t
  end.

(** [s[:len(s)-1]], for a non-empty [s]. *)
Fixpoint slice_to_last (s : string) : string :=
  match s with
  | "" => ""
  | String a t =>
      match t with
      | "" => ""
      | _ => String a (slice_to_last t)
      end
  end.

(** [strings.Join(elems, sep)]. *)
Fixpoint Join (elems : list string) (sep : string) : string :=
  match elems with
  | [] => ""
  | [e] => e
  | e :: rest => e +:+ sep +:+ Join rest sep
  end.

(** [s[n:]]. *)
Fixpoint slice_from (n : nat) (s : string) : string :=
  match n, s with
  | O, _ => s
  | S n', String _ t => slice_from n' t
  | S _, "" => ""
  end.

(** [strings.HasPrefix(s, prefix)] and [strings.TrimPrefix(s, prefix)]. *)
Definition HasPrefix (s prefix : string) : bool := String.prefix prefix s.

Definition TrimPrefix (s prefix : string) : string :=
  if HasPrefix s prefix then slice_from (String.length prefix) s else s.

(** The last element of [strings.Split(s, sep)] for a one-byte [sep]:
    what follows the last [sep] of [s], or [s] when it has none. *)
Fixpoint last_segment_from (sep : ascii) (cur s : string) : string :=
  match s with
  | "" => cur
  | String a t =>
      if Ascii.eqb a sep then last_segment_from sep t t
      else last_segment_from sep cur t
  end.
Definition last_segment (sep : ascii) (s : string) : string :=
  last_segment_from sep s s.

(** [filepath.Ext(path)]: the suffix of [path] from the last dot of its last
    element, or nothing when that element has no dot. *)
Fixpoint Ext_scan (ext s : string) : string :=
  match s with
  | "" => ext
  | String a t =>
      if Ascii.eqb a "/" then Ext_scan "" t
      else if Ascii.eqb a "." then Ext_scan s t
      else Ext_scan ext t
  end.
Definition Ext (path : string) : string := Ext_scan "" path.

(** [strings.Split(s, sep)] for a one-byte [sep]: the pieces of [s] between
    the occurrences of [sep]; always at least one piece. *)
Fixpoint Split_from (sep : ascii) (cur : string) (s : string) : list string :=
  match s with
  | "" => [cur]
  | String a t =>
      if Ascii.eqb a sep then cur :: Split_from sep "" t
      else Split_from sep (cur +:+ String a "") t
  end.
Definition Split (s : string) (sep : ascii) : list string := Split_from sep "" s.

(** [dropCR] of [bufio]: a line without its trailing carriage return. *)
Fixpoint dropCR (s : string) : string :=
  match s with
  | "" => ""
  | String a "" => if Ascii.eqb a "013" then "" else s
  | String a t => String a (dropCR t)
  end.

(** Whether the byte [b] occurs in [s]. *)
Fixpoint has_byte (b : ascii) (s : string) : bool :=
  match s with
  | "" => false
  | String a t => Ascii.eqb a b || has_byte b t
  end.

Lemma slice_from_1_length s :
  s <> "" -> (String.length (slice_from_1 s) < String.length s)%nat.
Proof. destruct s; simpl; [congruence | lia]. Qed.

Lemma slice_to_last_length s :
  s <> "" -> (String.length (slice_to_last s) < String.length s)%nat.
Proof.
  induction s as [|a [|b t] IH]; simpl in *; [congruence | lia |].
  intros _. specialize (IH ltac:(congruence)). lia.
Qed.

End GoString.

(** ** Time *)

Module GoTime.

Definition min_int64 : Z := - 2 ^ 63.
Definition max_int64 : Z := 2 ^ 63 - 1.

(** Two's-complement wrap-around of 64-bit integer arithmetic. *)
Definition wrap64 (z : Z) : Z := (z + 2 ^ 63) mod 2 ^ 64 - 2 ^ 63.

Definition Nanosecond : Z := 1.
Definition Second : Z := 1000000000.
Definition Hour : Z := 3600 * Second.

(** [t.Sub(u)]: the difference, saturated to the range of a Duration. *)
Definition Sub (t u : Z) : Z :=
  Z.max min_int64 (Z.min max_int64 (t - u)).

(** [time.Since(t)] when the clock reads [now]. *)
Definition Since (now t : Z) : Z := Sub now t.

End GoTime.

(** ** Strings under encoding/json *)

Module GoJSON.

(** The value of a byte, and whether it lies in a range. *)
Definition in_range (lo hi : N) (a : ascii) : bool :=
  ((lo <=? N_of_ascii a) && (N_of_ascii a <=? hi))%N.

(** A continuation byte, 0x80 to 0xBF. *)
Definition cont (a : ascii) : bool := in_range 128 191 a.

(** The first two bytes of a valid sequence of 2, 3 and 4 bytes: the
    accept ranges of package [utf8], which leave out overlong forms,
    surrogates and code points above U+10FFFF. *)
Definition lead2 (a b : ascii) : bool := in_range 194 223 a && cont b.

Definition lead3 (a b : ascii) : bool :=
  (in_range 224 224 a && in_range 160 191 b)
  || (in_range 225 236 a && cont b)
  || (in_range 237 237 a && in_range 128 159 b)
  || (in_range 238 239 a && cont b).

Definition lead4 (a b : ascii) : bool :=
  (in_range 240 240 a && in_range 144 191 b)
  || (in_range 241 243 a && cont b)
  || (in_range 244 244 a && in_range 128 143 b).

(** [utf8.DecodeRuneInString] at the head of [String a t]: the width of
    the rune when the bytes are a valid encoding, nothing when it reports
    [RuneError] with width 1. *)
Definition rune_width (a : ascii) (t : string) : option nat :=
  if in_range 0 127 a then Some 1%nat
  else
    match t with
    | String b t2 =>
        if lead2 a b then Some 2%nat
        else
          match t2 with
          | String c t3 =>
              if lead3 a b && cont c then Some 3%nat
              else
                match t3 with
                | String d _ =>
                    if lead4 a b && cont c && cont d then Some 4%nat else None
                | "" => None
                end
          | "" => None
          end
    | "" => None
    end.

(** U+FFFD, the replacement character, in UTF-8. *)
Definition replacement : string := String "239" (String "191" (String "189" "")).

(** What a string is after [json.Marshal] and [json.Unmarshal]: the
    encoder writes the escape [\ufffd] for each byte that starts no valid rune and
    moves on by one byte; everything else is read back as it was.  [skip]
    counts the bytes still to copy of a rune already decoded. *)
Fixpoint json_string_from (skip : nat) (s : string) : string :=
  match s with
  | "" => ""
  | String a t =>
      match skip with
      | S k => String a (json_string_from k t)
      | O =>
          match rune_width a t with
          | Some w => String a (json_string_from (w - 1) t)
          | None => replacement +:+ json_string_from 0 t
          end
      end
  end.

Definition json_string (s : string) : string := json_string_from 0 s.

(** A string that [encoding/json] leaves as it is: valid UTF-8. *)
Definition utf8_valid (s : string) : Prop := json_string s = s.

End GoJSON.

(** ** A stand-in for the bytes of a JSON document

    The examples need documents that can be written and read back.  The
    format below is not JSON; it keeps what the program relies on: a
    document holds no newline, and reading back what was written gives the
    value.  A string field is written with [\], [;] and the newline escaped
    and ends at [;]; an integer is written in binary, lowest bit first. *)

Module Standin.

Definition enc_byte (a : ascii) : string :=
  if Ascii.eqb a "\" then String "\" (String "\" "")
  else if Ascii.eqb a ";" then String "\" (String "s" "")
  else if Ascii.eqb a "010" then String "\" (String "n" "")
  else String a "".

Fixpoint enc_string (s : string) : string :=
  match s with
  | "" => String ";" ""
  | String a t => enc_byte a +:+ enc_string t
  end.

Definition dec_escape (b : ascii) : ascii :=
  if Ascii.eqb b "s" then ";"%char
  else if Ascii.eqb b "n" then "010"%char
  else b.

(** The field at the head of [data] and what follows it. *)
Fixpoint dec_string_from (escaped : bool) (data : string) : option (string * string) :=
  match data with
  | "" => None
  | String a t =>
      if escaped then
        match dec_string_from false t with
        | Some (s, rest) => Some (String (dec_escape a) s, rest)
        | None => None
        end
      else if Ascii.eqb a ";" then Some ("", t)
      else if Ascii.eqb a "\" then dec_string_from true t
      else
        match dec_string_from false t with
        | Some (s, rest) => Some (String a s, rest)
        | None => None
        end
  end.

Definition dec_string (data : string) : option (string * string) :=
  dec_string_from false data.

Fixpoint enc_positive (p : positive) : string :=
  match p with
  | xH => String ";" ""
  | xO q => String "0" (enc_positive q)
  | xI q => String "1" (enc_positive q)
  end.

Definition enc_Z (z : Z) : string :=
  match z with
  | Z0 => String "z" ""
  | Zpos p => String "+" (enc_positive p)
  | Zneg p => String "-" (enc_positive p)
  end.

Fixpoint dec_positive (data : string) : option (positive * string) :=
  match data with
  | "" => None
  | String a t =>
      if Ascii.eqb a ";" then Some (xH, t)
      else if Ascii.eqb a "0" then
        match dec_positive t with
        | Some (q, rest) => Some (xO q, rest)
        | None => None
        end
      else if Ascii.eqb a "1" then
        match dec_positive t with
        | Some (q, rest) => Some (xI q, rest)
        | None => None
        end
      else None
  end.

Definition dec_Z (data : string) : option (Z * string) :=
  match data with
  | "" => None
  | String a t =>
      if Ascii.eqb a "z" then Some (0, t)
      else if Ascii.eqb a "+" then
        match dec_positive t with
        | Some (p, rest) => Some (Zpos p, rest)
        | None => None
        end
      else if Ascii.eqb a "-" then
        match dec_positive t with
        | Some (p, rest) => Some (Zneg p, rest)
        | None => None
        end
      else None
  end.

Definition enc_bool (b : bool) : string :=
  if b then String "t" "" else String "f" "".

Definition dec_bool (data : string) : option (bool * string) :=
  match data with
  | "" => None
  | String a t =>
      if Ascii.eqb a "t" then Some (true, t)
      else if Ascii.eqb a "f" then Some (false, t)
      else None
  end.

End Standin.

(** ** The activity log (internal/history/history.go) *)

Module History.

Definition ActionType : Type := string.
Definition ActionViewed : ActionType := "viewed".
Definition ActionInstalled : ActionType := "installed".

Record Entry : Type := mkEntry {
  Timestamp : Z;
  Package : string;
  ImportPath : string;
  Action : ActionType
}.

Record History : Type := mkHistory {
  file : string;
  maxEntries : Z
}.

(** The backing file: it does not exist, or it exists and cannot be opened
    (neither for reading nor for writing), or it holds lines, the runs of
    bytes between its newlines.  The other failures of the file system
    (creating, writing and renaming the temporary file) are left out. *)
Inductive Store : Type :=
| NoFile
| NoAccess
| Lines (lines : list string).

Inductive history_error : Type :=
| ErrClear   (* "failed to clear history: ..." *)
| ErrOpen    (* "failed to open history file: ..." *)
| ErrRead.   (* "failed to read history: bufio.Scanner: token too long" *)

(** [bufio.MaxScanTokenSize]: the scanner's buffer grows to this size and
    has to hold the line with its newline, so a line of this many bytes or
    more ends the scan with [bufio.ErrTooLong]. *)
Definition MaxScanTokenSize : Z := 64 * 1024.

(** [func contains(s, substr string) bool]: the recursion is on [s[1:]] and
    on [s[:len(s)-1]], both shorter than [s]; the two slices are only taken
    behind the length guard, where [s] is not empty. *)
Equations? contains (s substr : string) : bool by wf (String.length s) lt :=
  contains s substr
    with inspect ((0 <? GoString.len substr) &&
                  (GoString.len substr <=? GoString.len s)) := {
    | exist _ true Hguard :=
        (s =? substr)%string
        || contains (GoString.slice_from_1 s) substr
        || contains (GoString.slice_to_last s) substr
    | exist _ false _ := false }.
Proof.
  all: apply andb_prop in Hguard as [H1 H2]; unfold GoString.len in *;
    apply Z.ltb_lt in H1; apply Z.leb_le in H2.
  - apply GoString.slice_from_1_length. intros ->. simpl in *. lia.
  - apply GoString.slice_to_last_length. intros ->. simpl in *. lia.
Qed.

Section WithJSON.

(** [encoding/json] on an [Entry]: [json.Marshal] gives the line or
    fails, [json.Unmarshal] reads a line back or fails. *)
Variable json_Marshal : Entry -> option string.
Variable json_Unmarshal : string -> option Entry.

(** [readEntries]: the scanner yields each line without its trailing
    carriage return; empty lines and lines that do not parse are skipped; a
    line too long for the scanner ends the loop and the entries read so far
    are given up for the error.  A file that does not exist reads as no
    entries. *)
Fixpoint readLines (lines : list string) (entries : list Entry)
    : list Entry + history_error :=
  match lines with
  | [] => inl entries
  | raw :: rest =>
      if MaxScanTokenSize <=? GoString.len raw then inr ErrRead
      else
        let line := GoString.dropCR raw in
        if (GoString.len line =? 0) then readLines rest entries
        else match json_Unmarshal line with
             | None => readLines rest entries
             | Some entry => readLines rest (entries ++ [entry])
             end
  end.

Definition readEntries (st : Store) : list Entry + history_error :=
  match st with
  | NoFile => inl []
  | NoAccess => inr ErrOpen
  | Lines lines => readLines lines []
  end.

(** [writeEntries]: one line per entry that marshals, written to a
    temporary file that then replaces the log.  The output of
    [json.Marshal] holds no newline, so each is one line of the file. *)
Fixpoint writeLines (entries : list Entry) (written : list string) : list string :=
  match entries with
  | [] => written
  | entry :: rest =>
      match json_Marshal entry with
      | None => writeLines rest written
      | Some data => writeLines rest (written ++ [data])
      end
  end.

Definition writeEntries (entries : list Entry) (st : Store) : Store :=
  Lines (writeLines entries []).

(** The loop of [isDuplicate] over [entries[start:]]. *)
Fixpoint isDuplicate_from (now : Z) (packageName importPath : string)
    (action : ActionType) (entries : list Entry) : bool :=
  match entries with
  | [] => false
  | entry :: rest =>
      if (Package entry =? packageName)%string
         && (ImportPath entry =? importPath)%string
         && (Action entry =? action)%string
      then
        if GoTime.Since now (Timestamp entry) <? GoTime.Hour then true
        else isDuplicate_from now packageName importPath action rest
      else isDuplicate_from now packageName importPath action rest
  end.

(** [isDuplicate]: a log that cannot be read has no duplicate. *)
Definition isDuplicate (now : Z) (packageName importPath : string)
    (action : ActionType) (st : Store) : bool :=
  match readEntries st with
  | inr _ => false
  | inl entries =>
      let start := Z.of_nat (length entries) - 10 in
      let start := if start <? 0 then 0 else start in
      isDuplicate_from now packageName importPath action
        (drop (Z.to_nat start) entries)
  end.

(** [Add], with the clock reading [now] throughout the call.  The slice
    [entries[len(entries)-h.maxEntries:]] panics for a negative
    [maxEntries]. *)
Definition Add (h : History) (now : Z) (packageName importPath : string)
    (action : ActionType) (st : Store) : result (Store * option history_error) :=
  if isDuplicate now packageName importPath action st then Ok (st, None)
  else
    let entry := mkEntry now packageName importPath action in
    match readEntries st with
    | inr err => Ok (st, Some err)
    | inl entries =>
        let entries := entries ++ [entry] in
        let n := Z.of_nat (length entries) in
        do entries <-
          (if maxEntries h <? n then
             if (0 <=? n - maxEntries h) && (n - maxEntries h <=? n)
             then Ok (drop (Z.to_nat (n - maxEntries h)) entries)
             else Panic
           else Ok entries);
        Ok (writeEntries entries st, None)
    end.

Definition GetAll (st : Store) : list Entry + history_error := readEntries st.

Definition GetRecent (n : Z) (st : Store) : result (list Entry + history_error) :=
  match readEntries st with
  | inr err => Ok (inr err)
  | inl entries =>
      let l := Z.of_nat (length entries) in
      if l <=? n then Ok (inl entries)
      else if (0 <=? l - n) && (l - n <=? l)
           then Ok (inl (drop (Z.to_nat (l - n)) entries))
           else Panic
  end.

(** [Clear]: the file is opened write-only with truncation and without
    creation. *)
Definition Clear (st : Store) : Store * option history_error :=
  match st with
  | NoFile => (NoFile, Some ErrClear)
  | NoAccess => (NoAccess, Some ErrClear)
  | Lines _ => (Lines [], None)
  end.

(** [Search]: the loop appends the matching entries in file order. *)
Fixpoint Search_loop (query : string) (entries matches : list Entry) : list Entry :=
  match entries with
  | [] => matches
  | entry :: rest =>
      if contains (Package entry) query || contains (ImportPath entry) query
      then Search_loop query rest (matches ++ [entry])
      else Search_loop query rest matches
  end.

Definition Search (query : string) (st : Store) : list Entry + history_error :=
  match readEntries st with
  | inr err => inr err
  | inl entries => inl (Search_loop query entries [])
  end.

End WithJSON.

(** The last [n] elements of a slice: [l[len(l)-n:]] when [l] is longer. *)
Definition last_n {A} (n : Z) (l : list A) : list A :=
  drop (length l - Z.to_nat n) l.

(** What [Add] looks at to tell a duplicate. *)
Definition entry_key (e : Entry) : string * string * ActionType :=
  (Package e, ImportPath e, Action e).

(** A series of [Add] calls, each with its clock reading. *)
Fixpoint Add_all (json_Marshal : Entry -> option string)
    (json_Unmarshal : string -> option Entry) (h : History)
    (calls : list Entry) (st : Store) : result Store :=
  match calls with
  | [] => Ok st
  | call :: rest =>
      do (st, _) <- Add json_Marshal json_Unmarshal h (Timestamp call)
                      (Package call) (ImportPath call) (Action call) st;
      Add_all json_Marshal json_Unmarshal h rest st
  end.

(** What an [Entry] is after [json.Marshal] and [json.Unmarshal]: the
    strings as [encoding/json] leaves them, the instant as it was. *)
Definition json_image (e : Entry) : Entry :=
  mkEntry (Timestamp e) (GoJSON.json_string (Package e))
    (GoJSON.json_string (ImportPath e)) (GoJSON.json_string (Action e)).

(** A line as [json.Marshal] writes them. *)
Definition one_line (line : string) : Prop :=
  line <> "" /\ GoString.has_byte "010" line = false
  /\ GoString.dropCR line = line.

(** What the program relies on of [encoding/json]: whatever [json.Marshal]
    gives for an entry is one line, which [json.Unmarshal] reads back as the
    entry with its strings made valid UTF-8. *)
Definition encoding_json (json_Marshal : Entry -> option string)
    (json_Unmarshal : string -> option Entry) : Prop :=
  forall e line, json_Marshal e = Some line ->
    one_line line /\ json_Unmarshal line = Some (json_image e).

(** A line the scanner can hold. *)
Definition fits (line : string) : Prop :=
  GoString.len line < MaxScanTokenSize.

(** An entry survives the log when it marshals to a line that the scanner
    can hold and that reads back as the entry. *)
Definition survives (json_Marshal : Entry -> option string)
    (json_Unmarshal : string -> option Entry) (e : Entry) : Prop :=
  exists line, json_Marshal e = Some line /\ line <> ""
               /\ GoString.dropCR line = line /\ fits line
               /\ json_Unmarshal line = Some e.

(** The strings of an entry are valid UTF-8. *)
Definition entry_valid (e : Entry) : Prop :=
  GoJSON.utf8_valid (Package e) /\ GoJSON.utf8_valid (ImportPath e)
  /\ GoJSON.utf8_valid (Action e).

(** An entry the log can hold: its strings are valid UTF-8 and it marshals
    to a line that the scanner can hold. *)
Definition storable (json_Marshal : Entry -> option string) (e : Entry) : Prop :=
  entry_valid e /\ exists line, json_Marshal e = Some line /\ fits line.

(** An entry that makes [isDuplicate] answer true at time [now]. *)
Definition recent_match (now : Z) (name path : string) (action : ActionType)
    (e : Entry) : Prop :=
  Package e = name /\ ImportPath e = path /\ Action e = action
  /\ now - Timestamp e < GoTime.Hour.

(** The standard containment predicate: [substr] occurs in [s] as a
    contiguous run of bytes. *)
Definition substring_of (substr s : string) : Prop :=
  exists pre post, s = pre +:+ substr +:+ post.

(** A straightforward linear scan: try [substr] at every offset of [s],
    left to right. *)
Fixpoint linear_scan (s substr : string) : bool :=
  String.prefix substr s
  || match s with
     | "" => false
     | String _ t => linear_scan t substr
     end.

(** [Search] as the specification words it: the entries whose package name
    or import path contains the query, in log order. *)
Definition Search_by_scan (query : string) (entries : list Entry) : list Entry :=
  List.filter
    (fun e => linear_scan (Package e) query || linear_scan (ImportPath e) query)
    entries.

(** The stand-in for [json.Marshal] and [json.Unmarshal] on an [Entry]. *)
Definition sample_MarshalLine (e : Entry) : option string :=
  Some (String "E"
          (Standin.enc_Z (Timestamp e)
           +:+ Standin.enc_string (GoJSON.json_string (Package e))
           +:+ Standin.enc_string (GoJSON.json_string (ImportPath e))
           +:+ Standin.enc_string (GoJSON.json_string (Action e)))).

Definition sample_UnmarshalLine (line : string) : option Entry :=
  match line with
  | String "E" data =>
      match Standin.dec_Z data with
      | Some (timestamp, data) =>
          match Standin.dec_string data with
          | Some (package, data) =>
              match Standin.dec_string data with
              | Some (importPath, data) =>
                  match Standin.dec_string data with
                  | Some (action, _) =>
                      Some (mkEntry timestamp package importPath action)
                  | None => None
                  end
              | None => None
              end
          | None => None
          end
      | None => None
      end
  | _ => None
  end.

(** The lines of a log that holds [entries]. *)
Definition sample_log (entries : list Entry) : Store :=
  Lines (writeLines sample_MarshalLine entries []).


(** [strings.Repeat] of one byte. *)
Fixpoint sample_repeat (a : ascii) (n : nat) : string :=
  match n with
  | O => ""
  | S k => String a (sample_repeat a k)
  end.

End History.

(** ** The result cache (internal/cache/cache.go) *)

Module Cache.

Record Package : Type := mkPackage {
  Name : string;
  ImportPath : string;
  Description : string;
  Version : string;
  IsInstalled : bool
}.

Record CacheEntry : Type := mkCacheEntry {
  Query : string;
  Results : list Package;
  Timestamp : Z
}.

Record Cache : Type := mkCache {
  dir : string;
  ttlDays : Z
}.

(** The files of the cache directory, by path. *)
Abbreviation FS := (gmap string string).

Inductive cache_error : Type :=
| ErrMarshal.  (* "failed to marshal cache entry: ..." *)

(** [time.Duration(c.ttlDays) * 24 * time.Hour], in 64-bit arithmetic. *)
Definition ttl (c : Cache) : Z :=
  GoTime.wrap64 (GoTime.wrap64 (ttlDays c * 24) * GoTime.Hour).

(** [isExpired], when the clock reads [now]. *)
Definition isExpired (c : Cache) (now timestamp : Z) : bool :=
  ttl c <? GoTime.Since now timestamp.

Definition GetTTL (c : Cache) : Z := ttlDays c.

(** An entry of a directory listing: its name and whether it is a
    directory. *)
Record DirEntry : Type := mkDirEntry {
  entryName : string;
  entryIsDir : bool
}.

Inductive sweep_error : Type :=
| ErrReadDir                  (* "failed to read cache directory: ..." *)
| ErrRemove (name : string).  (* "failed to remove cache file %s: ..." *)

Section WithEnv.

(** [hex.EncodeToString] of the SHA-256 digest of the query. *)
Variable sha256_hex : string -> string.
(** [filepath.Join]. *)
Variable filepath_Join : string -> string -> string.
(** [json.MarshalIndent] and [json.Unmarshal] on a [CacheEntry]. *)
Variable json_MarshalIndent : CacheEntry -> option string.
Variable json_Unmarshal : string -> option CacheEntry.

Definition getFilename (query : string) : string :=
  sha256_hex query +:+ ".json".

(** [Get]: the entry when found; the file is removed when it has expired.
    The clock reads [now]. *)
Definition Get (c : Cache) (now : Z) (query : string) (fs : FS)
    : FS * option CacheEntry :=
  let filename := getFilename query in
  let path := filepath_Join (dir c) filename in
  match fs !! path with
  | None => (fs, None)
  | Some data =>
      match json_Unmarshal data with
      | None => (fs, None)
      | Some entry =>
          if isExpired c now (Timestamp entry)
          then (delete path fs, None)
          else (fs, Some entry)
      end
  end.

(** [Set]: the entry is written to a temporary file, which is then renamed
    over the target.  The clock reads [now]. *)
Definition Set_ (c : Cache) (now : Z) (query : string) (packages : list Package)
    (fs : FS) : FS * option cache_error :=
  let entry := mkCacheEntry query packages now in
  match json_MarshalIndent entry with
  | None => (fs, Some ErrMarshal)
  | Some data =>
      let filename := getFilename query in
      let path := filepath_Join (dir c) filename in
      let tempPath := path +:+ ".tmp" in
      let fs := <[tempPath := data]> fs in
      let fs := <[path := data]> (delete tempPath fs) in
      (fs, None)
  end.

(** [os.ReadDir] of a directory: its entries, or nothing on an error. *)
Variable os_ReadDir : string -> option (list DirEntry).

(** The entries [Clear] and [CleanExpired] look at: regular files whose
    extension is [.json]. *)
Definition isCacheFile (entry : DirEntry) : bool :=
  negb (entryIsDir entry) && (GoString.Ext (entryName entry) =? ".json")%string.

(** The loop of [Clear]; [os.Remove] fails on a file that is not there. *)
Fixpoint Clear_loop (c : Cache) (entries : list DirEntry) (fs : FS)
    : FS * option sweep_error :=
  match entries with
  | [] => (fs, None)
  | entry :: rest =>
      if isCacheFile entry then
        let path := filepath_Join (dir c) (entryName entry) in
        match fs !! path with
        | Some _ => Clear_loop c rest (delete path fs)
        | None => (fs, Some (ErrRemove (entryName entry)))
        end
      else Clear_loop c rest fs
  end.

Definition Clear (c : Cache) (fs : FS) : FS * option sweep_error :=
  match os_ReadDir (dir c) with
  | None => (fs, Some ErrReadDir)
  | Some entries => Clear_loop c entries fs
  end.

(** The loop of [CleanExpired]: files that cannot be read or parsed are
    passed over, the result of [os.Remove] is not looked at.  The clock
    reads [now] throughout the call. *)
Fixpoint CleanExpired_loop (c : Cache) (now : Z) (entries : list DirEntry)
    (fs : FS) : FS :=
  match entries with
  | [] => fs
  | entry :: rest =>
      if isCacheFile entry then
        let path := filepath_Join (dir c) (entryName entry) in
        match fs !! path with
        | None => CleanExpired_loop c now rest fs
        | Some data =>
            match json_Unmarshal data with
            | None => CleanExpired_loop c now rest fs
            | Some cacheEntry =>
                if isExpired c now (Timestamp cacheEntry)
                then CleanExpired_loop c now rest (delete path fs)
                else CleanExpired_loop c now rest fs
            end
        end
      else CleanExpired_loop c now rest fs
  end.

Definition CleanExpired (c : Cache) (now : Z) (fs : FS) : FS * option sweep_error :=
  match os_ReadDir (dir c) with
  | None => (fs, Some ErrReadDir)
  | Some entries => (CleanExpired_loop c now entries fs, None)
  end.

End WithEnv.

(** [p] is the path of a cache file among the [entries] of the directory. *)
Definition listed (filepath_Join : string -> string -> string) (c : Cache)
    (entries : list DirEntry) (p : string) : Prop :=
  exists entry, In entry entries /\ isCacheFile entry = true
                /\ p = filepath_Join (dir c) (entryName entry).

(** The record at [p] holds an entry that is stale at [now]. *)
Definition stale_at (json_Unmarshal : string -> option CacheEntry) (c : Cache)
    (now : Z) (fs : FS) (p : string) : Prop :=
  exists data entry, fs !! p = Some data /\ json_Unmarshal data = Some entry
                     /\ isExpired c now (Timestamp entry) = true.

(** Sample data for the examples: one cached search and a stand-in for its
    JSON encoding, files named by the query itself. *)
Definition sample_packages : list Package :=
  [ mkPackage "cobra" "github.com/spf13/cobra" "A Commander for modern Go CLI interactions" "1.8.0" false;
    mkPackage "viper" "github.com/spf13/viper" "Go configuration with fangs" "" true ].

Definition sample_entry : CacheEntry := mkCacheEntry "spf13" sample_packages 5.


Definition sample_Unmarshal (data : string) : option CacheEntry :=
  if (data =? "spf13")%string then Some sample_entry else None.

Definition sample_Join (d f : string) : string := d +:+ "/" +:+ f.

(** What a [Package] and a [CacheEntry] are after [json.MarshalIndent] and
    [json.Unmarshal]: the strings as [encoding/json] leaves them, the flag
    and the instant as they were. *)
Definition json_package (pkg : Package) : Package :=
  mkPackage (GoJSON.json_string (Name pkg)) (GoJSON.json_string (ImportPath pkg))
    (GoJSON.json_string (Description pkg)) (GoJSON.json_string (Version pkg))
    (IsInstalled pkg).

Definition json_entry (e : CacheEntry) : CacheEntry :=
  mkCacheEntry (GoJSON.json_string (Query e)) (json_package <$> Results e)
    (Timestamp e).

(** What the program relies on of [encoding/json]: whatever
    [json.MarshalIndent] gives for an entry, [json.Unmarshal] reads back as
    the entry with its strings made valid UTF-8. *)
Definition encoding_json (json_MarshalIndent : CacheEntry -> option string)
    (json_Unmarshal : string -> option CacheEntry) : Prop :=
  forall e data, json_MarshalIndent e = Some data ->
    json_Unmarshal data = Some (json_entry e).

(** The strings of a package are valid UTF-8. *)
Definition package_valid (pkg : Package) : Prop :=
  GoJSON.utf8_valid (Name pkg) /\ GoJSON.utf8_valid (ImportPath pkg)
  /\ GoJSON.utf8_valid (Description pkg) /\ GoJSON.utf8_valid (Version pkg).

(** The stand-in for [json.MarshalIndent] and [json.Unmarshal] on a
    [CacheEntry]: the number of packages is written as a run of [P]. *)
Definition standin_package (pkg : Package) : string :=
  Standin.enc_string (GoJSON.json_string (Name pkg))
  +:+ Standin.enc_string (GoJSON.json_string (ImportPath pkg))
  +:+ Standin.enc_string (GoJSON.json_string (Description pkg))
  +:+ Standin.enc_string (GoJSON.json_string (Version pkg))
  +:+ Standin.enc_bool (IsInstalled pkg).

Fixpoint standin_count (n : nat) : string :=
  match n with
  | O => String "." ""
  | S k => String "P" (standin_count k)
  end.

Fixpoint standin_packages (packages : list Package) : string :=
  match packages with
  | [] => ""
  | pkg :: rest => standin_package pkg +:+ standin_packages rest
  end.

Definition standin_MarshalIndent (e : CacheEntry) : option string :=
  Some (String "C"
          (Standin.enc_string (GoJSON.json_string (Query e))
           +:+ Standin.enc_Z (Timestamp e)
           +:+ standin_count (length (Results e))
           +:+ standin_packages (Results e))).

Definition standin_read_package (data : string) : option (Package * string) :=
  match Standin.dec_string data with
  | Some (name, data) =>
      match Standin.dec_string data with
      | Some (importPath, data) =>
          match Standin.dec_string data with
          | Some (description, data) =>
              match Standin.dec_string data with
              | Some (version, data) =>
                  match Standin.dec_bool data with
                  | Some (installed, data) =>
                      Some (mkPackage name importPath description version
                              installed, data)
                  | None => None
                  end
              | None => None
              end
          | None => None
          end
      | None => None
      end
  | None => None
  end.

Fixpoint standin_read_count (data : string) : option (nat * string) :=
  match data with
  | String "." rest => Some (O, rest)
  | String "P" rest =>
      match standin_read_count rest with
      | Some (n, rest) => Some (S n, rest)
      | None => None
      end
  | _ => None
  end.

Fixpoint standin_read_packages (n : nat) (data : string)
    : option (list Package) :=
  match n with
  | O => Some []
  | S k =>
      match standin_read_package data with
      | Some (pkg, data) =>
          match standin_read_packages k data with
          | Some rest => Some (pkg :: rest)
          | None => None
          end
      | None => None
      end
  end.

Definition standin_Unmarshal (data : string) : option CacheEntry :=
  match data with
  | String "C" data =>
      match Standin.dec_string data with
      | Some (query, data) =>
          match Standin.dec_Z data with
          | Some (timestamp, data) =>
              match standin_read_count data with
              | Some (n, data) =>
                  match standin_read_packages n data with
                  | Some packages => Some (mkCacheEntry query packages timestamp)
                  | None => None
                  end
              | None => None
              end
          | None => None
          end
      | None => None
      end
  | _ => None
  end.

(** A package whose name is the single byte 0xFF, which is no valid
    UTF-8. *)
Definition sample_bad_package : Package :=
  mkPackage (String "255" "") "example.com/bad" "" "" false.

End Cache.

(** ** The package manager (internal/packages/manager.go) *)

Module Packages.

Import Cache.

Record Manager : Type := mkManager {
  goModCachePath : string;
  installedCache : gmap string bool
}.

Definition New (goModCachePath : string) : Manager :=
  mkManager goModCachePath ∅.

Section WithProbe.

(** [checkInstalled]: the scan of the module cache directory followed by
    [go list -m]; what it finds on the machine is not part of the model. *)
Variable checkInstalled : Manager -> string -> bool.

(** [IsInstalled]: the memoised probe. *)
Definition IsInstalled (m : Manager) (importPath : string) : Manager * bool :=
  match installedCache m !! importPath with
  | Some installed => (m, installed)
  | None =>
      let installed := checkInstalled m importPath in
      (mkManager (goModCachePath m) (<[importPath := installed]> (installedCache m)),
       installed)
  end.

(** [MarkInstalledPackages]: a copy of [packages] with the flags set. *)
Fixpoint MarkInstalledPackages (m : Manager) (packages : list Package)
    : Manager * list Package :=
  match packages with
  | [] => (m, [])
  | pkg :: rest =>
      let '(m, installed) := IsInstalled m (ImportPath pkg) in
      let '(m, result) := MarkInstalledPackages m rest in
      (m, mkPackage (Name pkg) (ImportPath pkg) (Description pkg) (Version pkg)
            installed :: result)
  end.

End WithProbe.

(** The loop of [GetInstallCommand], appending to [pkgs]. *)
Fixpoint GetInstallCommand_loop (packages : list Package) (pkgs : list string)
    : list string :=
  match packages with
  | [] => pkgs
  | pkg :: rest =>
      if negb (Cache.IsInstalled pkg) then
        if negb (Version pkg =? "")%string
        then GetInstallCommand_loop rest
               (pkgs ++ [ImportPath pkg +:+ "@" +:+ Version pkg])
        else GetInstallCommand_loop rest (pkgs ++ [ImportPath pkg])
      else GetInstallCommand_loop rest pkgs
  end.

Definition GetInstallCommand (packages : list Package) : string :=
  let pkgs := GetInstallCommand_loop packages [] in
  if (Z.of_nat (length pkgs) =? 0) then ""
  else "go get " +:+ GoString.Join pkgs " ".

Definition RefreshCache (m : Manager) : Manager :=
  mkManager (goModCachePath m) ∅.

(** How the specification words the command: the argument a package
    contributes, and the packages that contribute one. *)
Definition install_argument (pkg : Package) : string :=
  if (Version pkg =? "")%string then ImportPath pkg
  else ImportPath pkg +:+ "@" +:+ Version pkg.

Definition not_installed (packages : list Package) : list Package :=
  List.filter (fun pkg => negb (Cache.IsInstalled pkg)) packages.

(** What [checkInstalled] reads from the machine: the module cache
    directory and the output of [go list -m], absent when the command
    fails. *)
Section WithMachine.

Variable filepath_Join : string -> string -> string.
Variable os_ReadDir : string -> option (list DirEntry).
Variable TrimSpace : string -> string.
Variable go_list : string -> option string.

(** [parts[i]] of a slice of strings. *)
Definition part (parts : list string) (i : nat) : string := nth i parts "".

(** The loop of [checkInstalled] over the directory entries. *)
Fixpoint checkInstalled_scan (packageName : string) (entries : list DirEntry)
    : bool :=
  match entries with
  | [] => false
  | entry :: rest =>
      if entryIsDir entry
         && GoString.HasPrefix (entryName entry) (packageName +:+ "@")
      then true
      else checkInstalled_scan packageName rest
  end.

Definition checkInstalled (m : Manager) (importPath : string) : bool :=
  let parts := GoString.Split importPath "/" in
  if Z.of_nat (length parts) <? 2 then false
  else
    let searchPath := filepath_Join (goModCachePath m) (part parts 0) in
    let searchPath :=
      if 1 <? Z.of_nat (length parts)
      then filepath_Join searchPath (part parts 1) else searchPath in
    match os_ReadDir searchPath with
    | None => false
    | Some entries =>
        let packageName := part parts (length parts - 1) in
        if checkInstalled_scan packageName entries then true
        else
          match go_list importPath with
          | Some output => negb (TrimSpace output =? "")%string
          | None => false
          end
    end.

End WithMachine.

(** [InstallPackage] and [InstallPackages] called without a progress
    callback.  [go_get n importPath] is the outcome of the [n]-th run of
    [go get importPath]; the state carries the import paths of the runs so
    far. *)
Inductive install_error : Type :=
| ErrStdoutPipe
| ErrStderrPipe
| ErrStart
| ErrWait (errOutput : string)
| ErrInstallOf (importPath : string) (cause : install_error).

Section WithGoGet.

Variable go_get : nat -> string -> option install_error.

Definition InstallPackage (m : Manager) (importPath : string) (runs : list string)
    : Manager * list string * option install_error :=
  let m := mkManager (goModCachePath m) (delete importPath (installedCache m)) in
  (m, runs ++ [importPath], go_get (length runs) importPath).

Fixpoint InstallPackages (m : Manager) (packages : list Package)
    (runs : list string) : Manager * list string * option install_error :=
  match packages with
  | [] => (m, runs, None)
  | pkg :: rest =>
      if Cache.IsInstalled pkg then InstallPackages m rest runs
      else
        let '(m, runs, err) := InstallPackage m (ImportPath pkg) runs in
        match err with
        | Some err => (m, runs, Some (ErrInstallOf (ImportPath pkg) err))
        | None => InstallPackages m rest runs
        end
  end.

End WithGoGet.

(** The answer the manager remembers for an import path. *)
Definition remembered (m : Manager) (importPath : string) : option bool :=
  installedCache m !! importPath.

(** [strings.Contains(s, "/")] written as a scan, for stating what
    [checkInstalled] needs of an import path. *)
Fixpoint has_slash (s : string) : bool :=
  match s with
  | "" => false
  | String a t => Ascii.eqb a "/" || has_slash t
  end.

End Packages.

(** ** The scraper (internal/scraper/scraper.go) *)

Module Scraper.

Import Cache.

(** What goquery finds in a document.  [Find(...).First()] is [None] when
    the selection is empty; a [Link] carries [Attr("href")] and [Text()]. *)
Record Link : Type := mkLink {
  href : option string;
  text : string
}.

(** A search snippet, as [parsePackage] queries it. *)
Record Selection : Type := mkSelection {
  (* sel.Find("h2 a, h3 a, [data-test-id='snippet-title'] a").First() *)
  titleLink : option Link;
  (* sel.Find("a").First() *)
  anyLink : option Link;
  (* Text() of First() for each of the four description selectors *)
  synopses : list (option string);
  (* .SearchSnippet-version, [data-test-id='snippet-version'] *)
  versionEl : option string
}.

(** A title element of the third strategy: its first link and the synopsis
    found under its parent. *)
Record TitleEl : Type := mkTitleEl {
  link : option Link;
  parentSynopsis : option string
}.

Record Document : Type := mkDocument {
  divSnippets : list Selection;      (* div.SearchSnippet *)
  articleSnippets : list Selection;  (* article.SearchSnippet *)
  snippetTitles : list TitleEl       (* [data-test-id='snippet-title'] *)
}.

(** The body of a response, as [goquery.NewDocumentFromReader] reads it. *)
Inductive Body : Type :=
| Unparsable (err : string)
| Html (doc : Document).

(** The outcome of [client.Get]. *)
Inductive Reply : Type :=
| TransportError (err : string)
| Response (StatusCode : Z) (body : Body).

(** Why an attempt failed. *)
Inductive AttemptError : Type :=
| ErrTransport (err : string)
| ErrStatus (code : Z)        (* "unexpected status code: %d" *)
| ErrParse (err : string).

(** "failed to fetch search results after %d attempts: %w". *)
Inductive search_error : Type :=
| ErrFetch (attempts : Z) (lastErr : option AttemptError).

(** What the run does to the outside, in order. *)
Inductive Event : Type :=
| Sleep (d : Z)
| Request (url : string).

Abbreviation World := (list Event).

Fixpoint requests (w : World) : nat :=
  match w with
  | [] => 0
  | Request _ :: w' => S (requests w')
  | Sleep _ :: w' => requests w'
  end.

Record Scraper : Type := mkScraper {
  maxRetries : Z;
  baseURL : string
}.

Definition New : Scraper := mkScraper 3 "https://pkg.go.dev".

Definition StatusOK : Z := 200.

(** [time.Duration(1<<uint(attempt-1)) * time.Second]: a shift by 64 or more
    gives 0, and the product wraps. *)
Definition backoff (attempt : Z) : Z :=
  let shift := attempt - 1 in
  GoTime.wrap64
    (GoTime.wrap64 (if shift <? 64 then 2 ^ shift else 0) * GoTime.Second).

Section WithNetwork.

(** [strings.TrimSpace] and [url.QueryEscape]. *)
Variable TrimSpace : string -> string.
Variable QueryEscape : string -> string.
(** The reply of the network to the [n]-th request of the run. *)
Variable client_Get : nat -> string -> Reply.

(** The description loop of [parsePackage]. *)
Fixpoint parsePackage_description (found : list (option string))
    (description : string) : string :=
  match found with
  | [] => description
  | None :: rest => parsePackage_description rest description
  | Some t :: rest =>
      let description := TrimSpace t in
      if negb (description =? "")%string then description
      else parsePackage_description rest description
  end.

Definition parsePackage (sel : Selection) : option Package :=
  let titleLink :=
    match titleLink sel with
    | Some l => Some l
    | None => anyLink sel
    end in
  match titleLink with
  | None => None
  | Some l =>
      match href l with
      | None => None
      | Some href =>
          if (href =? "")%string then None
          else
            let importPath := GoString.TrimPrefix href "/" in
            let importPath := TrimSpace importPath in
            if (importPath =? "")%string then None
            else
              let name := TrimSpace (text l) in
              let name :=
                if (name =? "")%string
                then GoString.last_segment "/" importPath
                else name in
              let description := parsePackage_description (synopses sel) "" in
              let version :=
                match versionEl sel with
                | None => ""
                | Some t => GoString.TrimPrefix (TrimSpace t) "v"
                end in
              Some (mkPackage name importPath description version false)
      end
  end.

(** The callback of the first two strategies over the snippets found. *)
Fixpoint parseSnippets (sels : list Selection) (packages : list Package)
    : list Package :=
  match sels with
  | [] => packages
  | sel :: rest =>
      match parsePackage sel with
      | Some pkg =>
          if negb (ImportPath pkg =? "")%string
          then parseSnippets rest (packages ++ [pkg])
          else parseSnippets rest packages
      | None => parseSnippets rest packages
      end
  end.

(** The callback of the third strategy. *)
Fixpoint parseTitles (els : list TitleEl) (packages : list Package)
    : list Package :=
  match els with
  | [] => packages
  | el :: rest =>
      match link el with
      | None => parseTitles rest packages
      | Some l =>
          match href l with
          | None => parseTitles rest packages
          | Some href =>
              let importPath := GoString.TrimPrefix href "/" in
              if (importPath =? "")%string then parseTitles rest packages
              else
                let name := text l in
                let name :=
                  if (name =? "")%string
                  then GoString.last_segment "/" importPath
                  else name in
                let description :=
                  match parentSynopsis el with
                  | Some t => TrimSpace t
                  | None => ""
                  end in
                parseTitles rest
                  (packages ++ [mkPackage name importPath description "" false])
          end
      end
  end.

Definition parseResults (doc : Document) : list Package :=
  let packages := parseSnippets (divSnippets doc) [] in
  let packages :=
    if (Z.of_nat (length packages) =? 0)
    then parseSnippets (articleSnippets doc) packages
    else packages in
  let packages :=
    if (Z.of_nat (length packages) =? 0)
    then parseTitles (snippetTitles doc) packages
    else packages in
  packages.

(** The retry loop of [Search]: [n] iterations are left, the next one has
    index [attempt]. *)
Fixpoint Search_attempts (searchURL : string) (n : nat) (attempt : Z) (w : World)
    (lastErr : option AttemptError)
    : World * option Document * option AttemptError :=
  match n with
  | O => (w, None, lastErr)
  | S n' =>
      let w := if 0 <? attempt then w ++ [Sleep (backoff attempt)] else w in
      let reply := client_Get (requests w) searchURL in
      let w := w ++ [Request searchURL] in
      match reply with
      | TransportError err =>
          Search_attempts searchURL n' (attempt + 1) w (Some (ErrTransport err))
      | Response code body =>
          if negb (code =? StatusOK)
          then Search_attempts searchURL n' (attempt + 1) w (Some (ErrStatus code))
          else
            match body with
            | Html doc => (w, Some doc, lastErr)
            | Unparsable err =>
                Search_attempts searchURL n' (attempt + 1) w (Some (ErrParse err))
            end
      end
  end.

Definition searchURL (s : Scraper) (query : string) : string :=
  baseURL s +:+ "/search?q=" +:+ QueryEscape query.

Definition Search (s : Scraper) (query : string) (w : World)
    : World * (list Package + search_error) :=
  if (query =? "")%string then (w, inl [])
  else
    let '(w, doc, lastErr) :=
      Search_attempts (searchURL s query) (Z.to_nat (maxRetries s)) 0 w None in
    match doc with
    | None => (w, inr (ErrFetch (maxRetries s) lastErr))
    | Some doc => (w, inl (parseResults doc))
    end.

End WithNetwork.

(** How the specification words one attempt and the schedule of a run. *)
Definition failure (reply : Reply) : option AttemptError :=
  match reply with
  | TransportError err => Some (ErrTransport err)
  | Response code body =>
      if negb (code =? StatusOK) then Some (ErrStatus code)
      else match body with
           | Html _ => None
           | Unparsable err => Some (ErrParse err)
           end
  end.

(** The first [n] replies to [url] are failures. *)
Definition all_fail (client_Get : nat -> string -> Reply) (url : string) (n : nat)
    : Prop :=
  forall k, (k < n)%nat -> failure (client_Get k url) <> None.

(** The failure of the attempt before attempt [a], if any. *)
Definition last_failure (client_Get : nat -> string -> Reply) (url : string)
    (a : nat) : option AttemptError :=
  match a with
  | O => None
  | S a' => failure (client_Get a' url)
  end.

(** The events of [n] attempts: attempt 0 at once, attempt [k >= 1] after a
    sleep of [backoff k]. *)
Fixpoint schedule (url : string) (n : nat) : World :=
  match n with
  | O => []
  | S n' =>
      schedule url n'
      ++ (if (0 <? Z.of_nat n') then [Sleep (backoff (Z.of_nat n'))] else [])
      ++ [Request url]
  end.

(** The time a run has spent sleeping. *)
Fixpoint slept (w : World) : Z :=
  match w with
  | [] => 0
  | Sleep d :: w' => d + slept w'
  | Request _ :: w' => slept w'
  end.

(** The server of the repository's retry test: two replies with status 500,
    then a page with one snippet. *)
Definition sample_doc : Document :=
  mkDocument
    [mkSelection (Some (mkLink (Some "/github.com/test/pkg") "pkg")) None
       [None; None; None; None] None]
    [] [].

Definition sample_client_Get (n : nat) (url : string) : Reply :=
  if (n <? 2)%nat then Response 500 (Html (mkDocument [] [] []))
  else Response 200 (Html sample_doc).

End Scraper.

(** ** The session state machine (internal/tui) *)

Module Tui.

Import Cache.

Inductive ViewState : Type :=
| ViewSearch
| ViewOptions
| ViewInstalling
| ViewCommands
| ViewHelp.

(** The key types the handlers name; [KeyOther] is any other key. *)
Inductive KeyType : Type :=
| KeyCtrlC | KeyEsc | KeyUp | KeyDown | KeyTab | KeyEnter
| KeyCtrlH | KeyCtrlQ | KeyCtrlA | KeyCtrlN | KeyRunes | KeyOther.

(** A rune is its code point. *)
Definition rune : Type := Z.
Definition rune_of (a : ascii) : rune := Z.of_nat (nat_of_ascii a).

(** [tea.KeyMsg]: its type, its runes and what [msg.String()] gives. *)
Record KeyMsg : Type := mkKeyMsg {
  Type_ : KeyType;
  Runes : list rune;
  String_ : string
}.

(** The messages [Update] tells apart.  The percentage of an
    [installProgressMsg], a float only shown on screen, is left out. *)
Inductive Msg : Type :=
| WindowSizeMsg (Width Height : Z)
| Key (k : KeyMsg)
| searchResultsMsg (packages : list Package) (fromCache : bool) (err : option string)
| installProgressMsg (message : string) (done : bool)
| installErrorMsg (err : string)
| spinnerTickMsg
| otherMsg.

(** The commands [Update] hands back to the runtime. *)
Inductive Cmd : Type :=
| Quit
| debouncedSearch (query : string)
| inputCmd
| spinnerCmd.

(** A call the session makes to one of its collaborators. *)
Inductive Call : Type :=
| historyAdd (packageName importPath : string) (action : History.ActionType)
| cacheClear.

(** The session state.  [searchInput] is the value of the text input,
    [searchDebounce] tells whether a timer has been created, and [calls]
    lists the calls made to the history and to the cache so far.  The fields
    that only the views read (spinner, recent history) are left out. *)
Record Model : Type := mkModel {
  viewState : ViewState;
  searchInput : string;
  packages : list Package;
  cursor : Z;
  selected : gmap Z bool;
  message : string;
  messageType : string;
  searching : bool;
  searchDebounce : bool;
  lastQuery : string;
  fromCache : bool;
  installing : bool;
  installMessage : string;
  showHelp : bool;
  commands : list string;
  width : Z;
  height : Z;
  firstRun : bool;
  quitWithCommands : bool;
  commandsToPrint : list string;
  autoRun : bool;
  pkgManager : Packages.Manager;
  calls : list Call
}.

Definition set_viewState (v : ViewState) (m : Model) : Model :=
  mkModel v (searchInput m) (packages m) (cursor m) (selected m) (message m)
    (messageType m) (searching m) (searchDebounce m) (lastQuery m)
    (fromCache m) (installing m) (installMessage m) (showHelp m)
    (commands m) (width m) (height m) (firstRun m) (quitWithCommands m)
    (commandsToPrint m) (autoRun m) (pkgManager m) (calls m).

Definition set_searchInput (v : string) (m : Model) : Model :=
  mkModel (viewState m) v (packages m) (cursor m) (selected m) (message m)
    (messageType m) (searching m) (searchDebounce m) (lastQuery m)
    (fromCache m) (installing m) (installMessage m) (showHelp m)
    (commands m) (width m) (height m) (firstRun m) (quitWithCommands m)
    (commandsToPrint m) (autoRun m) (pkgManager m) (calls m).

Definition set_packages (v : list Package) (m : Model) : Model :=
  mkModel (viewState m) (searchInput m) v (cursor m) (selected m)
    (message m) (messageType m) (searching m) (searchDebounce m)
    (lastQuery m) (fromCache m) (installing m) (installMessage m)
    (showHelp m) (commands m) (width m) (height m) (firstRun m)
    (quitWithCommands m) (commandsToPrint m) (autoRun m) (pkgManager m)
    (calls m).

Definition set_cursor (v : Z) (m : Model) : Model :=
  mkModel (viewState m) (searchInput m) (packages m) v (selected m)
    (message m) (messageType m) (searching m) (searchDebounce m)
    (lastQuery m) (fromCache m) (installing m) (installMessage m)
    (showHelp m) (commands m) (width m) (height m) (firstRun m)
    (quitWithCommands m) (commandsToPrint m) (autoRun m) (pkgManager m)
    (calls m).

Definition set_selected (v : gmap Z bool) (m : Model) : Model :=
  mkModel (viewState m) (searchInput m) (packages m) (cursor m) v
    (message m) (messageType m) (searching m) (searchDebounce m)
    (lastQuery m) (fromCache m) (installing m) (installMessage m)
    (showHelp m) (commands m) (width m) (height m) (firstRun m)
    (quitWithCommands m) (commandsToPrint m) (autoRun m) (pkgManager m)
    (calls m).

Definition set_message (v : string) (m : Model) : Model :=
  mkModel (viewState m) (searchInput m) (packages m) (cursor m) (selected m)
    v (messageType m) (searching m) (searchDebounce m) (lastQuery m)
    (fromCache m) (installing m) (installMessage m) (showHelp m)
    (commands m) (width m) (height m) (firstRun m) (quitWithCommands m)
    (commandsToPrint m) (autoRun m) (pkgManager m) (calls m).

Definition set_messageType (v : string) (m : Model) : Model :=
  mkModel (viewState m) (searchInput m) (packages m) (cursor m) (selected m)
    (message m) v (searching m) (searchDebounce m) (lastQuery m)
    (fromCache m) (installing m) (installMessage m) (showHelp m)
    (commands m) (width m) (height m) (firstRun m) (quitWithCommands m)
    (commandsToPrint m) (autoRun m) (pkgManager m) (calls m).

Definition set_searching (v : bool) (m : Model) : Model :=
  mkModel (viewState m) (searchInput m) (packages m) (cursor m) (selected m)
    (message m) (messageType m) v (searchDebounce m) (lastQuery m)
    (fromCache m) (installing m) (installMessage m) (showHelp m)
    (commands m) (width m) (height m) (firstRun m) (quitWithCommands m)
    (commandsToPrint m) (autoRun m) (pkgManager m) (calls m).

Definition set_searchDebounce (v : bool) (m : Model) : Model :=
  mkModel (viewState m) (searchInput m) (packages m) (cursor m) (selected m)
    (message m) (messageType m) (searching m) v (lastQuery m) (fromCache m)
    (installing m) (installMessage m) (showHelp m) (commands m) (width m)
    (height m) (firstRun m) (quitWithCommands m) (commandsToPrint m)
    (autoRun m) (pkgManager m) (calls m).

Definition set_lastQuery (v : string) (m : Model) : Model :=
  mkModel (viewState m) (searchInput m) (packages m) (cursor m) (selected m)
    (message m) (messageType m) (searching m) (searchDebounce m) v
    (fromCache m) (installing m) (installMessage m) (showHelp m)
    (commands m) (width m) (height m) (firstRun m) (quitWithCommands m)
    (commandsToPrint m) (autoRun m) (pkgManager m) (calls m).

Definition set_fromCache (v : bool) (m : Model) : Model :=
  mkModel (viewState m) (searchInput m) (packages m) (cursor m) (selected m)
    (message m) (messageType m) (searching m) (searchDebounce m)
    (lastQuery m) v (installing m) (installMessage m) (showHelp m)
    (commands m) (width m) (height m) (firstRun m) (quitWithCommands m)
    (commandsToPrint m) (autoRun m) (pkgManager m) (calls m).

Definition set_installing (v : bool) (m : Model) : Model :=
  mkModel (viewState m) (searchInput m) (packages m) (cursor m) (selected m)
    (message m) (messageType m) (searching m) (searchDebounce m)
    (lastQuery m) (fromCache m) v (installMessage m) (showHelp m)
    (commands m) (width m) (height m) (firstRun m) (quitWithCommands m)
    (commandsToPrint m) (autoRun m) (pkgManager m) (calls m).

Definition set_installMessage (v : string) (m : Model) : Model :=
  mkModel (viewState m) (searchInput m) (packages m) (cursor m) (selected m)
    (message m) (messageType m) (searching m) (searchDebounce m)
    (lastQuery m) (fromCache m) (installing m) v (showHelp m) (commands m)
    (width m) (height m) (firstRun m) (quitWithCommands m)
    (commandsToPrint m) (autoRun m) (pkgManager m) (calls m).

Definition set_showHelp (v : bool) (m : Model) : Model :=
  mkModel (viewState m) (searchInput m) (packages m) (cursor m) (selected m)
    (message m) (messageType m) (searching m) (searchDebounce m)
    (lastQuery m) (fromCache m) (installing m) (installMessage m) v
    (commands m) (width m) (height m) (firstRun m) (quitWithCommands m)
    (commandsToPrint m) (autoRun m) (pkgManager m) (calls m).

Definition set_commands (v : list string) (m : Model) : Model :=
  mkModel (viewState m) (searchInput m) (packages m) (cursor m) (selected m)
    (message m) (messageType m) (searching m) (searchDebounce m)
    (lastQuery m) (fromCache m) (installing m) (installMessage m)
    (showHelp m) v (width m) (height m) (firstRun m) (quitWithCommands m)
    (commandsToPrint m) (autoRun m) (pkgManager m) (calls m).

Definition set_width (v : Z) (m : Model) : Model :=
  mkModel (viewState m) (searchInput m) (packages m) (cursor m) (selected m)
    (message m) (messageType m) (searching m) (searchDebounce m)
    (lastQuery m) (fromCache m) (installing m) (installMessage m)
    (showHelp m) (commands m) v (height m) (firstRun m) (quitWithCommands m)
    (commandsToPrint m) (autoRun m) (pkgManager m) (calls m).

Definition set_height (v : Z) (m : Model) : Model :=
  mkModel (viewState m) (searchInput m) (packages m) (cursor m) (selected m)
    (message m) (messageType m) (searching m) (searchDebounce m)
    (lastQuery m) (fromCache m) (installing m) (installMessage m)
    (showHelp m) (commands m) (width m) v (firstRun m) (quitWithCommands m)
    (commandsToPrint m) (autoRun m) (pkgManager m) (calls m).

Definition set_firstRun (v : bool) (m : Model) : Model :=
  mkModel (viewState m) (searchInput m) (packages m) (cursor m) (selected m)
    (message m) (messageType m) (searching m) (searchDebounce m)
    (lastQuery m) (fromCache m) (installing m) (installMessage m)
    (showHelp m) (commands m) (width m) (height m) v (quitWithCommands m)
    (commandsToPrint m) (autoRun m) (pkgManager m) (calls m).

Definition set_quitWithCommands (v : bool) (m : Model) : Model :=
  mkModel (viewState m) (searchInput m) (packages m) (cursor m) (selected m)
    (message m) (messageType m) (searching m) (searchDebounce m)
    (lastQuery m) (fromCache m) (installing m) (installMessage m)
    (showHelp m) (commands m) (width m) (height m) (firstRun m) v
    (commandsToPrint m) (autoRun m) (pkgManager m) (calls m).

Definition set_commandsToPrint (v : list string) (m : Model) : Model :=
  mkModel (viewState m) (searchInput m) (packages m) (cursor m) (selected m)
    (message m) (messageType m) (searching m) (searchDebounce m)
    (lastQuery m) (fromCache m) (installing m) (installMessage m)
    (showHelp m) (commands m) (width m) (height m) (firstRun m)
    (quitWithCommands m) v (autoRun m) (pkgManager m) (calls m).

Definition set_autoRun (v : bool) (m : Model) : Model :=
  mkModel (viewState m) (searchInput m) (packages m) (cursor m) (selected m)
    (message m) (messageType m) (searching m) (searchDebounce m)
    (lastQuery m) (fromCache m) (installing m) (installMessage m)
    (showHelp m) (commands m) (width m) (height m) (firstRun m)
    (quitWithCommands m) (commandsToPrint m) v (pkgManager m) (calls m).

Definition set_pkgManager (v : Packages.Manager) (m : Model) : Model :=
  mkModel (viewState m) (searchInput m) (packages m) (cursor m) (selected m)
    (message m) (messageType m) (searching m) (searchDebounce m)
    (lastQuery m) (fromCache m) (installing m) (installMessage m)
    (showHelp m) (commands m) (width m) (height m) (firstRun m)
    (quitWithCommands m) (commandsToPrint m) (autoRun m) v (calls m).

Definition set_calls (v : list Call) (m : Model) : Model :=
  mkModel (viewState m) (searchInput m) (packages m) (cursor m) (selected m)
    (message m) (messageType m) (searching m) (searchDebounce m)
    (lastQuery m) (fromCache m) (installing m) (installMessage m)
    (showHelp m) (commands m) (width m) (height m) (firstRun m)
    (quitWithCommands m) (commandsToPrint m) (autoRun m) (pkgManager m) v.

(** What the run decides outside the session during one [Update]: the value
    of the text input once it has processed the message and whether it
    returned a command, the order in which the two [range] loops of
    [getSelectedPackages] visit the keys of [selected], and the error of
    [cache.Clear]. *)
Record Oracle : Type := mkOracle {
  inputValue : string;
  inputHasCmd : bool;
  rangeOrder1 : list Z;
  rangeOrder2 : list Z;
  cacheClearErr : option string
}.

Definition slice_len {A} (l : list A) : Z := Z.of_nat (length l).

(** [packages[idx]]: an index out of range panics. *)
Definition index (packages : list Package) (idx : Z) : result Package :=
  if idx <? 0 then Panic
  else match packages !! Z.to_nat idx with
       | Some pkg => Ok pkg
       | None => Panic
       end.

(** [m.selected[idx]]: a missing key reads as false. *)
Definition isSelected (selected : gmap Z bool) (idx : Z) : bool :=
  default false (selected !! idx).

(** [getSelectedPackages], its [range] loop visiting the keys in [order]. *)
Fixpoint getSelectedPackages_loop (m : Model) (order : list Z)
    (selected : list Package) : result (list Package) :=
  match order with
  | [] => Ok selected
  | idx :: rest =>
      if isSelected (Tui.selected m) idx && (idx <? slice_len (packages m)) then
        do pkg <- index (packages m) idx;
        getSelectedPackages_loop m rest (selected ++ [pkg])
      else getSelectedPackages_loop m rest selected
  end.

Definition getSelectedPackages (order : list Z) (m : Model)
    : result (list Package) :=
  getSelectedPackages_loop m order [].

(** [for i := range m.packages { m.selected[i] = true }]. *)
Fixpoint selectAll (n : nat) (i : Z) (selected : gmap Z bool) : gmap Z bool :=
  match n with
  | O => selected
  | S n' => selectAll n' (i + 1) (<[i := true]> selected)
  end.

(** [for _, pkg := range selected { m.history.Add(pkg.Name, pkg.ImportPath, action) }]. *)
Definition addToHistory (action : History.ActionType) (selected : list Package)
    (m : Model) : Model :=
  set_calls
    (calls m ++ map (fun pkg => historyAdd (Name pkg) (ImportPath pkg) action) selected)
    m.

Definition toggleHelp (m : Model) : Model := set_showHelp (negb (showHelp m)) m.

Definition selectAllPackages (m : Model) : Model :=
  if 0 <? slice_len (packages m)
  then set_selected (selectAll (length (packages m)) 0 (selected m)) m
  else m.

Definition handleSearchKeys (o : Oracle) (m : Model) (msg : KeyMsg)
    : result (Model * option Cmd) :=
  match Type_ msg with
  | KeyCtrlC => Ok (m, Some Quit)
  | KeyEsc =>
      if (searchInput m =? "")%string then Ok (m, Some Quit)
      else
        (* clear search *)
        let m := set_searchInput "" m in
        let m := set_lastQuery "" m in
        let m := set_packages [] m in
        let m := set_message "" m in
        let m := set_cursor 0 m in
        Ok (m, None)
  | KeyUp =>
      if (0 <? slice_len (packages m)) && (0 <? cursor m)
      then Ok (set_cursor (cursor m - 1) m, None)
      else Ok (m, None)
  | KeyDown =>
      if (0 <? slice_len (packages m)) && (cursor m <? slice_len (packages m) - 1)
      then Ok (set_cursor (cursor m + 1) m, None)
      else Ok (m, None)
  | KeyTab =>
      if (0 <? slice_len (packages m)) && (cursor m <? slice_len (packages m))
      then Ok (set_selected
                 (<[cursor m := negb (isSelected (selected m) (cursor m))]>
                    (selected m)) m, None)
      else Ok (m, None)
  | KeyEnter =>
      if firstRun m then Ok (set_firstRun false m, None)
      else
        do selected <- getSelectedPackages (rangeOrder1 o) m;
        do (m, selected) <-
          (if (slice_len selected =? 0) && (cursor m <? slice_len (packages m)) then
             (* auto-select current item if nothing selected *)
             let m := set_selected (<[cursor m := true]> (Tui.selected m)) m in
             do selected <- getSelectedPackages (rangeOrder2 o) m;
             Ok (m, selected)
           else Ok (m, selected));
        if 0 <? slice_len selected then
          let m := set_viewState ViewOptions m in
          Ok (addToHistory History.ActionViewed selected m, None)
        else Ok (m, None)
  | KeyCtrlH => Ok (toggleHelp m, None)
  | KeyCtrlQ => Ok (m, Some Quit)
  | KeyCtrlA => Ok (selectAllPackages m, None)
  | KeyCtrlN => Ok (set_selected ∅ m, None)
  | KeyRunes =>
      (* shift+letter commands *)
      match Runes msg with
      | [r] =>
          if r =? rune_of "Q" then Ok (m, Some Quit)
          else if r =? rune_of "H" then Ok (toggleHelp m, None)
          else if r =? rune_of "A" then Ok (selectAllPackages m, None)
          else if r =? rune_of "N" then Ok (set_selected ∅ m, None)
          else if r =? rune_of "C" then
            let m := set_calls (calls m ++ [cacheClear]) m in
            match cacheClearErr o with
            | None =>
                let m := set_message "Cache cleared successfully" m in
                Ok (set_messageType "success" m, None)
            | Some err =>
                let m := set_message ("Failed to clear cache: " +:+ err) m in
                Ok (set_messageType "error" m, None)
            end
          else Ok (m, None)
      | _ => Ok (m, None)
      end
  | KeyOther =>
      if negb (message m =? "")%string && negb (String_ msg =? "")%string
      then Ok (set_message "" m, None)
      else Ok (m, None)
  end.

(** [string(msg.Runes)] is a one-letter string exactly when [msg.Runes] is
    that letter alone. *)
Definition runes_are (runes : list rune) (a b : ascii) : bool :=
  match runes with
  | [r] => (r =? rune_of a) || (r =? rune_of b)
  | _ => false
  end.

Definition handleOptionsKeys (o : Oracle) (m : Model) (msg : KeyMsg)
    : result (Model * option Cmd) :=
  match Type_ msg with
  | KeyEsc => Ok (set_viewState ViewSearch m, None)
  | KeyRunes =>
      if runes_are (Runes msg) "g" "G" then
        do selected <- getSelectedPackages (rangeOrder1 o) m;
        let command := Packages.GetInstallCommand selected in
        if negb (command =? "")%string then
          let m := set_quitWithCommands true m in
          let m := set_commandsToPrint [command] m in
          let m := set_autoRun false m in
          Ok (m, Some Quit)
        else
          let m := set_message "All selected packages are already installed" m in
          let m := set_messageType "info" m in
          let m := set_viewState ViewSearch m in
          Ok (m, None)
      else if runes_are (Runes msg) "d" "D" then
        do selected <- getSelectedPackages (rangeOrder1 o) m;
        let command := Packages.GetInstallCommand selected in
        if negb (command =? "")%string then
          let m := set_quitWithCommands true m in
          let m := set_commandsToPrint [command] m in
          let m := set_autoRun true m in
          let m := addToHistory History.ActionInstalled selected m in
          Ok (m, Some Quit)
        else Ok (m, None)
      else if runes_are (Runes msg) "c" "C" then
        Ok (set_viewState ViewSearch m, None)
      else Ok (m, None)
  | _ => Ok (m, None)
  end.

Definition handleCommandsKeys (m : Model) (msg : KeyMsg) : Model * option Cmd :=
  match Type_ msg with
  | KeyEsc | KeyEnter =>
      let m := set_viewState ViewSearch m in
      (set_commands [] m, None)
  | KeyRunes =>
      if runes_are (Runes msg) "q" "Q" then
        let m := set_viewState ViewSearch m in
        (set_commands [] m, None)
      else (m, None)
  | _ => (m, None)
  end.

Definition debounceSearch (m : Model) : Model * option Cmd :=
  let m := set_searching true m in
  let query := searchInput m in
  if (query =? "")%string then
    let m := set_packages [] m in
    let m := set_searching false m in
    (m, None)
  else
    let m := set_searchDebounce true m in
    (m, Some (debouncedSearch query)).

Definition handleSearchResults (m : Model) (packages : list Package)
    (fromCache : bool) (err : option string) : Model :=
  let m := set_searching false m in
  match err with
  | Some e =>
      let m := set_message ("Search failed: " +:+ e) m in
      set_messageType "error" m
  | None =>
      let m := set_packages packages m in
      let m := set_fromCache fromCache m in
      let m := set_cursor 0 m in
      let m := set_selected ∅ m in
      if slice_len packages =? 0 then
        let m := set_message "No packages found" m in
        set_messageType "info" m
      else set_message "" m
  end.

Definition cmd_list (c : option Cmd) : list Cmd :=
  match c with
  | Some c => [c]
  | None => []
  end.

Section WithProbe.

Variable checkInstalled : Packages.Manager -> string -> bool.

(** The tail of [Update]: in the search view the text input processes the
    message, and a changed value starts a debounced search. *)
Definition updateSearchInput (o : Oracle) (m : Model) (cmds : list Cmd)
    : Model * list Cmd :=
  match viewState m with
  | ViewSearch =>
      if negb (showHelp m) && negb (installing m) then
        let oldValue := searchInput m in
        let m := set_searchInput (inputValue o) m in
        let newValue := searchInput m in
        let cmds := if inputHasCmd o then cmds ++ [inputCmd] else cmds in
        if negb (newValue =? oldValue)%string then
          let m := set_lastQuery newValue m in
          let '(m, searchCmd) := debounceSearch m in
          (m, cmds ++ cmd_list searchCmd)
        else (m, cmds)
      else (m, cmds)
  | _ => (m, cmds)
  end.

Definition Update (o : Oracle) (m : Model) (msg : Msg) : result (Model * list Cmd) :=
  match msg with
  | WindowSizeMsg w h =>
      let m := set_width w m in
      let m := set_height h m in
      Ok (updateSearchInput o m [])
  | Key k =>
      match viewState m with
      | ViewSearch =>
          if showHelp m then Ok (set_showHelp false m, [])
          else
            do (m, cmd) <- handleSearchKeys o m k;
            Ok (updateSearchInput o m (cmd_list cmd))
      | ViewOptions =>
          do (m, cmd) <- handleOptionsKeys o m k;
          Ok (updateSearchInput o m (cmd_list cmd))
      | ViewCommands =>
          let '(m, cmd) := handleCommandsKeys m k in
          Ok (updateSearchInput o m (cmd_list cmd))
      | ViewInstalling =>
          (* No key handling during installation *)
          Ok (updateSearchInput o m [])
      | ViewHelp => Ok (updateSearchInput o m [])
      end
  | searchResultsMsg packages fromCache err =>
      Ok (updateSearchInput o (handleSearchResults m packages fromCache err) [])
  | installProgressMsg message done =>
      let m := set_installMessage message m in
      let m :=
        if done then
          let m := set_viewState ViewSearch m in
          let m := set_installing false m in
          let m := set_message "Installation completed successfully!" m in
          let m := set_messageType "success" m in
          (* Clear selected packages *)
          let m := set_selected ∅ m in
          (* Refresh installed status *)
          let '(pm, packages) :=
            Packages.MarkInstalledPackages checkInstalled (pkgManager m) (packages m) in
          let m := set_pkgManager pm m in
          set_packages packages m
        else m in
      Ok (updateSearchInput o m [])
  | installErrorMsg err =>
      let m := set_viewState ViewSearch m in
      let m := set_installing false m in
      let m := set_message ("Installation failed: " +:+ err) m in
      let m := set_messageType "error" m in
      Ok (updateSearchInput o m [])
  | spinnerTickMsg => Ok (updateSearchInput o m [spinnerCmd])
  | otherMsg => Ok (updateSearchInput o m [])
  end.

End WithProbe.

(** [New]: the session starts in the search view with nothing selected. *)
Definition New (pm : Packages.Manager) : Model :=
  mkModel ViewSearch "" [] 0 ∅ "" "" false false "" false false "" false []
    80 24 false false [] false pm [].

(** A [range] over a map visits each of its keys once, in some order. *)
Definition range_order (selected : gmap Z bool) (order : list Z) : Prop :=
  order ≡ₚ (map_to_list selected).*1.

Definition oracle_ok (m : Model) (o : Oracle) : Prop :=
  range_order (selected m) (rangeOrder1 o)
  /\ range_order (<[cursor m := true]> (selected m)) (rangeOrder2 o).

(** The states of a session: those [Update] leads to from [New]. *)
Inductive reachable (checkInstalled : Packages.Manager -> string -> bool)
    : Model -> Prop :=
| reachable_New pm : reachable checkInstalled (New pm)
| reachable_Update m o msg m' cmds :
    reachable checkInstalled m ->
    oracle_ok m o ->
    Update checkInstalled o m msg = Ok (m', cmds) ->
    reachable checkInstalled m'.

(** The cursor is a valid position: never negative, and inside the result
    list when there is one. *)
Definition cursor_ok (m : Model) : Prop :=
  0 <= cursor m /\ (packages m <> [] -> cursor m < slice_len (packages m)).

(** The selection set holds no negative index, and only indices into the
    result list while that list is not empty. *)
Definition selected_ok (m : Model) : Prop :=
  forall idx, is_Some (selected m !! idx) ->
    0 <= idx /\ (packages m <> [] -> idx < slice_len (packages m)).

(** The part of the state the two invariants read is the same in [m']. *)
Definition same_view (m m' : Model) : Prop :=
  packages m' = packages m /\ cursor m' = cursor m /\ selected m' = selected m.

(** [m'] has the cursor and the selection of [m], and its result list or
    none. *)
Definition cleared_or_same (m m' : Model) : Prop :=
  cursor m' = cursor m /\ selected m' = selected m
  /\ (packages m' = packages m \/ packages m' = []).

(** What [getSelectedPackages] collects at an index: the package there when
    the index is selected and lies inside the result list. *)
Definition selected_at (m : Model) (idx : Z) : option Package :=
  if isSelected (selected m) idx && (0 <=? idx) && (idx <? slice_len (packages m))
  then packages m !! Z.to_nat idx
  else None.

(** A run of the session: the messages in turn, each with what the outside
    decides during its [Update]. *)
Fixpoint run (checkInstalled : Packages.Manager -> string -> bool)
    (m : Model) (steps : list (Oracle * Msg)) : result Model :=
  match steps with
  | [] => Ok m
  | (o, msg) :: rest =>
      do (m, _) <- Update checkInstalled o m msg;
      run checkInstalled m rest
  end.

(** The same run, checking that each oracle orders the keys of the
    selection as a [range] can. *)
Fixpoint run_ok (checkInstalled : Packages.Manager -> string -> bool)
    (m : Model) (steps : list (Oracle * Msg)) : Prop :=
  match steps with
  | [] => True
  | (o, msg) :: rest =>
      oracle_ok m o
      /\ match Update checkInstalled o m msg with
         | Ok (m', _) => run_ok checkInstalled m' rest
         | Panic => False
         end
  end.

(** A session for the examples: the user types a letter, the two sample
    packages arrive, the first is selected and the cursor moves down. *)
Definition sample_checkInstalled (pm : Packages.Manager) (importPath : string)
    : bool := false.

Definition sample_oracle (value : string) (order1 order2 : list Z) : Oracle :=
  mkOracle value false order1 order2 None.

Definition sample_session : list (Oracle * Msg) :=
  [ (sample_oracle "c" [] [0], Key (mkKeyMsg KeyRunes [rune_of "c"] "c"));
    (sample_oracle "c" [] [0], searchResultsMsg sample_packages false None);
    (sample_oracle "c" [] [0], Key (mkKeyMsg KeyTab [] "tab"));
    (sample_oracle "c" [0] [0], Key (mkKeyMsg KeyDown [] "down")) ].

(** What the user may do next: escape, delete the letter, or confirm and
    ask for the command. *)
Definition sample_escape : Oracle * Msg :=
  (sample_oracle "" [0] [0; 1], Key (mkKeyMsg KeyEsc [] "esc")).

Definition sample_backspace : Oracle * Msg :=
  (sample_oracle "" [0] [0; 1], Key (mkKeyMsg KeyOther [] "backspace")).

Definition sample_enter : Oracle * Msg :=
  (sample_oracle "c" [0] [0; 1], Key (mkKeyMsg KeyEnter [] "enter")).

Definition sample_generate : Oracle * Msg :=
  (sample_oracle "c" [0] [0; 1], Key (mkKeyMsg KeyRunes [rune_of "g"] "g")).

(** The state the sample session reaches when it goes on with [extra]. *)
Definition sample_state (extra : list (Oracle * Msg)) : Model :=
  match run sample_checkInstalled (New (Packages.New "")) (sample_session ++ extra) with
  | Ok m => m
  | Panic => New (Packages.New "")
  end.

(** *** What the views compute *)

(** The loop [for i := start; i < end; i++] of [getVisibleItems], which
    runs [end - start] times when [start] is below [end] and not at all
    otherwise. *)
Fixpoint count_from (i : Z) (n : nat) : list Z :=
  match n with
  | O => []
  | S n' => i :: count_from (i + 1) n'
  end.

(** [getVisibleItems]: the indices of the result list that are shown.  An
    [int] has 64 bits; [make] panics on a negative capacity. *)
Definition getVisibleItems (m : Model) : result (list Z) :=
  let start := 0 in
  let end_ := slice_len (packages m) in
  let maxVisible := Z.quot (GoTime.wrap64 (height m - 15)) 4 in
  let maxVisible := if maxVisible <? 1 then 1 else maxVisible in
  let '(start, end_) :=
    if maxVisible <? GoTime.wrap64 (end_ - start) then
      let start := GoTime.wrap64 (cursor m - Z.quot maxVisible 2) in
      let start := if start <? 0 then 0 else start in
      let end_ := GoTime.wrap64 (start + maxVisible) in
      if slice_len (packages m) <? end_ then
        let end_ := slice_len (packages m) in
        let start := GoTime.wrap64 (end_ - maxVisible) in
        let start := if start <? 0 then 0 else start in
        (start, end_)
      else (start, end_)
    else (start, end_) in
  if GoTime.wrap64 (end_ - start) <? 0 then Panic
  else Ok (count_from start (Z.to_nat (end_ - start))).

(** [text[:n]]: a bound below 0 or above the length panics. *)
Fixpoint take_bytes (n : nat) (s : string) : string :=
  match n, s with
  | S n', String a t => String a (take_bytes n' t)
  | _, _ => ""
  end.

Definition slice_to (text : string) (n : Z) : result string :=
  if (n <? 0) || (GoString.len text <? n) then Panic
  else Ok (take_bytes (Z.to_nat n) text).

Definition TruncateText (text : string) (maxWidth : Z) : result string :=
  if GoString.len text <=? maxWidth then Ok text
  else if maxWidth <=? 3 then slice_to text maxWidth
  else
    do head <- slice_to text (maxWidth - 3);
    Ok (head +:+ "...").

(** *** What [main] reads when the session is over *)

Definition ShouldPrintCommands (m : Model) : bool := quitWithCommands m.
Definition GetCommandsToPrint (m : Model) : list string := commandsToPrint m.
Definition ShouldAutoRun (m : Model) : bool := autoRun m.

(** *** The search a debounced command runs *)

Section WithServices.

Variable sha256_hex : string -> string.
Variable filepath_Join : string -> string -> string.
Variable json_MarshalIndent : CacheEntry -> option string.
Variable json_Unmarshal : string -> option CacheEntry.
Variable TrimSpace : string -> string.
Variable QueryEscape : string -> string.
Variable client_Get : nat -> string -> Scraper.Reply.
Variable checkInstalled : Packages.Manager -> string -> bool.
(** [err.Error()] of a failed search. *)
Variable Error_ : Scraper.search_error -> string.
(** The cache directory is shared, without a lock, with the other searches
    the session has started and not waited for: what they do to it while
    this search is on the network, and while its packages are marked. *)
Variable others1 others2 : FS -> FS.

(** [performSearch(query)()]: the collaborators are the manager as the
    marking finds it, the cache directory as the first look finds it and
    the network; the clock reads [now1] at the first look at the cache,
    [now2] at the second and [now3] when the results are stored. *)
Definition performSearch (c : Cache) (s : Scraper.Scraper) (now1 now2 now3 : Z)
    (query : string) (pm : Packages.Manager) (fs : FS) (w : Scraper.World)
    : Packages.Manager * FS * Scraper.World * Msg :=
  let '(fs, cached) :=
    Cache.Get sha256_hex filepath_Join json_Unmarshal c now1 query fs in
  match cached with
  | Some cached =>
      let '(pm, packages) :=
        Packages.MarkInstalledPackages checkInstalled pm (Results cached) in
      (pm, fs, w, searchResultsMsg packages true None)
  | None =>
      let '(w, res) := Scraper.Search TrimSpace QueryEscape client_Get s query w in
      let fs := others1 fs in
      match res with
      | inr err =>
          let '(fs, cached) :=
            Cache.Get sha256_hex filepath_Join json_Unmarshal c now2 query fs in
          match cached with
          | Some cached =>
              let '(pm, packages) :=
                Packages.MarkInstalledPackages checkInstalled pm (Results cached) in
              (pm, fs, w, searchResultsMsg packages false None)
          | None => (pm, fs, w, searchResultsMsg [] false (Some (Error_ err)))
          end
      | inl packages =>
          let '(pm, packages) :=
            Packages.MarkInstalledPackages checkInstalled pm packages in
          let fs := others2 fs in
          let '(fs, _) :=
            Cache.Set_ sha256_hex filepath_Join json_MarshalIndent c now3 query
              packages fs in
          (pm, fs, w, searchResultsMsg packages false None)
      end
  end.

End WithServices.

(** *** Further invariants of a session *)

(** The views a session shows, and the fields no message sets. *)
Definition views_ok (m : Model) : Prop :=
  (viewState m = ViewSearch \/ viewState m = ViewOptions)
  /\ installing m = false /\ commands m = [] /\ firstRun m = false.

(** What the session leaves for [main]: one [go get] command once it has
    been asked for, and nothing before. *)
Definition quit_ok (m : Model) : Prop :=
  if quitWithCommands m
  then exists command,
         commandsToPrint m = [command]
         /\ GoString.HasPrefix command "go get " = true
  else commandsToPrint m = [] /\ autoRun m = false.

(** The sample session once the selection is confirmed and the command
    asked for, with [g] or with [d]. *)
Definition sample_download : Oracle * Msg :=
  (sample_oracle "c" [0] [0; 1], Key (mkKeyMsg KeyRunes [rune_of "d"] "d")).

Definition sample_resize : Oracle * Msg :=
  (sample_oracle "c" [0] [0; 1], WindowSizeMsg 80 19).

(** The sample session goes on with ctrl+a, which selects both packages. *)
Definition sample_select_all : Oracle * Msg :=
  (sample_oracle "c" [0] [0; 1], Key (mkKeyMsg KeyCtrlA [] "ctrl+a")).

(** A result page with the two sample packages, a server that returns it,
    and a machine on which viper is installed. *)
Definition sample_search_doc : Scraper.Document :=
  Scraper.mkDocument
    [ Scraper.mkSelection
        (Some (Scraper.mkLink (Some "/github.com/spf13/cobra") "cobra")) None
        [Some "A Commander for modern Go CLI interactions"] (Some "v1.8.0");
      Scraper.mkSelection
        (Some (Scraper.mkLink (Some "/github.com/spf13/viper") "viper")) None
        [None; Some "Go configuration with fangs"] None ]
    [] [].

Definition sample_search_Get (n : nat) (url : string) : Scraper.Reply :=
  Scraper.Response 200 (Scraper.Html sample_search_doc).

Definition sample_probe (pm : Packages.Manager) (importPath : string) : bool :=
  (importPath =? "github.com/spf13/viper")%string.

End Tui.

(** ** Typing into the terminal (internal/term/term.go) *)

Module Term.

Inductive inject_error : Type :=
| ErrOpenTTY        (* "unable to open /dev/tty: ..." *)
| ErrInjectInput    (* "failed to inject input: ..." *)
| ErrInjectEnter.   (* "failed to inject enter: ..." *)

Definition newline : string := String "010" "".

Section WithTTY.

(** Whether [/dev/tty] opens, and whether the [n]-th [ioctl] of the call
    succeeds. *)
Variable tty_opens : bool.
Variable ioctl_ok : nat -> bool.

(** The loop over the bytes of [command]; [typed] is what the terminal has
    received so far. *)
Fixpoint inject_loop (command : string) (typed : string)
    : string * option inject_error :=
  match command with
  | "" => (typed, None)
  | String b rest =>
      if ioctl_ok (String.length typed)
      then inject_loop rest (typed +:+ String b "")
      else (typed, Some ErrInjectInput)
  end.

Definition InjectCommandToTTY (command : string) (pressEnter : bool)
    : string * option inject_error :=
  if negb tty_opens then ("", Some ErrOpenTTY)
  else
    let '(typed, err) := inject_loop command "" in
    match err with
    | Some err => (typed, Some err)
    | None =>
        if pressEnter then
          if ioctl_ok (String.length typed)
          then (typed +:+ newline, None)
          else (typed, Some ErrInjectEnter)
        else (typed, None)
    end.

End WithTTY.

End Term.

(** ** The end of [main] (main.go, the version that types the command into
    the terminal) *)

Module Main.

Section WithTTY.

Variable tty_opens : bool.
Variable ioctl_ok : nat -> bool.

(** What [main] does with the final model: the bytes typed into the
    terminal and the lines printed. *)
Definition finish (m : Tui.Model) : string * list string :=
  if Tui.ShouldPrintCommands m then
    let commands := Tui.GetCommandsToPrint m in
    let fullCmd := GoString.Join commands " && " in
    let '(typed, err) :=
      Term.InjectCommandToTTY tty_opens ioctl_ok fullCmd (Tui.ShouldAutoRun m) in
    match err with
    | Some _ => (typed, [fullCmd])
    | None => (typed, [])
    end
  else ("", []).

End WithTTY.

End Main.

(** * Properties *)

(** ** Facts on byte strings *)

Module StringFacts.

Lemma str_app_nil_l (t : string) : "" +:+ t = t.
Proof. reflexivity. Qed.

Lemma str_app_cons (a : ascii) (s t : string) : String a s +:+ t = String a (s +:+ t).
Proof. reflexivity. Qed.

Lemma str_app_nil_r (s : string) : s +:+ "" = s.
Proof. induction s as [|a s IH]; [reflexivity|]. rewrite str_app_cons, IH. reflexivity. Qed.

Lemma str_app_assoc (s t u : string) : (s +:+ t) +:+ u = s +:+ (t +:+ u).
Proof. induction s as [|a s IH]; [reflexivity|]. rewrite !str_app_cons, IH. reflexivity. Qed.

Lemma str_app_length (s t : string) :
  String.length (s +:+ t) = (String.length s + String.length t)%nat.
Proof. induction s as [|a s IH]; [reflexivity|]. rewrite str_app_cons. simpl. lia. Qed.

Lemma length_zero (s : string) : String.length s = 0%nat -> s = "".
Proof. destruct s; [reflexivity | discriminate]. Qed.

Lemma prefix_app (p s : string) :
  String.prefix p s = true <-> exists post, s = p +:+ post.
Proof.
  revert s. induction p as [|a p IH]; intros s.
  - destruct s; simpl; split; eauto.
  - destruct s as [|b s]; simpl.
    + split; [discriminate | intros [post H]; discriminate].
    + destruct (ascii_dec a b) as [->|Hne].
      * rewrite IH. split; intros [post H]; exists post.
        -- rewrite str_app_cons. congruence.
        -- rewrite str_app_cons in H. congruence.
      * split; [discriminate|]. intros [post H]. rewrite str_app_cons in H. congruence.
Qed.

Lemma slice_to_last_snoc (s : string) :
  s <> "" -> exists a, s = GoString.slice_to_last s +:+ String a "".
Proof.
  induction s as [|a [|b t] IH]; intros Hs; [congruence | |].
  - exists a. reflexivity.
  - destruct IH as [c Hc]; [congruence|]. exists c.
    change (GoString.slice_to_last (String a (String b t)))
      with (String a (GoString.slice_to_last (String b t))).
    rewrite str_app_cons, <- Hc. reflexivity.
Qed.

Lemma slice_to_last_app (s t : string) :
  t <> "" -> GoString.slice_to_last (s +:+ t) = s +:+ GoString.slice_to_last t.
Proof.
  intros Ht. induction s as [|a s IH]; [reflexivity|].
  rewrite !str_app_cons. simpl. rewrite IH.
  destruct (s +:+ t) eqn:E; [|reflexivity].
  apply (f_equal String.length) in E. rewrite str_app_length in E.
  destruct t; [congruence|]. simpl in E. lia.
Qed.

End StringFacts.

(** ** Facts on the stand-in documents and on strings under encoding/json *)

Module StandinFacts.
Import Standin StringFacts.

Lemma dec_enc_string s rest :
  dec_string (enc_string s +:+ rest) = Some (s, rest).
Proof.
  unfold dec_string. induction s as [|a s IH]; [reflexivity|].
  cbn [enc_string]. rewrite str_app_assoc. unfold enc_byte.
  destruct (Ascii.eqb_spec a "\") as [->|Hb].
  { change (dec_string_from false
              (String "\" (String "\" (enc_string s +:+ rest)))
            = Some (String "\" s, rest)).
    simpl. rewrite IH. reflexivity. }
  destruct (Ascii.eqb_spec a ";") as [->|Hs].
  { change (dec_string_from false
              (String "\" (String "s" (enc_string s +:+ rest)))
            = Some (String ";" s, rest)).
    simpl. rewrite IH. reflexivity. }
  destruct (Ascii.eqb_spec a "010") as [->|Hn].
  { change (dec_string_from false
              (String "\" (String "n" (enc_string s +:+ rest)))
            = Some (String "010" s, rest)).
    simpl. rewrite IH. reflexivity. }
  rewrite str_app_cons, str_app_nil_l. cbn [dec_string_from].
  destruct (Ascii.eqb_spec a ";") as [?|_]; [contradiction|].
  destruct (Ascii.eqb_spec a "\") as [?|_]; [contradiction|].
  rewrite IH. reflexivity.
Qed.

Lemma dec_enc_positive p rest :
  dec_positive (enc_positive p +:+ rest) = Some (p, rest).
Proof.
  induction p as [p IH|p IH|]; cbn [enc_positive]; rewrite ?str_app_cons;
    cbn; rewrite ?IH; reflexivity.
Qed.

Lemma dec_enc_Z z rest : dec_Z (enc_Z z +:+ rest) = Some (z, rest).
Proof.
  destruct z as [|p|p]; cbn [enc_Z]; rewrite str_app_cons; cbn;
    rewrite ?dec_enc_positive; reflexivity.
Qed.

Lemma dec_enc_bool b rest : dec_bool (enc_bool b +:+ rest) = Some (b, rest).
Proof. destruct b; reflexivity. Qed.

Lemma has_byte_app b s t :
  GoString.has_byte b (s +:+ t) = GoString.has_byte b s || GoString.has_byte b t.
Proof.
  induction s as [|a s IH]; [reflexivity|].
  rewrite str_app_cons. cbn [GoString.has_byte]. rewrite IH, orb_assoc.
  reflexivity.
Qed.

Lemma enc_string_one_line s : GoString.has_byte "010" (enc_string s) = false.
Proof.
  induction s as [|a s IH]; [reflexivity|].
  cbn [enc_string]. rewrite has_byte_app, IH, orb_false_r. unfold enc_byte.
  destruct (Ascii.eqb_spec a "\"); [reflexivity|].
  destruct (Ascii.eqb_spec a ";"); [reflexivity|].
  destruct (Ascii.eqb_spec a "010") as [|Hn]; [reflexivity|].
  cbn [GoString.has_byte]. rewrite orb_false_r.
  apply Ascii.eqb_neq, Hn.
Qed.

Lemma enc_positive_one_line p : GoString.has_byte "010" (enc_positive p) = false.
Proof. induction p as [p IH|p IH|]; cbn; rewrite ?IH; reflexivity. Qed.

Lemma enc_Z_one_line z : GoString.has_byte "010" (enc_Z z) = false.
Proof. destruct z; cbn; rewrite ?enc_positive_one_line; reflexivity. Qed.

Lemma enc_string_end s : exists body, enc_string s = body +:+ String ";" "".
Proof.
  induction s as [|a s [body IH]]; [exists ""; reflexivity|].
  exists (enc_byte a +:+ body). cbn [enc_string].
  rewrite IH, str_app_assoc. reflexivity.
Qed.

Lemma dropCR_snoc s a :
  a <> "013"%char -> GoString.dropCR (s +:+ String a "") = s +:+ String a "".
Proof.
  intros Ha. induction s as [|b s IH].
  - change (GoString.dropCR (String a "") = String a "").
    cbn [GoString.dropCR].
    destruct (Ascii.eqb_spec a "013"); [contradiction|reflexivity].
  - rewrite str_app_cons. cbn [GoString.dropCR]. rewrite IH.
    destruct (s +:+ String a "") eqn:E; [|reflexivity].
    destruct s; discriminate.
Qed.

(** ASCII text is valid UTF-8. *)
Lemma ascii_utf8_valid s :
  (forall a, GoString.has_byte a s = true -> GoJSON.in_range 0 127 a = true) ->
  GoJSON.utf8_valid s.
Proof.
  unfold GoJSON.utf8_valid, GoJSON.json_string.
  induction s as [|a s IH]; intros H; [reflexivity|].
  cbn [GoJSON.json_string_from]. unfold GoJSON.rune_width.
  rewrite (H a) by (cbn; rewrite Ascii.eqb_refl; reflexivity).
  cbn [Nat.sub]. f_equal. apply IH. intros b Hb. apply H. cbn.
  rewrite Hb. apply orb_true_r.
Qed.

End StandinFacts.

(** ** Properties of the activity log *)

Module HistoryProps.
Import History StringFacts StandinFacts.

Lemma contains_unfold s substr :
  contains s substr =
  (0 <? GoString.len substr) && (GoString.len substr <=? GoString.len s) &&
  ((s =? substr)%string || contains (GoString.slice_from_1 s) substr
   || contains (GoString.slice_to_last s) substr).
Proof.
  rewrite contains_equation_1.
  assert (forall x, contains_unfold_clause_1 s substr x =
            proj1_sig x && ((s =? substr)%string
              || contains (GoString.slice_from_1 s) substr
              || contains (GoString.slice_to_last s) substr)) as Hx.
  { intros [[|] Hx]; simp contains; reflexivity. }
  rewrite Hx. reflexivity.
Qed.

Lemma contains_empty_substr s : contains s "" = false.
Proof. rewrite contains_unfold. reflexivity. Qed.

Lemma linear_scan_spec s substr :
  linear_scan s substr = true <-> substring_of substr s.
Proof.
  induction s as [|a s IH]; cbn [linear_scan]; rewrite orb_true_iff, prefix_app.
  - split.
    + intros [[post H]|H]; [|discriminate]. exists "", post. exact H.
    + intros (pre & post & H). left. destruct pre; [eauto|discriminate].
  - rewrite IH. split.
    + intros [[post H]|(pre & post & H)].
      * exists "", post. exact H.
      * exists (String a pre), post. rewrite str_app_cons. congruence.
    + intros (pre & post & H). destruct pre as [|b pre].
      * left. exists post. exact H.
      * right. rewrite str_app_cons in H. exists pre, post. congruence.
Qed.

Lemma contains_spec_bounded (n : nat) : forall s substr,
  (String.length s <= n)%nat -> substr <> "" ->
  (contains s substr = true <-> substring_of substr s).
Proof.
  induction n as [|n IH]; intros s substr Hn Hsub; rewrite contains_unfold;
    unfold GoString.len.
  - assert (s = "") as -> by (apply length_zero; lia).
    destruct substr as [|b substr]; [congruence|]. simpl. split; [discriminate|].
    intros (pre & post & H). destruct pre; discriminate.
  - rewrite !andb_true_iff, !orb_true_iff, Z.ltb_lt, Z.leb_le, String.eqb_eq.
    split.
    + intros [[Hpos Hle] Hcases].
      assert (s <> "") as Hs.
      { intros ->. simpl in Hle. lia. }
      destruct Hcases as [[Heq|Htl]|Hin].
      * exists "", "". rewrite str_app_nil_l, str_app_nil_r. exact Heq.
      * apply IH in Htl; [|destruct s; simpl in *; [congruence|lia]|exact Hsub].
        destruct Htl as (pre & post & H). destruct s as [|a s]; [congruence|].
        simpl in H. exists (String a pre), post. rewrite str_app_cons. congruence.
      * pose proof (GoString.slice_to_last_length s Hs) as Hlen.
        apply IH in Hin; [|lia|exact Hsub].
        destruct Hin as (pre & post & H).
        destruct (slice_to_last_snoc s Hs) as [c Hc].
        exists pre, (post +:+ String c ""). rewrite Hc at 1. rewrite H.
        rewrite !str_app_assoc. reflexivity.
    + intros (pre & post & H).
      assert (String.length s =
              (String.length pre + String.length substr + String.length post)%nat)
        as Hlen.
      { rewrite H, !str_app_length. lia. }
      assert (0 < String.length substr)%nat as Hpos.
      { destruct substr; [congruence|simpl; lia]. }
      split; [lia|].
      destruct pre as [|a pre].
      * destruct post as [|c post].
        -- left; left. rewrite H, str_app_nil_l, str_app_nil_r. reflexivity.
        -- right. apply IH; [|exact Hsub|].
           ++ pose proof (GoString.slice_to_last_length s) as Hl.
              assert (s <> "") as Hs by (intros ->; simpl in Hlen; lia).
              specialize (Hl Hs). lia.
           ++ exists "", (GoString.slice_to_last (String c post)).
              rewrite H, str_app_nil_l, str_app_nil_l. apply slice_to_last_app. congruence.
      * left; right. rewrite H, str_app_cons. simpl.
        apply IH; [|exact Hsub|exists pre, post; reflexivity].
        simpl in Hlen. rewrite !str_app_length. lia.
Qed.

Lemma contains_spec s substr :
  substr <> "" -> (contains s substr = true <-> substring_of substr s).
Proof. intros H. apply (contains_spec_bounded (String.length s)); [lia | exact H]. Qed.

Lemma contains_linear_scan s substr :
  contains s substr = negb (substr =? "")%string && linear_scan s substr.
Proof.
  destruct (String.eqb_spec substr "") as [->|Hne]; simpl.
  - apply contains_empty_substr.
  - apply eq_true_iff_eq. rewrite contains_spec, linear_scan_spec; tauto.
Qed.

Lemma Search_loop_filter (f : Entry -> bool) query entries matches :
  (forall e, contains (Package e) query || contains (ImportPath e) query = f e) ->
  Search_loop query entries matches = matches ++ List.filter f entries.
Proof.
  intros Hf. revert matches. induction entries as [|e entries IH]; intros matches; simpl.
  - rewrite app_nil_r. reflexivity.
  - rewrite Hf. destruct (f e); rewrite IH; [rewrite <- app_assoc|]; reflexivity.
Qed.


Lemma readLines_error json_Unmarshal lines : forall read err,
  readLines json_Unmarshal lines read = inr err <->
  err = ErrRead
  /\ exists line, line ∈ lines /\ MaxScanTokenSize <= GoString.len line.
Proof.
  induction lines as [|raw rest IH]; intros read err; cbn [readLines].
  - split; [discriminate|]. intros (_ & line & H & _). inversion H.
  - destruct (Z.leb_spec MaxScanTokenSize (GoString.len raw)) as [Hlong|Hshort].
    + split.
      * intros [= <-]. split; [reflexivity|]. exists raw. split; [left|exact Hlong].
      * intros (-> & _). reflexivity.
    + assert (forall read',
                readLines json_Unmarshal rest read' = inr err <->
                err = ErrRead
                /\ exists line, line ∈ raw :: rest
                                /\ MaxScanTokenSize <= GoString.len line) as Hrest.
      { intros read'. rewrite IH. split; intros (-> & line & Hin & Hlen).
        - split; [reflexivity|]. exists line. split; [right; exact Hin|exact Hlen].
        - split; [reflexivity|]. exists line. split; [|exact Hlen].
          apply elem_of_cons in Hin as [->|Hin]; [lia|exact Hin]. }
      destruct (GoString.len (GoString.dropCR raw) =? 0); [apply Hrest|].
      destruct (json_Unmarshal (GoString.dropCR raw)); apply Hrest.
Qed.

(** When the log cannot be read: the file cannot be opened, or one of its
    lines is too long for the scanner. *)
Lemma readEntries_error json_Unmarshal st err :
  readEntries json_Unmarshal st = inr err <->
  (st = NoAccess /\ err = ErrOpen)
  \/ (err = ErrRead
      /\ exists lines line, st = Lines lines /\ line ∈ lines
                            /\ MaxScanTokenSize <= GoString.len line).
Proof.
  destruct st as [| |lines]; cbn [readEntries].
  - split; [discriminate|]. intros [[[=] _]|(_ & ls & l & [=] & _)].
  - split.
    + intros [= <-]. left. auto.
    + intros [[_ ->]|(_ & ls & l & [=] & _)]. reflexivity.
  - rewrite readLines_error. split.
    + intros (-> & line & Hin & Hlen). right. split; [reflexivity|]. eauto.
    + intros [[[=] _]|(-> & ls & l & [= <-] & Hin & Hlen)]. eauto.
Qed.

Lemma sample_encoding_json : encoding_json sample_MarshalLine sample_UnmarshalLine.
Proof.
  intros e line [= <-]. split.
  - split; [discriminate|]. split.
    + cbn [GoString.has_byte]. rewrite !has_byte_app.
      rewrite enc_Z_one_line, !enc_string_one_line. reflexivity.
    + destruct (enc_string_end (GoJSON.json_string (Action e))) as [body ->].
      rewrite <- !str_app_assoc, <- str_app_cons.
      apply dropCR_snoc. discriminate.
  - cbn [sample_UnmarshalLine].
    rewrite dec_enc_Z, !dec_enc_string.
    pose proof (dec_enc_string (GoJSON.json_string (Action e)) "") as H.
    rewrite str_app_nil_r in H. rewrite H. reflexivity.
Qed.

(** C4, as amended: when the log can be read, [History.Search] returns, in
    log order, exactly the entries whose package name or import path
    contains the query as a contiguous run of bytes (bytes compared exactly,
    so case matters) when the query is not empty; the recursive helper
    [contains] agrees with the linear scan, and with the standard
    containment predicate, on every string and every non-empty query.  For
    the empty query [contains] is false and [Search] returns no entry.  When
    the log cannot be read, which is when the file cannot be opened or holds
    a line of 64 KiB or more, [Search] returns the error and no entry. *)
Theorem Search_is_substring_scan
    (json_Unmarshal : string -> option Entry) (query : string) (st : Store) :
  (forall s, contains s query = negb (query =? "")%string && linear_scan s query)
  /\ (forall s, linear_scan s query = true <-> substring_of query s)
  /\ Search json_Unmarshal query st =
       match readEntries json_Unmarshal st with
       | inr err => inr err
       | inl entries =>
           inl (if (query =? "")%string then []
                else Search_by_scan query entries)
       end
  /\ (forall err, readEntries json_Unmarshal st = inr err <->
        (st = NoAccess /\ err = ErrOpen)
        \/ (err = ErrRead
            /\ exists lines line, st = Lines lines /\ line ∈ lines
                                  /\ MaxScanTokenSize <= GoString.len line)).
Proof.
  split; [intros s; apply contains_linear_scan|].
  split; [intros s; apply linear_scan_spec|].
  split; [|intros err; apply readEntries_error].
  unfold Search, Search_by_scan.
  destruct (readEntries json_Unmarshal st) as [entries|err]; [|reflexivity].
  f_equal.
  destruct (String.eqb_spec query "") as [->|Hne].
  - rewrite (Search_loop_filter (fun _ => false)).
    + simpl. induction entries; auto.
    + intros e. rewrite !contains_empty_substr. reflexivity.
  - rewrite (Search_loop_filter
      (fun e => linear_scan (Package e) query || linear_scan (ImportPath e) query));
      [reflexivity|].
    intros e. rewrite !contains_linear_scan.
    destruct (String.eqb_spec query "") as [->|_]; [congruence|reflexivity].
Qed.

(** C4, as stated, fails at the empty query: every string contains the
    empty string, yet [contains] answers false and [Search] returns nothing
    where the linear scan returns every entry. *)
Lemma Search_empty_query_counterexample :
  let cobra := mkEntry 0 "cobra" "github.com/spf13/cobra" ActionViewed in
  let viper := mkEntry 0 "viper" "github.com/spf13/viper" ActionViewed in
  let st := sample_log [cobra; viper] in
  readEntries sample_UnmarshalLine st = inl [cobra; viper]
  /\ contains "cobra" "" = false
  /\ substring_of "" "cobra"
  /\ Search sample_UnmarshalLine "" st = inl []
  /\ Search_by_scan "" [cobra; viper] = [cobra; viper].
Proof.
  repeat split; try (vm_compute; reflexivity).
  exists "", "cobra". reflexivity.
Qed.


Section Dedup.

Variable json_Unmarshal : string -> option Entry.

Lemma Since_lt_Hour (now t : Z) :
  (GoTime.Since now t <? GoTime.Hour) = true <-> now - t < GoTime.Hour.
Proof.
  rewrite Z.ltb_lt.
  unfold GoTime.Since, GoTime.Sub, GoTime.min_int64, GoTime.max_int64,
    GoTime.Hour, GoTime.Second.
  change (2 ^ 63) with 9223372036854775808. lia.
Qed.

Lemma isDuplicate_from_spec now name path action entries :
  isDuplicate_from now name path action entries = true <->
  exists e, e ∈ entries /\ recent_match now name path action e.
Proof.
  unfold recent_match. induction entries as [|e entries IH]; simpl.
  - split; [discriminate|]. intros (e & He & _). inversion He.
  - destruct (String.eqb_spec (Package e) name) as [Hn|Hn];
    destruct (String.eqb_spec (ImportPath e) path) as [Hp|Hp];
    destruct (String.eqb_spec (Action e) action) as [Ha|Ha]; simpl;
    try (rewrite IH; split;
         [ intros (e' & He' & H); exists e'; split; [right; exact He'|exact H]
         | intros (e' & He' & H); inversion He'; subst;
           [ tauto | exists e'; tauto ] ]).
    destruct (GoTime.Since now (Timestamp e) <? GoTime.Hour) eqn:Hs.
    + apply Since_lt_Hour in Hs. split; [|reflexivity].
      intros _. exists e. split; [left|tauto].
    + rewrite IH. split.
      * intros (e' & He' & H). exists e'. split; [right; exact He'|exact H].
      * intros (e' & He' & H). inversion He'; subst; [|exists e'; tauto].
        destruct H as (_ & _ & _ & H). apply Since_lt_Hour in H. congruence.
Qed.

Lemma isDuplicate_spec now name path action st :
  isDuplicate json_Unmarshal now name path action st = true <->
  exists entries (i : nat) e,
    readEntries json_Unmarshal st = inl entries
    /\ entries !! i = Some e
    /\ Z.of_nat (length entries) - 10 <= Z.of_nat i
    /\ recent_match now name path action e.
Proof.
  unfold isDuplicate.
  destruct (readEntries json_Unmarshal st) as [entries|err].
  2:{ split; [discriminate|]. intros (? & ? & ? & [=] & _). }
  rewrite isDuplicate_from_spec.
  set (start := Z.of_nat (length entries) - 10).
  assert (Z.to_nat (if start <? 0 then 0 else start) = Z.to_nat start) as ->.
  { destruct (Z.ltb_spec start 0); lia. }
  split.
  - intros (e & He & Hm). apply list_elem_of_lookup in He as [j Hj].
    rewrite lookup_drop in Hj. exists entries, (Z.to_nat start + j)%nat, e.
    split; [reflexivity|]. split; [exact Hj|]. split; [lia|exact Hm].
  - intros (entries' & i & e & [= <-] & Hi & Hge & Hm). exists e.
    split; [|exact Hm].
    apply list_elem_of_lookup. exists (i - Z.to_nat start)%nat.
    rewrite lookup_drop.
    replace (Z.to_nat start + (i - Z.to_nat start))%nat with i by lia.
    exact Hi.
Qed.

Lemma readLines_app lines : forall extra read,
  readLines json_Unmarshal (lines ++ extra) read
  = match readLines json_Unmarshal lines read with
    | inl entries => readLines json_Unmarshal extra entries
    | inr err => inr err
    end.
Proof.
  induction lines as [|l lines IH]; intros extra read; [reflexivity|].
  cbn [app readLines].
  destruct (MaxScanTokenSize <=? GoString.len l); [reflexivity|].
  destruct (GoString.len (GoString.dropCR l) =? 0); [apply IH|].
  destruct (json_Unmarshal (GoString.dropCR l)); apply IH.
Qed.

Variable json_Marshal : Entry -> option string.

Lemma Add_duplicate_noop h now name path action st :
  isDuplicate json_Unmarshal now name path action st = true ->
  Add json_Marshal json_Unmarshal h now name path action st = Ok (st, None).
Proof. intros H. unfold Add. rewrite H. reflexivity. Qed.

(** On a log that cannot be read, [Add] returns the error and writes
    nothing. *)
Lemma Add_unreadable h now name path action st err :
  readEntries json_Unmarshal st = inr err ->
  Add json_Marshal json_Unmarshal h now name path action st = Ok (st, Some err).
Proof. intros H. unfold Add, isDuplicate. rewrite H. reflexivity. Qed.

Lemma readLines_survivor line e read :
  json_Marshal e = Some line -> line <> "" -> GoString.dropCR line = line ->
  fits line -> json_Unmarshal line = Some e ->
  readLines json_Unmarshal [line] read = inl (read ++ [e]).
Proof.
  intros _ Hne Hcr Hfit Hdec. cbn [readLines]. unfold fits in Hfit.
  destruct (Z.leb_spec MaxScanTokenSize (GoString.len line)) as [?|_]; [lia|].
  rewrite Hcr.
  assert ((GoString.len line =? 0) = false) as ->.
  { unfold GoString.len. destruct line; [congruence|reflexivity]. }
  rewrite Hdec. reflexivity.
Qed.

Lemma read_write_lines entries : forall written read,
  (forall e, e ∈ entries -> survives json_Marshal json_Unmarshal e) ->
  readLines json_Unmarshal (writeLines json_Marshal entries written) read
  = match readLines json_Unmarshal written read with
    | inl r => inl (r ++ entries)
    | inr err => inr err
    end.
Proof.
  induction entries as [|e entries IH]; intros written read Hs; cbn [writeLines].
  - destruct (readLines json_Unmarshal written read); [|reflexivity].
    rewrite app_nil_r. reflexivity.
  - destruct (Hs e) as (line & Henc & Hne & Hcr & Hfit & Hdec); [left|].
    rewrite Henc, IH by (intros e' He'; apply Hs; right; exact He').
    rewrite readLines_app.
    destruct (readLines json_Unmarshal written read) as [r|err]; [|reflexivity].
    rewrite (readLines_survivor line e r Henc Hne Hcr Hfit Hdec).
    rewrite <- app_assoc. reflexivity.
Qed.

(** Under [encoding/json] an entry with valid UTF-8 strings whose line the
    scanner can hold survives the log. *)
Lemma law_survives e line :
  encoding_json json_Marshal json_Unmarshal ->
  entry_valid e -> json_Marshal e = Some line -> fits line ->
  survives json_Marshal json_Unmarshal e.
Proof.
  intros Hjson (Hp & Hi & Ha) Henc Hfit.
  destruct (Hjson e line Henc) as ((Hne & _ & Hcr) & Hdec).
  exists line. repeat split; try assumption.
  rewrite Hdec. unfold json_image.
  unfold GoJSON.utf8_valid in *. rewrite Hp, Hi, Ha. destruct e. reflexivity.
Qed.

(** What [Add] writes when the duplicate check finds nothing on a log that
    can be read: the entries, the new one last, cut to the bound. *)
Lemma Add_writes h now name path action st entries :
  0 <= maxEntries h ->
  readEntries json_Unmarshal st = inl entries ->
  isDuplicate json_Unmarshal now name path action st = false ->
  Add json_Marshal json_Unmarshal h now name path action st
  = Ok (Lines (writeLines json_Marshal
                 (last_n (maxEntries h)
                    (entries ++ [mkEntry now name path action])) []), None).
Proof.
  intros Hmax Hread Hnodup. unfold Add. rewrite Hnodup, Hread.
  set (all := entries ++ [mkEntry now name path action]).
  unfold last_n, writeEntries.
  destruct (Z.ltb_spec (maxEntries h) (Z.of_nat (length all))) as [Hlt|Hge].
  - destruct (Z.leb_spec 0 (Z.of_nat (length all) - maxEntries h)); [|lia].
    destruct (Z.leb_spec (Z.of_nat (length all) - maxEntries h)
                (Z.of_nat (length all))); [|lia].
    cbn [andb bind].
    replace (Z.to_nat (Z.of_nat (length all) - maxEntries h))
      with (length all - Z.to_nat (maxEntries h))%nat by lia.
    reflexivity.
  - cbn [bind].
    replace (length all - Z.to_nat (maxEntries h))%nat with 0%nat by lia.
    reflexivity.
Qed.



End Dedup.




End HistoryProps.

(** ** Properties of the result cache *)

Module CacheProps.
Import Cache StringFacts StandinFacts.

Section RoundTrip.

Variable sha256_hex : string -> string.
Variable filepath_Join : string -> string -> string.
Variable json_MarshalIndent : CacheEntry -> option string.
Variable json_Unmarshal : string -> option CacheEntry.

Let Get := Get sha256_hex filepath_Join json_Unmarshal.
Let Set_ := Set_ sha256_hex filepath_Join json_MarshalIndent.
Let path (c : Cache) (query : string) : string :=
  filepath_Join (dir c) (getFilename sha256_hex query).

(** After a successful [Set] the target holds the encoding of the entry and
    the temporary file is gone. *)
Lemma Set_writes_target c now query packages fs fs' :
  Set_ c now query packages fs = (fs', None) ->
  exists data,
    json_MarshalIndent (mkCacheEntry query packages now) = Some data
    /\ fs' !! path c query = Some data
    /\ fs' !! (path c query +:+ ".tmp") = None.
Proof.
  unfold Set_, Cache.Set_, path.
  destruct (json_MarshalIndent _) as [data|]; [|discriminate].
  intros [= <-]. exists data. split; [reflexivity|].
  set (p := filepath_Join _ _).
  assert (p <> p +:+ ".tmp") as Hne.
  { intros H. apply (f_equal String.length) in H. revert H.
    clear. induction p as [|a p IH]; simpl; [discriminate|intros [= H]; auto]. }
  split; [apply lookup_insert_eq|].
  rewrite lookup_insert_ne by exact Hne. apply lookup_delete_eq.
Qed.

Lemma Get_fresh c now query fs data entry :
  fs !! path c query = Some data ->
  json_Unmarshal data = Some entry ->
  isExpired c now (Timestamp entry) = false ->
  Get c now query fs = (fs, Some entry).
Proof.
  intros Hfs Hdec Hexp. unfold Get, Cache.Get. fold (path c query).
  rewrite Hfs, Hdec, Hexp. reflexivity.
Qed.

Lemma Get_expired c now query fs data entry :
  fs !! path c query = Some data ->
  json_Unmarshal data = Some entry ->
  isExpired c now (Timestamp entry) = true ->
  Get c now query fs = (delete (path c query) fs, None).
Proof.
  intros Hfs Hdec Hexp. unfold Get, Cache.Get. fold (path c query).
  rewrite Hfs, Hdec, Hexp. reflexivity.
Qed.

End RoundTrip.



(** For a TTL between 0 days and 106751 days (some 292 years) the product
    stays inside 64 bits. *)
Lemma ttl_days c :
  0 <= ttlDays c <= 106751 -> ttl c = ttlDays c * 24 * GoTime.Hour.
Proof.
  intros H. unfold ttl, GoTime.wrap64, GoTime.Hour, GoTime.Second.
  change (2 ^ 63) with 9223372036854775808.
  change (2 ^ 64) with 18446744073709551616.
  rewrite (Z.mod_small (ttlDays c * 24 + _)) by lia.
  replace (ttlDays c * 24 + 9223372036854775808 - 9223372036854775808)
    with (ttlDays c * 24) by lia.
  rewrite Z.mod_small by lia. lia.
Qed.

(** The stand-in documents read back as [encoding/json] has them. *)
Lemma standin_read_count_spec n rest :
  standin_read_count (standin_count n +:+ rest) = Some (n, rest).
Proof.
  induction n as [|n IH]; [reflexivity|].
  cbn [standin_count]. rewrite str_app_cons. cbn [standin_read_count].
  rewrite IH. reflexivity.
Qed.

Lemma standin_read_package_spec pkg rest :
  standin_read_package (standin_package pkg +:+ rest)
  = Some (json_package pkg, rest).
Proof.
  unfold standin_package, standin_read_package.
  rewrite !str_app_assoc, !dec_enc_string, dec_enc_bool. reflexivity.
Qed.

Lemma standin_read_packages_spec packages :
  standin_read_packages (length packages) (standin_packages packages)
  = Some (json_package <$> packages).
Proof.
  induction packages as [|pkg rest IH]; [reflexivity|].
  cbn [length standin_packages standin_read_packages].
  rewrite standin_read_package_spec, IH. reflexivity.
Qed.

Lemma standin_encoding_json :
  encoding_json standin_MarshalIndent standin_Unmarshal.
Proof.
  intros e data [= <-]. cbn [standin_Unmarshal].
  rewrite dec_enc_string, dec_enc_Z, standin_read_count_spec,
    standin_read_packages_spec.
  reflexivity.
Qed.

(** Packages with valid UTF-8 strings pass through [encoding/json]
    unchanged. *)
Lemma json_package_valid pkg : package_valid pkg -> json_package pkg = pkg.
Proof.
  intros (Hn & Hi & Hd & Hv). unfold json_package, GoJSON.utf8_valid in *.
  rewrite Hn, Hi, Hd, Hv. destruct pkg; reflexivity.
Qed.

Lemma json_packages_valid packages :
  Forall package_valid packages -> json_package <$> packages = packages.
Proof.
  induction 1 as [|pkg rest Hpkg _ IH]; [reflexivity|].
  cbn [fmap list_fmap]. rewrite json_package_valid by exact Hpkg.
  f_equal. exact IH.
Qed.

(** C2, as amended: when [Set(Q, R)] at time [now] returns no error, a
    [Get(Q)] at time [now'], with the TTL greater than the time elapsed
    between the two, finds the entry.  Its results are the packages of R as
    [encoding/json] leaves them, element for element and in order: as many
    as in R, each with its flag unchanged and with its strings unchanged
    when they are valid UTF-8, while every byte that is not part of a valid
    UTF-8 sequence has become U+FFFD.  So the results equal R when all the
    strings of R are valid UTF-8, and not for every R.  The query of the
    entry is Q treated the same way and its timestamp is [now].  The TTL is
    [ttlDays] days as long as that fits 64 bits of nanoseconds. *)
Theorem Set_then_Get_round_trip
    (sha256_hex : string -> string)
    (filepath_Join : string -> string -> string)
    (json_MarshalIndent : CacheEntry -> option string)
    (json_Unmarshal : string -> option CacheEntry)
    (c : Cache) (now now' : Z) (Q : string) (R : list Package) (fs fs' : FS)
    (Hjson : encoding_json json_MarshalIndent json_Unmarshal)
    (Hset : Set_ sha256_hex filepath_Join json_MarshalIndent c now Q R fs
            = (fs', None))
    (Httl : GoTime.Since now' now < ttl c) :
  exists entry,
    Get sha256_hex filepath_Join json_Unmarshal c now' Q fs' = (fs', Some entry)
    /\ Results entry = json_package <$> R
    /\ length (Results entry) = length R
    /\ (forall i pkg, R !! i = Some pkg ->
          Results entry !! i = Some (json_package pkg)
          /\ (package_valid pkg -> Results entry !! i = Some pkg))
    /\ (Forall package_valid R -> Results entry = R)
    /\ Query entry = GoJSON.json_string Q
    /\ Timestamp entry = now
    /\ (0 <= ttlDays c <= 106751 -> ttl c = ttlDays c * 24 * GoTime.Hour).
Proof.
  destruct (Set_writes_target _ _ _ _ _ _ _ _ _ Hset) as (data & Henc & Hfs & _).
  exists (json_entry (mkCacheEntry Q R now)). split.
  { eapply Get_fresh; [exact Hfs | apply Hjson, Henc |].
    unfold isExpired. simpl. apply Z.ltb_ge. lia. }
  cbn [json_entry Results Query Timestamp].
  split; [reflexivity|]. split; [apply length_fmap|].
  split.
  { intros i pkg Hi. rewrite list_lookup_fmap, Hi. split; [reflexivity|].
    intros Hvalid. cbn. rewrite json_package_valid by exact Hvalid.
    reflexivity. }
  split; [apply json_packages_valid|].
  repeat split; auto using ttl_days.
Qed.

(** C2 on the sample entry: stored at nanosecond 5 with a TTL of 7 days and
    read back one second later. *)
Lemma Set_then_Get_round_trip_witness :
  let c := mkCache "cache" 7 in
  let data :=
    match standin_MarshalIndent (mkCacheEntry "spf13" sample_packages 5) with
    | Some data => data
    | None => ""
    end in
  let fs' : FS := {[ "cache/spf13.json" := data ]} in
  (encoding_json standin_MarshalIndent standin_Unmarshal
   /\ Set_ id sample_Join standin_MarshalIndent c 5 "spf13" sample_packages ∅
      = (fs', None)
   /\ GoTime.Since (5 + GoTime.Second) 5 < ttl c)
  /\ Forall package_valid sample_packages
  /\ exists entry,
      Get id sample_Join standin_Unmarshal c (5 + GoTime.Second) "spf13" fs'
      = (fs', Some entry)
      /\ Results entry = sample_packages
      /\ Query entry = "spf13"
      /\ Timestamp entry = 5.
Proof.
  intros c data fs'.
  assert (Set_ id sample_Join standin_MarshalIndent c 5 "spf13" sample_packages ∅
          = (fs', None)) as Hset.
  { vm_compute. reflexivity. }
  assert (GoTime.Since (5 + GoTime.Second) 5 < ttl c) as Httl.
  { vm_compute. reflexivity. }
  assert (Forall package_valid sample_packages) as Hvalid.
  { repeat constructor; vm_compute; reflexivity. }
  split; [auto using standin_encoding_json|]. split; [exact Hvalid|].
  destruct (Set_then_Get_round_trip id sample_Join standin_MarshalIndent
              standin_Unmarshal c 5 (5 + GoTime.Second) "spf13" sample_packages
              ∅ fs' standin_encoding_json Hset Httl)
    as (entry & Hget & _ & _ & _ & Hsame & Hquery & Htime & _).
  exists entry. split; [exact Hget|]. split; [exact (Hsame Hvalid)|].
  split; [exact Hquery|exact Htime].
Defined.

(** C2, as stated, fails for a package whose name is not valid UTF-8: the
    package named by the single byte 0xFF, stored at nanosecond 5 with a
    TTL of 7 days and read back one second later, comes back named U+FFFD
    (the bytes EF BF BD). *)
Lemma Set_then_Get_round_trip_counterexample :
  let c := mkCache "cache" 7 in
  let R := [sample_bad_package] in
  let data :=
    match standin_MarshalIndent (mkCacheEntry "bad" R 5) with
    | Some data => data
    | None => ""
    end in
  let fs' : FS := {[ "cache/bad.json" := data ]} in
  let back := mkPackage GoJSON.replacement "example.com/bad" "" "" false in
  Set_ id sample_Join standin_MarshalIndent c 5 "bad" R ∅ = (fs', None)
  /\ GoTime.Since (5 + GoTime.Second) 5 < ttl c
  /\ Get id sample_Join standin_Unmarshal c (5 + GoTime.Second) "bad" fs'
     = (fs', Some (mkCacheEntry "bad" [back] 5))
  /\ [back] <> R.
Proof.
  vm_compute. split; [reflexivity|]. split; [reflexivity|].
  split; [reflexivity|discriminate].
Qed.





End CacheProps.

(** ** Properties of the install-command builder *)

Module PackagesProps.
Import Cache Packages.

Lemma GetInstallCommand_loop_spec packages pkgs :
  GetInstallCommand_loop packages pkgs
  = pkgs ++ map install_argument (not_installed packages).
Proof.
  revert pkgs. induction packages as [|pkg rest IH]; intros pkgs; simpl.
  - rewrite app_nil_r. reflexivity.
  - unfold install_argument at 1.
    destruct (Cache.IsInstalled pkg); simpl; [apply IH|].
    destruct (Version pkg =? "")%string; simpl;
      rewrite IH, <- app_assoc; reflexivity.
Qed.

Lemma not_installed_nil packages :
  not_installed packages = [] <->
  forall pkg, In pkg packages -> Cache.IsInstalled pkg = true.
Proof.
  unfold not_installed. induction packages as [|pkg rest IH]; simpl.
  - split; [intros _ pkg []|reflexivity].
  - destruct (Cache.IsInstalled pkg) eqn:E; simpl.
    + rewrite IH. split.
      * intros H p [<-|Hp]; auto.
      * intros H p Hp. apply H. right. exact Hp.
    + split; [discriminate|]. intros H. specialize (H pkg (or_introl eq_refl)).
      congruence.
Qed.

Lemma GetInstallCommand_eq packages :
  GetInstallCommand packages =
    match not_installed packages with
    | [] => ""
    | todo => "go get " +:+ GoString.Join (map install_argument todo) " "
    end.
Proof.
  unfold GetInstallCommand. rewrite GetInstallCommand_loop_spec. simpl.
  destruct (not_installed packages); reflexivity.
Qed.

Lemma GetInstallCommand_all_installed packages :
  GetInstallCommand packages = "" <->
  forall pkg, In pkg packages -> Cache.IsInstalled pkg = true.
Proof.
  rewrite <- not_installed_nil, GetInstallCommand_eq.
  destruct (not_installed packages); split; try reflexivity; discriminate.
Qed.


(** The four cases of the repository's test of [GetInstallCommand]. *)
Example GetInstallCommand_tests :
  GetInstallCommand [mkPackage "cobra" "github.com/spf13/cobra" "" "" false]
    = "go get github.com/spf13/cobra"
  /\ GetInstallCommand
       [mkPackage "cobra" "github.com/spf13/cobra" "" "" false;
        mkPackage "gin" "github.com/gin-gonic/gin" "" "v1.8.1" false]
    = "go get github.com/spf13/cobra github.com/gin-gonic/gin@v1.8.1"
  /\ GetInstallCommand
       [mkPackage "cobra" "github.com/spf13/cobra" "" "" false;
        mkPackage "viper" "github.com/spf13/viper" "" "" true]
    = "go get github.com/spf13/cobra"
  /\ GetInstallCommand [mkPackage "viper" "github.com/spf13/viper" "" "" true]
    = "".
Proof. repeat split; reflexivity. Qed.

End PackagesProps.

(** ** Properties of the retrying search *)

Module ScraperProps.
Import Cache Scraper.

Lemma requests_app w1 w2 : requests (w1 ++ w2) = (requests w1 + requests w2)%nat.
Proof.
  induction w1 as [|[d|u] w1 IH]; simpl; [reflexivity|exact IH|].
  rewrite IH. reflexivity.
Qed.

Lemma requests_schedule url n : requests (schedule url n) = n.
Proof.
  induction n as [|n IH]; [reflexivity|]. simpl.
  rewrite !requests_app, IH. destruct (0 <? Z.of_nat n); simpl; lia.
Qed.

(** In the range where the product does not leave 64 bits the sleep before
    attempt [k] is [2^(k-1)] seconds. *)
Lemma backoff_exponential k :
  1 <= k <= 34 -> backoff k = 2 ^ (k - 1) * GoTime.Second.
Proof.
  intros Hk. unfold backoff.
  destruct (Z.ltb_spec (k - 1) 64) as [_|?]; [|lia].
  assert (0 < 2 ^ (k - 1) <= 2 ^ 33) as Hpow.
  { split; [apply Z.pow_pos_nonneg; lia|apply Z.pow_le_mono_r; lia]. }
  change (2 ^ 33) with 8589934592 in Hpow.
  unfold GoTime.wrap64, GoTime.Second. change (2 ^ 63) with 9223372036854775808.
  change (2 ^ 64) with 18446744073709551616.
  rewrite (Z.mod_small (2 ^ (k - 1) + _)) by lia.
  replace (2 ^ (k - 1) + 9223372036854775808 - 9223372036854775808)
    with (2 ^ (k - 1)) by lia.
  rewrite Z.mod_small by lia. lia.
Qed.

Section Retry.

Variable TrimSpace : string -> string.
Variable QueryEscape : string -> string.
Variable client_Get : nat -> string -> Reply.

Lemma Search_attempts_spec url n : forall a,
  all_fail client_Get url a ->
  let '(w, doc, lastErr) :=
    Search_attempts client_Get url n (Z.of_nat a) (schedule url a) (last_failure client_Get url a) in
  (exists j d, (a <= j < a + n)%nat /\ all_fail client_Get url j
     /\ client_Get j url = Response StatusOK (Html d)
     /\ w = schedule url (S j) /\ doc = Some d)
  \/ (all_fail client_Get url (a + n) /\ w = schedule url (a + n) /\ doc = None
      /\ lastErr = last_failure client_Get url (a + n)).
Proof.
  induction n as [|n IH]; intros a Hfail; simpl.
  - right. rewrite Nat.add_0_r. auto.
  - set (w1 := if 0 <? Z.of_nat a then _ else _).
    assert (requests w1 = a) as Hreq.
    { unfold w1. destruct (0 <? Z.of_nat a); [rewrite requests_app; simpl|];
        rewrite requests_schedule; lia. }
    assert (w1 ++ [Request url] = schedule url (S a)) as Hw.
    { unfold w1. simpl. destruct (0 <? Z.of_nat a); [rewrite <- app_assoc|];
        reflexivity. }
    rewrite Hreq, Hw.
    replace (Z.of_nat a + 1) with (Z.of_nat (S a)) by lia.
    assert (failure (client_Get a url) <> None -> all_fail client_Get url (S a)) as Hstep.
    { intros Hf k Hk. destruct (decide (k = a)) as [->|Hne]; [exact Hf|].
      apply Hfail. lia. }
    assert (forall X, (let '(w, doc, lastErr) := X in
       (exists j d, (S a <= j < S a + n)%nat /\ all_fail client_Get url j
          /\ client_Get j url = Response StatusOK (Html d)
          /\ w = schedule url (S j) /\ doc = Some d)
       \/ (all_fail client_Get url (S a + n) /\ w = schedule url (S a + n) /\ doc = None
           /\ lastErr = last_failure client_Get url (S a + n))) ->
       let '(w, doc, lastErr) := X in
       (exists j d, (a <= j < a + S n)%nat /\ all_fail client_Get url j
          /\ client_Get j url = Response StatusOK (Html d)
          /\ w = schedule url (S j) /\ doc = Some d)
       \/ (all_fail client_Get url (a + S n) /\ w = schedule url (a + S n) /\ doc = None
           /\ lastErr = last_failure client_Get url (a + S n))) as Hshift.
    { intros [[w doc] lastErr] [(j & d & Hj & H)|H].
      - left. exists j, d. split; [lia|exact H].
      - right. replace (a + S n)%nat with (S a + n)%nat by lia. exact H. }
    destruct (client_Get a url) as [err|code body] eqn:Hreply.
    + apply Hshift.
      change (Some (ErrTransport err)) with (failure (TransportError err)).
      rewrite <- Hreply. apply (IH (S a)). apply Hstep. discriminate.
    + destruct (negb (code =? StatusOK)) eqn:Hcode.
      * apply Hshift.
        replace (Some (ErrStatus code)) with (failure (Response code body))
          by (simpl; rewrite Hcode; reflexivity).
        rewrite <- Hreply. apply (IH (S a)). apply Hstep.
        simpl. rewrite Hcode. discriminate.
      * apply negb_false_iff, Z.eqb_eq in Hcode. subst code.
        destruct body as [err|d].
        -- apply Hshift.
           change (Some (ErrParse err))
             with (failure (Response StatusOK (Unparsable err))).
           rewrite <- Hreply. apply (IH (S a)). apply Hstep. discriminate.
        -- left. exists a, d. repeat split; try lia; assumption.
Qed.

End Retry.


(** C3: [Search] on a non-empty query makes at most [maxRetries] attempts;
    attempt 0 is made at once and attempt [k >= 1] after a sleep of
    [2^(k-1)] seconds; an attempt fails on a transport error, on a status
    other than 200 and on a document that does not parse, and the first
    attempt that yields a document ends the loop, the results being those
    parsed from it.  When the first two attempts get a server error and the
    third a page with one record, [Search] returns that record after 3
    requests.  When every attempt fails the result is an error that carries
    the number of attempts and the last failure, and no package. *)
Theorem Search_retries
    (TrimSpace QueryEscape : string -> string)
    (client_Get : nat -> string -> Reply)
    (s : Scraper) (query : string)
    (Hquery : query <> "") :
  let url := searchURL QueryEscape s query in
  let '(w, res) := Search TrimSpace QueryEscape client_Get s query [] in
  let n := requests w in
  Z.of_nat n <= Z.max 0 (maxRetries s)
  /\ w = schedule url n
  /\ (forall k, 1 <= k <= 34 -> backoff k = 2 ^ (k - 1) * GoTime.Second)
  /\ (forall k, (S k < n)%nat -> failure (client_Get k url) <> None)
  /\ (forall reply, failure reply <> None <->
        (exists err, reply = TransportError err)
        \/ (exists code body, reply = Response code body /\ code <> StatusOK)
        \/ (exists err, reply = Response StatusOK (Unparsable err)))
  /\ match res with
     | inl pkgs =>
         exists doc, (0 < n)%nat
           /\ client_Get (n - 1)%nat url = Response StatusOK (Html doc)
           /\ pkgs = parseResults TrimSpace doc
     | inr e =>
         Z.of_nat n = Z.max 0 (maxRetries s)
         /\ (forall k, (k < n)%nat -> failure (client_Get k url) <> None)
         /\ e = ErrFetch (maxRetries s) (last_failure client_Get url n)
     end
  /\ (forall c0 b0 c1 b1 doc pkg,
        maxRetries s = 3 ->
        client_Get 0%nat url = Response c0 b0 -> 500 <= c0 <= 599 ->
        client_Get 1%nat url = Response c1 b1 -> 500 <= c1 <= 599 ->
        client_Get 2%nat url = Response StatusOK (Html doc) ->
        parseResults TrimSpace doc = [pkg] ->
        res = inl [pkg] /\ n = 3%nat).
Proof.
  intros url. unfold Search.
  destruct (String.eqb_spec query "") as [?|_]; [congruence|].
  fold url.
  pose proof (Search_attempts_spec client_Get url (Z.to_nat (maxRetries s)) 0) as Hloop.
  change (Z.of_nat 0) with 0 in Hloop.
  change (schedule url 0) with (@nil Event) in Hloop.
  change (last_failure client_Get url 0) with (@None AttemptError) in Hloop.
  specialize (Hloop ltac:(intros k Hk; lia)).
  destruct (Search_attempts _ _ _ _ _ _) as [[w doc] lastErr].
  assert (forall reply, failure reply <> None <->
        (exists err, reply = TransportError err)
        \/ (exists code body, reply = Response code body /\ code <> StatusOK)
        \/ (exists err, reply = Response StatusOK (Unparsable err))) as Hfailure.
  { intros [err|code body]; unfold failure.
    - split; [intros _; left; eauto|discriminate].
    - destruct (Z.eqb_spec code StatusOK) as [->|Hne]; cbn [negb].
      + destruct body as [err|d].
        * split; [intros _; right; right; eauto|discriminate].
        * split; [congruence|].
          intros [[e H]|[(c & b & H & Hne)|[e H]]];
            [discriminate|injection H; congruence|discriminate].
      + split; [|discriminate]. intros _. right. left. eauto. }
  destruct Hloop as [(j & d & Hj & Hfail & Hok & -> & ->)|(Hfail & -> & -> & ->)].
  - lazy beta iota zeta. rewrite requests_schedule.
    split; [lia|]. split; [reflexivity|]. split; [apply backoff_exponential|].
    split; [intros k Hk; apply Hfail; lia|]. split; [exact Hfailure|].
    split.
    + exists d. replace (S j - 1)%nat with j by lia. repeat split; [lia|exact Hok].
    + intros c0 b0 c1 b1 doc pkg Hmax H0 Hc0 H1 Hc1 H2 Hparse.
      assert (j = 2%nat) as ->.
      { rewrite Hmax in Hj. destruct j as [|[|[|j]]]; [| |reflexivity|simpl in Hj; lia].
        - rewrite H0 in Hok. injection Hok as Hc _. unfold StatusOK in Hc. lia.
        - rewrite H1 in Hok. injection Hok as Hc _. unfold StatusOK in Hc. lia. }
      rewrite H2 in Hok. injection Hok as ->. rewrite Hparse. auto.
  - lazy beta iota zeta. rewrite requests_schedule.
    change (0 + Z.to_nat (maxRetries s))%nat with (Z.to_nat (maxRetries s)) in *.
    split; [lia|]. split; [reflexivity|]. split; [apply backoff_exponential|].
    split; [intros k Hk; apply Hfail; lia|]. split; [exact Hfailure|].
    split.
    + split; [lia|]. split; [exact Hfail|reflexivity].
    + intros c0 b0 c1 b1 doc pkg Hmax H0 Hc0 H1 Hc1 H2 Hparse. exfalso.
      apply (Hfail 2%nat); [rewrite Hmax; simpl; lia|].
      fold url. rewrite H2. reflexivity.
Qed.

(** C3 on the server of the repository's retry test: two replies with
    status 500, then a page with one snippet. *)
Lemma Search_retries_witness :
  let s := mkScraper 3 "http://127.0.0.1" in
  "test" <> ""
  /\ Search id id sample_client_Get s "test" []
     = ([Request "http://127.0.0.1/search?q=test";
         Sleep (1 * GoTime.Second);
         Request "http://127.0.0.1/search?q=test";
         Sleep (2 * GoTime.Second);
         Request "http://127.0.0.1/search?q=test"],
        inl [mkPackage "pkg" "github.com/test/pkg" "" "" false])
  /\ requests (fst (Search id id sample_client_Get s "test" [])) = 3%nat.
Proof.
  intros s.
  assert ("test" <> "") as Hquery by discriminate.
  pose proof (Search_retries id id sample_client_Get s "test" Hquery) as H.
  split; [exact Hquery|].
  destruct (Search id id sample_client_Get s "test" []) as [w res] eqn:E.
  destruct H as (_ & Hw & _ & _ & _ & _ & Hscenario).
  destruct (Hscenario 500 (Html (mkDocument [] [] [])) 500 (Html (mkDocument [] [] []))
              sample_doc (mkPackage "pkg" "github.com/test/pkg" "" "" false))
    as [-> Hn]; try reflexivity; try lia.
  rewrite Hw, Hn. split; reflexivity.
Defined.

End ScraperProps.

(** ** Properties of the session state machine *)

Module TuiProps.
Import Cache Tui.

Lemma same_view_refl m : same_view m m.
Proof. repeat split. Qed.

Lemma cursor_ok_same m m' : same_view m m' -> cursor_ok m -> cursor_ok m'.
Proof. intros (Hp & Hc & _). unfold cursor_ok. rewrite Hp, Hc. auto. Qed.

Lemma selected_ok_same m m' : same_view m m' -> selected_ok m -> selected_ok m'.
Proof. intros (Hp & _ & Hs). unfold selected_ok. rewrite Hp, Hs. auto. Qed.

Lemma len_nil_iff {A} (l : list A) : slice_len l = 0 <-> l = [].
Proof. unfold slice_len. destruct l; simpl; split; intros; try congruence; lia. Qed.

Lemma len_pos_iff {A} (l : list A) : 0 < slice_len l <-> l <> [].
Proof. unfold slice_len. destruct l; simpl; split; intros; try congruence; lia. Qed.

(** *** The selected packages *)

Lemma index_in_range (l : list Package) idx :
  0 <= idx < slice_len l -> exists pkg, index l idx = Ok pkg /\ l !! Z.to_nat idx = Some pkg.
Proof.
  intros [H0 Hlt]. unfold index.
  destruct (Z.ltb_spec idx 0) as [?|_]; [lia|].
  destruct (l !! Z.to_nat idx) as [pkg|] eqn:E; [eauto|].
  apply lookup_ge_None in E. unfold slice_len in Hlt. lia.
Qed.

Lemma getSelectedPackages_loop_ok m order acc :
  (forall idx, is_Some (selected m !! idx) -> 0 <= idx) ->
  getSelectedPackages_loop m order acc = Ok (acc ++ omap (selected_at m) order).
Proof.
  intros Hkeys. revert acc. induction order as [|idx rest IH]; intros acc; simpl.
  - rewrite app_nil_r. reflexivity.
  - unfold selected_at at 1.
    destruct (isSelected (selected m) idx) eqn:Hsel; simpl; [|apply IH].
    assert (0 <= idx) as Hidx.
    { apply Hkeys. unfold isSelected in Hsel.
      destruct (selected m !! idx); [eauto|discriminate]. }
    destruct (Z.leb_spec 0 idx) as [_|?]; [|lia]. simpl.
    destruct (Z.ltb_spec idx (slice_len (packages m))) as [Hlt|_]; [|apply IH].
    destruct (index_in_range (packages m) idx) as (pkg & -> & ->); [lia|].
    simpl. rewrite IH, <- app_assoc. reflexivity.
Qed.

Lemma getSelectedPackages_ok m order :
  selected_ok m ->
  getSelectedPackages order m = Ok (omap (selected_at m) order).
Proof.
  intros Hsel. unfold getSelectedPackages.
  rewrite getSelectedPackages_loop_ok; [reflexivity|].
  intros idx H. apply Hsel, H.
Qed.

(** Indices at or past the end of the result list are skipped, whatever the
    state. *)
Lemma getSelectedPackages_loop_skip m order acc :
  getSelectedPackages_loop m order acc
  = getSelectedPackages_loop m
      (List.filter (fun idx => idx <? slice_len (packages m)) order) acc.
Proof.
  revert acc. induction order as [|idx rest IH]; intros acc; simpl; [reflexivity|].
  destruct (idx <? slice_len (packages m)) eqn:Hlt; simpl.
  - rewrite Hlt. destruct (isSelected (selected m) idx); simpl; [|apply IH].
    destruct (index (packages m) idx); simpl; [apply IH|reflexivity].
  - rewrite andb_false_r. apply IH.
Qed.

Lemma selected_at_no_packages m idx : packages m = [] -> selected_at m idx = None.
Proof.
  intros Hp. unfold selected_at. rewrite Hp. unfold slice_len.
  change (Z.of_nat (length (@nil Package))) with 0.
  destruct (isSelected (selected m) idx), (Z.leb_spec 0 idx), (Z.ltb_spec idx 0);
    simpl; try reflexivity; lia.
Qed.

Lemma getSelectedPackages_no_packages m order :
  selected_ok m -> packages m = [] -> getSelectedPackages order m = Ok [].
Proof.
  intros Hsel Hp. rewrite getSelectedPackages_ok by exact Hsel.
  f_equal. induction order as [|idx rest IH]; simpl; [reflexivity|].
  rewrite selected_at_no_packages by exact Hp. exact IH.
Qed.

(** *** The invariants *)

Lemma selectAll_lookup n : forall i sel idx,
  is_Some (selectAll n i sel !! idx) ->
  is_Some (sel !! idx) \/ i <= idx < i + Z.of_nat n.
Proof.
  induction n as [|n IH]; intros i sel idx H; simpl in H; [auto|].
  apply IH in H as [H|H]; [|right; lia].
  destruct (decide (i = idx)) as [->|Hne]; [right; lia|].
  rewrite lookup_insert_ne in H by exact Hne. auto.
Qed.

Lemma handleSearchKeys_cursor_ok o m k m' cmd :
  handleSearchKeys o m k = Ok (m', cmd) -> cursor_ok m -> cursor_ok m'.
Proof.
  unfold handleSearchKeys, cursor_ok. intros H [H0 Hlt].
  destruct (Type_ k).
  - injection H as <- _. auto.
  - destruct (searchInput m =? "")%string; injection H as <- _; simpl; auto.
    split; [lia|congruence].
  - destruct (_ && _) eqn:E; injection H as <- _; simpl; auto.
    apply andb_prop in E as [E1 E2]. apply Z.ltb_lt in E1, E2.
    apply len_pos_iff in E1. specialize (Hlt E1). split; [lia|intros _; lia].
  - destruct (_ && _) eqn:E; injection H as <- _; simpl; auto.
    apply andb_prop in E as [E1 E2]. apply Z.ltb_lt in E1, E2.
    split; [lia|intros _; lia].
  - destruct (_ && _); injection H as <- _; simpl; auto.
  - destruct (firstRun m); [injection H as <- _; simpl; auto|].
    destruct (getSelectedPackages (rangeOrder1 o) m) as [sel|]; [|discriminate].
    simpl in H.
    destruct (_ && _).
    + destruct (getSelectedPackages (rangeOrder2 o) _) as [sel2|]; [|discriminate].
      simpl in H. destruct (0 <? slice_len sel2); injection H as <- _; simpl; auto.
    + simpl in H. destruct (0 <? slice_len sel); injection H as <- _; simpl; auto.
  - injection H as <- _. simpl. auto.
  - injection H as <- _. auto.
  - injection H as <- _. unfold selectAllPackages.
    destruct (0 <? slice_len (packages m)); simpl; auto.
  - injection H as <- _. simpl. auto.
  - destruct (Runes k) as [|r [|]]; try (injection H as <- _; auto).
    repeat (match type of H with
            | (if ?c then _ else _) = _ => destruct c
            end; try (injection H as <- _; simpl; auto; fail)).
    + injection H as <- _. unfold selectAllPackages.
      destruct (0 <? slice_len (packages m)); simpl; auto.
    + destruct (cacheClearErr o); injection H as <- _; simpl; auto.
  - destruct (_ && _); injection H as <- _; simpl; auto.
Qed.


Lemma selected_ok_insert_cursor m b :
  cursor_ok m -> selected_ok m -> cursor m < slice_len (packages m) ->
  selected_ok (set_selected (<[cursor m := b]> (selected m)) m).
Proof.
  intros [H0 _] Hsel Hlt idx. unfold selected_ok. simpl.
  destruct (decide (cursor m = idx)) as [<-|Hne].
  - intros _. split; [exact H0|intros _; exact Hlt].
  - rewrite lookup_insert_ne by exact Hne. apply Hsel.
Qed.

Lemma selected_ok_selectAll m :
  selected_ok m -> selected_ok (selectAllPackages m).
Proof.
  intros Hsel. unfold selectAllPackages.
  destruct (0 <? slice_len (packages m)); [|exact Hsel].
  intros idx. simpl. intros H.
  apply selectAll_lookup in H as [H|H]; [apply Hsel, H|].
  unfold slice_len. split; [lia|intros _; lia].
Qed.

Lemma selected_ok_empty m : selected_ok (set_selected ∅ m).
Proof. intros idx. simpl. rewrite lookup_empty. intros [? [=]]. Qed.

Lemma selected_ok_no_packages m m' :
  selected m' = selected m -> packages m' = [] -> selected_ok m -> selected_ok m'.
Proof.
  intros Hs Hp Hsel idx. rewrite Hs, Hp. intros H.
  split; [apply Hsel, H|congruence].
Qed.

Lemma handleSearchKeys_selected_ok o m k m' cmd :
  handleSearchKeys o m k = Ok (m', cmd) ->
  cursor_ok m -> selected_ok m -> selected_ok m'.
Proof.
  unfold handleSearchKeys. intros H Hcur Hsel.
  destruct (Type_ k).
  - injection H as <- _. auto.
  - destruct (searchInput m =? "")%string; injection H as <- _; auto.
    apply (selected_ok_no_packages m); [reflexivity|reflexivity|exact Hsel].
  - destruct (_ && _); injection H as <- _; auto.
  - destruct (_ && _); injection H as <- _; auto.
  - destruct (_ && _) eqn:E; injection H as <- _; auto.
    apply andb_prop in E as [_ E2]. apply Z.ltb_lt in E2.
    apply selected_ok_insert_cursor; assumption.
  - destruct (firstRun m); [injection H as <- _; auto|].
    destruct (getSelectedPackages (rangeOrder1 o) m) as [sel|]; [|discriminate].
    simpl in H.
    destruct (_ && _) eqn:E.
    + apply andb_prop in E as [_ E2]. apply Z.ltb_lt in E2.
      pose proof (selected_ok_insert_cursor m true Hcur Hsel E2) as Hins.
      destruct (getSelectedPackages (rangeOrder2 o) _) as [sel2|]; [|discriminate].
      simpl in H. destruct (0 <? slice_len sel2); injection H as <- _; exact Hins.
    + simpl in H. destruct (0 <? slice_len sel); injection H as <- _; exact Hsel.
  - injection H as <- _. exact Hsel.
  - injection H as <- _. exact Hsel.
  - injection H as <- _. apply selected_ok_selectAll, Hsel.
  - injection H as <- _. apply selected_ok_empty.
  - destruct (Runes k) as [|r [|]]; try (injection H as <- _; auto).
    repeat (match type of H with
            | (if ?c then _ else _) = _ => destruct c
            end; try (injection H as <- _; auto; fail)).
    + injection H as <- _. apply selected_ok_selectAll, Hsel.
    + injection H as <- _. apply selected_ok_empty.
    + destruct (cacheClearErr o); injection H as <- _; exact Hsel.
  - destruct (_ && _); injection H as <- _; exact Hsel.
Qed.

(** With the selection in order, no handler panics. *)
Lemma handleSearchKeys_no_panic o m k :
  cursor_ok m -> selected_ok m -> exists r, handleSearchKeys o m k = Ok r.
Proof.
  intros Hcur Hsel. unfold handleSearchKeys.
  destruct (Type_ k); try (repeat case_match; eauto; fail).
  destruct (firstRun m); [eauto|].
  rewrite (getSelectedPackages_ok m) by exact Hsel. simpl.
  destruct (_ && _) eqn:E.
  - apply andb_prop in E as [_ E2]. apply Z.ltb_lt in E2.
    rewrite getSelectedPackages_ok
      by (apply selected_ok_insert_cursor; assumption).
    simpl. case_match; eauto.
  - simpl. case_match; eauto.
Qed.

Lemma handleOptionsKeys_same_view o m k m' cmd :
  handleOptionsKeys o m k = Ok (m', cmd) -> same_view m m'.
Proof.
  unfold handleOptionsKeys. intros H.
  destruct (Type_ k); try (injection H as <- _; repeat split; fail).
  repeat (match type of H with
          | (if ?c then _ else _) = _ => destruct c
          | bind ?r _ = _ => destruct r; [simpl in H|discriminate]
          end; try (injection H as <- _; repeat split; fail)).
Qed.

Lemma handleOptionsKeys_no_panic o m k :
  selected_ok m -> exists r, handleOptionsKeys o m k = Ok r.
Proof.
  intros Hsel. unfold handleOptionsKeys.
  destruct (Type_ k); eauto.
  rewrite !(getSelectedPackages_ok m) by exact Hsel. simpl.
  repeat case_match; eauto.
Qed.

Lemma handleCommandsKeys_same_view m k :
  same_view m (handleCommandsKeys m k).1.
Proof.
  unfold handleCommandsKeys. repeat case_match; repeat split.
Qed.

Lemma cursor_ok_cleared m m' : cleared_or_same m m' -> cursor_ok m -> cursor_ok m'.
Proof.
  intros (Hc & _ & [Hp|Hp]) [H0 Hlt]; unfold cursor_ok; rewrite Hc, Hp.
  - auto.
  - split; [exact H0|congruence].
Qed.

Lemma selected_ok_cleared m m' :
  cleared_or_same m m' -> selected_ok m -> selected_ok m'.
Proof.
  intros (_ & Hs & [Hp|Hp]) Hsel.
  - intros idx. rewrite Hs, Hp. apply Hsel.
  - eapply selected_ok_no_packages; eassumption.
Qed.

Lemma debounceSearch_cleared m : cleared_or_same m (debounceSearch m).1.
Proof.
  unfold debounceSearch, cleared_or_same. simpl.
  destruct (searchInput m =? "")%string; simpl; auto.
Qed.

Lemma updateSearchInput_cleared o m cmds :
  cleared_or_same m (updateSearchInput o m cmds).1.
Proof.
  unfold updateSearchInput.
  destruct (viewState m); try (repeat split; auto; fail).
  destruct (_ && _); [|repeat split; auto].
  cbv zeta. destruct (negb _); [|repeat split; auto].
  pose proof (debounceSearch_cleared
                (set_lastQuery (searchInput (set_searchInput (inputValue o) m))
                   (set_searchInput (inputValue o) m))) as H.
  destruct (debounceSearch _) as [m' c]. exact H.
Qed.

Lemma updateSearchInput_cursor_ok o m cmds :
  cursor_ok m -> cursor_ok (updateSearchInput o m cmds).1.
Proof. apply cursor_ok_cleared, updateSearchInput_cleared. Qed.

Lemma updateSearchInput_selected_ok o m cmds :
  selected_ok m -> selected_ok (updateSearchInput o m cmds).1.
Proof. apply selected_ok_cleared, updateSearchInput_cleared. Qed.

Lemma handleSearchResults_cursor_ok m packages fromCache err :
  cursor_ok m -> cursor_ok (handleSearchResults m packages fromCache err).
Proof.
  intros H. unfold handleSearchResults. destruct err as [e|]; [exact H|].
  destruct (slice_len packages =? 0) eqn:E; unfold cursor_ok; simpl;
    (split; [lia|intros Hne; apply len_pos_iff, Hne]).
Qed.

Lemma handleSearchResults_selected_ok m packages fromCache err :
  selected_ok m -> selected_ok (handleSearchResults m packages fromCache err).
Proof.
  intros H. unfold handleSearchResults. destruct err as [e|]; [exact H|].
  destruct (slice_len packages =? 0); intros idx; simpl; rewrite lookup_empty;
    intros [? [=]].
Qed.

Section WithProbe.

Variable checkInstalled : Packages.Manager -> string -> bool.

Lemma MarkInstalledPackages_length pm l :
  length (Packages.MarkInstalledPackages checkInstalled pm l).2 = length l.
Proof.
  revert pm. induction l as [|pkg rest IH]; intros pm; simpl; [reflexivity|].
  destruct (Packages.IsInstalled checkInstalled pm (ImportPath pkg)) as [pm1 b].
  specialize (IH pm1).
  destruct (Packages.MarkInstalledPackages checkInstalled pm1 rest) as [pm2 r].
  simpl in *. congruence.
Qed.

Lemma Update_cursor_ok o m msg m' cmds :
  Update checkInstalled o m msg = Ok (m', cmds) -> cursor_ok m -> cursor_ok m'.
Proof.
  intros H Hcur.
  assert (forall m0 cs, cursor_ok m0 -> Ok (updateSearchInput o m0 cs) = Ok (m', cmds)
            -> cursor_ok m') as Htail.
  { intros m0 cs H0 [= Heq].
    pose proof (updateSearchInput_cursor_ok o m0 cs H0) as X.
    rewrite Heq in X. exact X. }
  destruct msg as [w h|k|pkgs fc err|message done|err| |]; simpl in H;
    try (eapply Htail; [|exact H]; exact Hcur).
  - destruct (viewState m).
    + destruct (showHelp m); [injection H as <- _; exact Hcur|].
      destruct (handleSearchKeys o m k) as [[m1 c]|] eqn:E; [|discriminate].
      simpl in H. eapply Htail; [|exact H].
      eapply handleSearchKeys_cursor_ok; eassumption.
    + destruct (handleOptionsKeys o m k) as [[m1 c]|] eqn:E; [|discriminate].
      simpl in H. eapply Htail; [|exact H].
      eapply cursor_ok_same; [eapply handleOptionsKeys_same_view, E|exact Hcur].
    + eapply Htail; [|exact H]. exact Hcur.
    + pose proof (handleCommandsKeys_same_view m k) as Hv.
      destruct (handleCommandsKeys m k) as [m1 c].
      eapply Htail; [|exact H]. eapply cursor_ok_same; [exact Hv|exact Hcur].
    + eapply Htail; [|exact H]. exact Hcur.
  - eapply Htail; [|exact H]. apply handleSearchResults_cursor_ok, Hcur.
  - eapply Htail; [|exact H]. destruct done; [|exact Hcur].
    pose proof (MarkInstalledPackages_length (pkgManager m) (packages m)) as Hl.
    simpl. destruct (Packages.MarkInstalledPackages _ _ _) as [pm l].
    destruct Hcur as [H0 Hlt]. unfold cursor_ok, slice_len in *. simpl in *.
    split; [exact H0|]. intros Hne. rewrite Hl. apply Hlt.
    intros Hp. rewrite Hp in Hl. destruct l; [congruence|discriminate].
Qed.

Lemma Update_selected_ok o m msg m' cmds :
  Update checkInstalled o m msg = Ok (m', cmds) ->
  cursor_ok m -> selected_ok m -> selected_ok m'.
Proof.
  intros H Hcur Hsel.
  assert (forall m0 cs, selected_ok m0 -> Ok (updateSearchInput o m0 cs) = Ok (m', cmds)
            -> selected_ok m') as Htail.
  { intros m0 cs H0 [= Heq].
    pose proof (updateSearchInput_selected_ok o m0 cs H0) as X.
    rewrite Heq in X. exact X. }
  destruct msg as [w h|k|pkgs fc err|message done|err| |]; simpl in H;
    try (eapply Htail; [|exact H]; exact Hsel).
  - destruct (viewState m).
    + destruct (showHelp m); [injection H as <- _; exact Hsel|].
      destruct (handleSearchKeys o m k) as [[m1 c]|] eqn:E; [|discriminate].
      simpl in H. eapply Htail; [|exact H].
      eapply handleSearchKeys_selected_ok; eassumption.
    + destruct (handleOptionsKeys o m k) as [[m1 c]|] eqn:E; [|discriminate].
      simpl in H. eapply Htail; [|exact H].
      eapply selected_ok_same; [eapply handleOptionsKeys_same_view, E|exact Hsel].
    + eapply Htail; [|exact H]. exact Hsel.
    + pose proof (handleCommandsKeys_same_view m k) as Hv.
      destruct (handleCommandsKeys m k) as [m1 c].
      eapply Htail; [|exact H]. eapply selected_ok_same; [exact Hv|exact Hsel].
    + eapply Htail; [|exact H]. exact Hsel.
  - eapply Htail; [|exact H]. apply handleSearchResults_selected_ok, Hsel.
  - eapply Htail; [|exact H]. destruct done; [|exact Hsel].
    simpl. destruct (Packages.MarkInstalledPackages _ _ _) as [pm l].
    intros idx. simpl. rewrite lookup_empty. intros [? [=]].
Qed.

Lemma Update_no_panic o m msg :
  cursor_ok m -> selected_ok m -> exists r, Update checkInstalled o m msg = Ok r.
Proof.
  intros Hcur Hsel. destruct msg as [w h|k|pkgs fc err|message done|err| |];
    simpl; eauto.
  destruct (viewState m); eauto.
  - destruct (showHelp m); [eauto|].
    destruct (handleSearchKeys_no_panic o m k Hcur Hsel) as [[m1 c] ->].
    simpl. eauto.
  - destruct (handleOptionsKeys_no_panic o m k Hsel) as [[m1 c] ->].
    simpl. eauto.
  - destruct (handleCommandsKeys m k). eauto.
Qed.

Lemma New_ok pm : cursor_ok (New pm) /\ selected_ok (New pm).
Proof.
  split.
  - split; simpl; [lia|congruence].
  - intros idx. simpl. rewrite lookup_empty. intros [? [=]].
Qed.

Lemma reachable_ok m :
  reachable checkInstalled m -> cursor_ok m /\ selected_ok m.
Proof.
  induction 1 as [pm|m o msg m' cmds _ [IHc IHs] _ Hupd]; [apply New_ok|].
  split.
  - eapply Update_cursor_ok; eassumption.
  - eapply Update_selected_ok; eassumption.
Qed.

Lemma run_reachable steps : forall m m',
  reachable checkInstalled m ->
  run_ok checkInstalled m steps ->
  run checkInstalled m steps = Ok m' ->
  reachable checkInstalled m'.
Proof.
  induction steps as [|[o msg] rest IH]; intros m m' Hm Hok Hrun; simpl in *.
  - injection Hrun as <-. exact Hm.
  - destruct Hok as [Ho Hok].
    destruct (Update checkInstalled o m msg) as [[m1 cs]|] eqn:E; [|contradiction].
    simpl in Hrun. eapply IH; [|exact Hok|exact Hrun].
    eapply reachable_Update; eassumption.
Qed.

End WithProbe.


(** *** The sample session *)

Lemma sample_state_reachable (extra : list (Oracle * Msg)) :
  run_ok sample_checkInstalled (New (Packages.New "")) (sample_session ++ extra) ->
  reachable sample_checkInstalled (sample_state extra).
Proof.
  intros Hok. unfold sample_state.
  destruct (run sample_checkInstalled (New (Packages.New "")) (sample_session ++ extra))
    as [m|] eqn:E; [|apply reachable_New].
  eapply run_reachable; [apply reachable_New|exact Hok|exact E].
Qed.

(** The orders of the sample oracles are orders of the keys. *)
Ltac sample_run_ok :=
  vm_compute; repeat split; first [reflexivity | apply perm_swap].

Lemma sample_session_ok :
  run_ok sample_checkInstalled (New (Packages.New "")) (sample_session ++ []).
Proof. sample_run_ok. Qed.

Lemma sample_escape_ok :
  run_ok sample_checkInstalled (New (Packages.New ""))
    (sample_session ++ [sample_escape]).
Proof. sample_run_ok. Qed.

Lemma sample_backspace_ok :
  run_ok sample_checkInstalled (New (Packages.New ""))
    (sample_session ++ [sample_backspace]).
Proof. sample_run_ok. Qed.

Lemma sample_enter_ok :
  run_ok sample_checkInstalled (New (Packages.New ""))
    (sample_session ++ [sample_enter]).
Proof. sample_run_ok. Qed.

(** *** Selection, cursor and the command key *)

(** C1, as amended: in every state of a session the selection set holds no
    negative index and, while the result list is not empty, only valid
    indices into it.  The set is emptied when new search results arrive.
    Escape-clear and clearing the query to empty empty the result list and
    leave the selection set as it is; [getSelectedPackages] then ignores
    every index left in it and returns no package. *)
Theorem selection_valid_or_ignored
    (checkInstalled : Packages.Manager -> string -> bool) (m : Model)
    (Hreach : reachable checkInstalled m) :
  (forall idx, is_Some (selected m !! idx) ->
     0 <= idx /\ (packages m <> [] -> idx < slice_len (packages m)))
  /\ (forall packages fromCache,
        selected (handleSearchResults m packages fromCache None) = ∅)
  /\ (forall o k, Type_ k = KeyEsc -> searchInput m <> "" ->
        exists m', handleSearchKeys o m k = Ok (m', None)
          /\ packages m' = [] /\ selected m' = selected m
          /\ forall order, getSelectedPackages order m' = Ok [])
  /\ (searchInput m = "" ->
        let m' := (debounceSearch m).1 in
        packages m' = [] /\ selected m' = selected m
        /\ forall order, getSelectedPackages order m' = Ok []).
Proof.
  destruct (reachable_ok _ _ Hreach) as [Hcur Hsel].
  split; [exact Hsel|]. split; [|split].
  - intros packages fromCache. unfold handleSearchResults. simpl.
    destruct (slice_len packages =? 0); reflexivity.
  - intros o k Hk Hq. unfold handleSearchKeys. rewrite Hk.
    destruct (String.eqb_spec (searchInput m) "") as [?|_]; [congruence|].
    eexists. split; [reflexivity|]. split; [reflexivity|]. split; [reflexivity|].
    intros order. apply getSelectedPackages_no_packages; [|reflexivity].
    eapply selected_ok_no_packages; [| |exact Hsel]; reflexivity.
  - intros Hq. unfold debounceSearch. simpl. rewrite Hq. simpl.
    split; [reflexivity|]. split; [reflexivity|].
    intros order. apply getSelectedPackages_no_packages; [|reflexivity].
    eapply selected_ok_no_packages; [| |exact Hsel]; reflexivity.
Qed.

(** C1 at the state of the sample session: index 0 is selected among two
    results. *)
Lemma selection_valid_or_ignored_witness :
  let m := sample_state [] in
  reachable sample_checkInstalled m
  /\ selected m = {[ 0 := true ]}
  /\ slice_len (packages m) = 2
  /\ forall idx, is_Some (selected m !! idx) ->
       0 <= idx /\ (packages m <> [] -> idx < slice_len (packages m)).
Proof.
  intros m.
  assert (reachable sample_checkInstalled m) as Hreach
    by apply sample_state_reachable, sample_session_ok.
  split; [exact Hreach|]. split; [reflexivity|]. split; [reflexivity|].
  exact (proj1 (selection_valid_or_ignored sample_checkInstalled m Hreach)).
Defined.

(** C1, as stated, fails on escape-clear and on clearing the query: in the
    sample session index 0 is selected; after escape, and likewise after
    the query was deleted, the result list is empty and the selection set
    still holds index 0, which is no index into the empty list. *)
Lemma selection_not_reset_counterexample :
  let after_escape := sample_state [sample_escape] in
  let after_delete := sample_state [sample_backspace] in
  reachable sample_checkInstalled after_escape
  /\ packages after_escape = [] /\ selected after_escape = {[ 0 := true ]}
  /\ reachable sample_checkInstalled after_delete
  /\ packages after_delete = [] /\ selected after_delete = {[ 0 := true ]}
  /\ ~ (0 < slice_len (packages after_escape)).
Proof.
  intros after_escape after_delete.
  split; [apply sample_state_reachable, sample_escape_ok|].
  split; [reflexivity|]. split; [reflexivity|].
  split; [apply sample_state_reachable, sample_backspace_ok|].
  split; [reflexivity|]. split; [reflexivity|].
  vm_compute. discriminate.
Qed.


(** C9: in every state of a session [getSelectedPackages] returns without
    an out-of-bounds access, whatever the order in which the map is ranged
    over: it collects the package at each selected index inside the result
    list, and an index at or past the end of the list contributes nothing
    (in any state at all, such indices are skipped before the list is
    read), so the indices left over after the list shrank or was cleared
    are ignored. *)
Theorem getSelectedPackages_in_bounds
    (checkInstalled : Packages.Manager -> string -> bool) (m : Model)
    (order : list Z)
    (Hreach : reachable checkInstalled m) :
  getSelectedPackages order m = Ok (omap (selected_at m) order)
  /\ (forall idx, slice_len (packages m) <= idx -> selected_at m idx = None)
  /\ (forall idx pkg, selected_at m idx = Some pkg ->
        selected m !! idx = Some true /\ 0 <= idx < slice_len (packages m)
        /\ packages m !! Z.to_nat idx = Some pkg)
  /\ (forall (m0 : Model) (acc : list Package),
        getSelectedPackages_loop m0 order acc
        = getSelectedPackages_loop m0
            (List.filter (fun idx => idx <? slice_len (packages m0)) order) acc).
Proof.
  destruct (reachable_ok _ _ Hreach) as [_ Hsel].
  split; [apply getSelectedPackages_ok, Hsel|]. split; [|split].
  - intros idx Hge. unfold selected_at.
    destruct (Z.ltb_spec idx (slice_len (packages m))) as [?|_]; [lia|].
    rewrite andb_false_r. reflexivity.
  - intros idx pkg. unfold selected_at, isSelected.
    destruct (selected m !! idx) as [[|]|]; simpl; try discriminate.
    destruct (Z.leb_spec 0 idx); simpl; [|discriminate].
    destruct (Z.ltb_spec idx (slice_len (packages m))); [|discriminate].
    intros Hpkg. repeat split; auto.
  - intros m0 acc. apply getSelectedPackages_loop_skip.
Qed.

(** C9 after escape in the sample session: index 0 is still selected, the
    result list is empty, and no package is returned. *)
Lemma getSelectedPackages_in_bounds_witness :
  let m := sample_state [sample_escape] in
  reachable sample_checkInstalled m
  /\ selected m = {[ 0 := true ]} /\ packages m = []
  /\ getSelectedPackages [0] m = Ok [].
Proof.
  intros m.
  assert (reachable sample_checkInstalled m) as Hreach
    by apply sample_state_reachable, sample_escape_ok.
  split; [exact Hreach|]. split; [reflexivity|]. split; [reflexivity|].
  rewrite (proj1 (getSelectedPackages_in_bounds sample_checkInstalled m [0] Hreach)).
  reflexivity.
Defined.

(** C10, as amended: in every state of a session the cursor is at least 0
    and, when the result list is not empty, less than its length; every
    message keeps it so, and no [Update] panics.  Up and down move the
    cursor by one inside these bounds.  Escape-clear and the arrival of
    search results set the cursor to 0; clearing the query to empty empties
    the result list and leaves the cursor where it was. *)
Theorem cursor_in_bounds
    (checkInstalled : Packages.Manager -> string -> bool) (m : Model)
    (Hreach : reachable checkInstalled m) :
  (0 <= cursor m /\ (packages m <> [] -> cursor m < slice_len (packages m)))
  /\ (forall o msg, exists m' cmds,
        Update checkInstalled o m msg = Ok (m', cmds)
        /\ 0 <= cursor m'
        /\ (packages m' <> [] -> cursor m' < slice_len (packages m')))
  /\ (forall o k m' cmd, handleSearchKeys o m k = Ok (m', cmd) ->
        (Type_ k = KeyUp \/ Type_ k = KeyDown) ->
        packages m' = packages m /\ (cursor m - 1 <= cursor m' <= cursor m + 1))
  /\ (forall o k m' cmd, handleSearchKeys o m k = Ok (m', cmd) ->
        Type_ k = KeyEsc -> searchInput m <> "" ->
        packages m' = [] /\ cursor m' = 0)
  /\ (forall packages fromCache,
        cursor (handleSearchResults m packages fromCache None) = 0)
  /\ (searchInput m = "" ->
        packages (debounceSearch m).1 = []
        /\ cursor (debounceSearch m).1 = cursor m).
Proof.
  destruct (reachable_ok _ _ Hreach) as [Hcur Hsel].
  split; [exact Hcur|]. split; [|split; [|split; [|split]]].
  - intros o msg.
    destruct (Update_no_panic checkInstalled o m msg Hcur Hsel) as [[m' cmds] H].
    exists m', cmds. split; [exact H|].
    exact (Update_cursor_ok checkInstalled o m msg m' cmds H Hcur).
  - intros o k m' cmd H Hk. unfold handleSearchKeys in H.
    destruct Hk as [Hk|Hk]; rewrite Hk in H;
      destruct (_ && _); injection H as <- _; simpl; split; auto; lia.
  - intros o k m' cmd H Hk Hq. unfold handleSearchKeys in H. rewrite Hk in H.
    destruct (String.eqb_spec (searchInput m) "") as [?|_]; [congruence|].
    injection H as <- _. split; reflexivity.
  - intros packages fromCache. unfold handleSearchResults. simpl.
    destruct (slice_len packages =? 0); reflexivity.
  - intros Hq. unfold debounceSearch. simpl. rewrite Hq. split; reflexivity.
Qed.

(** C10 at the state of the sample session: the cursor is on the second of
    two results. *)
Lemma cursor_in_bounds_witness :
  let m := sample_state [] in
  reachable sample_checkInstalled m
  /\ cursor m = 1 /\ slice_len (packages m) = 2
  /\ (0 <= cursor m /\ (packages m <> [] -> cursor m < slice_len (packages m))).
Proof.
  intros m.
  assert (reachable sample_checkInstalled m) as Hreach
    by apply sample_state_reachable, sample_session_ok.
  split; [exact Hreach|]. split; [reflexivity|]. split; [reflexivity|].
  exact (proj1 (cursor_in_bounds sample_checkInstalled m Hreach)).
Defined.

(** C10, as stated, fails when the query is cleared by editing: in the
    sample session the cursor is at 1; once the query has been deleted the
    result list is empty and the cursor is still at 1, not 0. *)
Lemma cursor_not_reset_counterexample :
  let before := sample_state [] in
  let after := sample_state [sample_backspace] in
  reachable sample_checkInstalled after
  /\ packages before = sample_packages
  /\ packages after = []
  /\ cursor after = 1
  /\ cursor after <> 0.
Proof.
  intros before after.
  split; [apply sample_state_reachable, sample_backspace_ok|].
  repeat split; discriminate.
Qed.


Lemma updateSearchInput_options o m cmds :
  viewState m <> ViewSearch -> updateSearchInput o m cmds = (m, cmds).
Proof. unfold updateSearchInput. destruct (viewState m); congruence. Qed.

Lemma updateSearchInput_keeps o m cmds :
  let m' := (updateSearchInput o m cmds).1 in
  viewState m' = viewState m /\ message m' = message m
  /\ messageType m' = messageType m
  /\ quitWithCommands m' = quitWithCommands m
  /\ commandsToPrint m' = commandsToPrint m
  /\ autoRun m' = autoRun m
  /\ (forall c, c ∈ (updateSearchInput o m cmds).2 -> c = Quit -> c ∈ cmds).
Proof.
  unfold updateSearchInput, debounceSearch.
  destruct (viewState m) eqn:Hv; simpl; try (rewrite Hv; repeat split; auto; fail).
  destruct (_ && _); simpl; [|rewrite Hv; repeat split; auto].
  destruct (negb (inputValue o =? searchInput m)%string); simpl.
  - destruct (inputValue o =? "")%string; simpl; rewrite Hv; repeat split; auto;
      intros c Hc ->; destruct (inputHasCmd o);
      repeat (apply elem_of_app in Hc as [Hc|Hc]); auto;
      try (apply list_elem_of_singleton in Hc; discriminate);
      try (inversion Hc; fail).
  - rewrite Hv. repeat split; auto.
    intros c Hc ->. destruct (inputHasCmd o); auto.
    apply elem_of_app in Hc as [Hc|Hc]; auto.
    apply list_elem_of_singleton in Hc. discriminate.
Qed.

(** C8: in the Options state the key [g] (or [G]) builds the install command
    of the selected packages.  When the command is not empty the session
    marks it for printing, without auto-run, and quits.  When it is empty,
    which is when every selected package is already installed, the session
    goes back to the Search state with the info message and does not
    quit. *)
Theorem generate_command_key
    (checkInstalled : Packages.Manager -> string -> bool)
    (o : Oracle) (m : Model) (k : KeyMsg)
    (Hreach : reachable checkInstalled m)
    (Hview : viewState m = ViewOptions)
    (Hkey : Type_ k = KeyRunes)
    (Hrunes : Runes k = [rune_of "g"] \/ Runes k = [rune_of "G"]) :
  exists selected m' cmds,
    getSelectedPackages (rangeOrder1 o) m = Ok selected
    /\ Update checkInstalled o m (Key k) = Ok (m', cmds)
    /\ (Packages.GetInstallCommand selected = "" <->
        forall pkg, In pkg selected -> IsInstalled pkg = true)
    /\ (Packages.GetInstallCommand selected <> "" ->
        quitWithCommands m' = true
        /\ commandsToPrint m' = [Packages.GetInstallCommand selected]
        /\ autoRun m' = false
        /\ cmds = [Quit]
        /\ viewState m' = ViewOptions)
    /\ (Packages.GetInstallCommand selected = "" ->
        viewState m' = ViewSearch
        /\ message m' = "All selected packages are already installed"
        /\ messageType m' = "info"
        /\ quitWithCommands m' = quitWithCommands m
        /\ Quit ∉ cmds).
Proof.
  destruct (reachable_ok _ _ Hreach) as [_ Hsel].
  pose proof (getSelectedPackages_ok m (rangeOrder1 o) Hsel) as Hget.
  set (sel := omap (selected_at m) (rangeOrder1 o)) in *.
  assert (runes_are (Runes k) "g" "G" = true) as Hg.
  { destruct Hrunes as [-> | ->]; reflexivity. }
  assert (handleOptionsKeys o m k =
    if negb (Packages.GetInstallCommand sel =? "")%string
    then Ok (set_autoRun false
               (set_commandsToPrint [Packages.GetInstallCommand sel]
                  (set_quitWithCommands true m)), Some Quit)
    else Ok (set_viewState ViewSearch
               (set_messageType "info"
                  (set_message "All selected packages are already installed" m)),
             None)) as Hhandle.
  { unfold handleOptionsKeys. rewrite Hkey, Hg, Hget. reflexivity. }
  exists sel. unfold Update. rewrite Hview, Hhandle.
  destruct (String.eqb_spec (Packages.GetInstallCommand sel) "") as [Hcmd|Hcmd];
    cbn [negb bind cmd_list].
  - set (m1 := set_viewState _ _).
    pose proof (updateSearchInput_keeps o m1 []) as Hkeep.
    destruct (updateSearchInput o m1 []) as [m' cmds]. simpl in Hkeep.
    destruct Hkeep as (Hv & Hmsg & Hty & Hq & _ & _ & Hcmds).
    exists m', cmds. split; [exact Hget|]. split; [reflexivity|].
    split; [apply PackagesProps.GetInstallCommand_all_installed|].
    split; [congruence|]. intros _.
    repeat split; try assumption.
    intros Hin. specialize (Hcmds Quit Hin eq_refl). inversion Hcmds.
  - rewrite updateSearchInput_options by (simpl; congruence).
    eexists _, _. split; [exact Hget|]. split; [reflexivity|].
    split; [apply PackagesProps.GetInstallCommand_all_installed|].
    split; [|congruence]. intros _. repeat split. simpl. exact Hview.
Qed.


(** C8 in the sample session: cobra, not yet installed, is selected and
    confirmed; [g] then yields its command and quits. *)
Lemma generate_command_key_witness :
  let m := sample_state [sample_enter] in
  let o := sample_generate.1 in
  let k := mkKeyMsg KeyRunes [rune_of "g"] "g" in
  (reachable sample_checkInstalled m
   /\ viewState m = ViewOptions
   /\ Type_ k = KeyRunes
   /\ (Runes k = [rune_of "g"] \/ Runes k = [rune_of "G"]))
  /\ exists m',
       Update sample_checkInstalled o m (Key k) = Ok (m', [Quit])
       /\ quitWithCommands m' = true
       /\ commandsToPrint m' = ["go get github.com/spf13/cobra@1.8.0"]
       /\ autoRun m' = false.
Proof.
  intros m o k.
  assert (reachable sample_checkInstalled m) as Hreach
    by apply sample_state_reachable, sample_enter_ok.
  split; [repeat split; auto|].
  destruct (generate_command_key sample_checkInstalled o m k Hreach eq_refl eq_refl
              (or_introl eq_refl))
    as (sel & m' & cmds & Hget & Hupd & _ & Hcmd & _).
  assert (sel = [mkPackage "cobra" "github.com/spf13/cobra"
                   "A Commander for modern Go CLI interactions" "1.8.0" false])
    as ->.
  { assert (getSelectedPackages (rangeOrder1 o) m
            = Ok [mkPackage "cobra" "github.com/spf13/cobra"
                    "A Commander for modern Go CLI interactions" "1.8.0" false])
      as Hc by (vm_compute; reflexivity).
    rewrite Hc in Hget. injection Hget as <-. reflexivity. }
  destruct Hcmd as (Hq & Hp & Ha & -> & _); [discriminate|].
  exists m'. repeat split; assumption.
Defined.

End TuiProps.

(** ** More on the result cache: expiry, overwriting, sweeping *)

Module CacheSweepProps.
Import Cache.

Lemma Since_mono now now' t : now <= now' -> GoTime.Since now t <= GoTime.Since now' t.
Proof. unfold GoTime.Since, GoTime.Sub. lia. Qed.

Lemma path_ne_temp (p : string) : p <> p +:+ ".tmp".
Proof.
  intros H. apply (f_equal String.length) in H. revert H.
  induction p as [|a p IH]; simpl; [discriminate|intros [= H]; auto].
Qed.

Section Sweep.

Variable sha256_hex : string -> string.
Variable filepath_Join : string -> string -> string.
Variable json_MarshalIndent : CacheEntry -> option string.
Variable json_Unmarshal : string -> option CacheEntry.

Let path (c : Cache) (query : string) : string :=
  filepath_Join (dir c) (getFilename sha256_hex query).

Lemma Get_frame c now query fs p :
  p <> path c query ->
  (Get sha256_hex filepath_Join json_Unmarshal c now query fs).1 !! p = fs !! p.
Proof.
  intros Hp. unfold Get. fold (path c query).
  destruct (fs !! path c query) as [data|]; [|reflexivity].
  destruct (json_Unmarshal data) as [entry|]; [|reflexivity].
  destruct (isExpired c now (Timestamp entry)); [|reflexivity].
  simpl. apply lookup_delete_ne. congruence.
Qed.

Lemma Set_frame c now query packages fs p :
  p <> path c query -> p <> path c query +:+ ".tmp" ->
  (Set_ sha256_hex filepath_Join json_MarshalIndent c now query packages fs).1 !! p
  = fs !! p.
Proof.
  intros Hp Ht. unfold Set_. fold (path c query).
  destruct (json_MarshalIndent _); [|reflexivity]. simpl.
  rewrite lookup_insert_ne by congruence.
  rewrite lookup_delete_ne by congruence.
  apply lookup_insert_ne. congruence.
Qed.

End Sweep.

(** X1: [Get] on an entry older than the TTL reports not-found and removes
    the backing record, and a second [Get], at any time, reports not-found
    again and changes nothing. *)
Theorem Get_expired_idempotent
    (sha256_hex : string -> string)
    (filepath_Join : string -> string -> string)
    (json_Unmarshal : string -> option CacheEntry)
    (c : Cache) (now now' : Z) (Q : string) (fs : FS)
    (data : string) (entry : CacheEntry)
    (Hfile : fs !! filepath_Join (dir c) (getFilename sha256_hex Q) = Some data)
    (Hdec : json_Unmarshal data = Some entry)
    (Hold : ttl c < GoTime.Since now (Timestamp entry)) :
  let get := Get sha256_hex filepath_Join json_Unmarshal c in
  let path := filepath_Join (dir c) (getFilename sha256_hex Q) in
  get now Q fs = (delete path fs, None)
  /\ delete path fs !! path = None
  /\ get now' Q (delete path fs) = (delete path fs, None).
Proof.
  intros get path. split; [|split].
  - eapply CacheProps.Get_expired; [exact Hfile|exact Hdec|].
    unfold isExpired. apply Z.ltb_lt, Hold.
  - apply lookup_delete_eq.
  - unfold get, Get. fold path. rewrite lookup_delete_eq. reflexivity.
Qed.

Lemma Get_expired_idempotent_witness :
  let c := mkCache "cache" 7 in
  let fs : FS := {[ "cache/spf13.json" := "spf13" ]} in
  let now := 5 + 8 * 24 * GoTime.Hour in
  (fs !! sample_Join (dir c) (getFilename id "spf13") = Some "spf13"
   /\ sample_Unmarshal "spf13" = Some sample_entry
   /\ ttl c < GoTime.Since now (Timestamp sample_entry))
  /\ Get id sample_Join sample_Unmarshal c now "spf13" fs = (∅, None)
  /\ Get id sample_Join sample_Unmarshal c now "spf13" ∅ = (∅, None).
Proof.
  intros c fs now.
  assert (fs !! sample_Join (dir c) (getFilename id "spf13") = Some "spf13")
    as Hfile by reflexivity.
  assert (ttl c < GoTime.Since now (Timestamp sample_entry)) as Hold
    by (vm_compute; reflexivity).
  split; [repeat split; assumption|].
  destruct (Get_expired_idempotent id sample_Join sample_Unmarshal c now now
              "spf13" fs "spf13" sample_entry Hfile eq_refl Hold)
    as (H1 & _ & H2).
  split; [rewrite H1|]; vm_compute; reflexivity.
Defined.

(** X2: expiry is monotone in time: an entry that [isExpired] calls stale
    stays stale at every later reading of the clock, and a cache with a
    negative TTL of up to 106751 days calls stale every entry whose
    timestamp is not in the future. *)
Theorem isExpired_monotone (c : Cache) (now now' timestamp : Z)
    (Hlater : now <= now') :
  (isExpired c now timestamp = true -> isExpired c now' timestamp = true)
  /\ (isExpired c now' timestamp = false -> isExpired c now timestamp = false)
  /\ (-106751 <= ttlDays c < 0 -> timestamp <= now ->
      isExpired c now timestamp = true).
Proof.
  pose proof (Since_mono now now' timestamp Hlater) as Hm.
  unfold isExpired. split; [|split].
  - rewrite !Z.ltb_lt. lia.
  - rewrite !Z.ltb_ge. lia.
  - intros Hneg Hpast. apply Z.ltb_lt.
    assert (ttl c = ttlDays c * 24 * GoTime.Hour) as ->.
    { unfold ttl, GoTime.wrap64, GoTime.Hour, GoTime.Second.
      change (2 ^ 63) with 9223372036854775808.
      change (2 ^ 64) with 18446744073709551616.
      rewrite (Z.mod_small (ttlDays c * 24 + _)) by lia.
      replace (ttlDays c * 24 + 9223372036854775808 - 9223372036854775808)
        with (ttlDays c * 24) by lia.
      rewrite Z.mod_small by lia. lia. }
    unfold GoTime.Since, GoTime.Sub, GoTime.min_int64, GoTime.max_int64,
      GoTime.Hour, GoTime.Second.
    change (2 ^ 63) with 9223372036854775808. lia.
Qed.

Lemma isExpired_monotone_witness :
  let c := mkCache "cache" 7 in
  8 * 24 * GoTime.Hour <= 9 * 24 * GoTime.Hour
  /\ isExpired c (8 * 24 * GoTime.Hour) 0 = true
  /\ isExpired c (9 * 24 * GoTime.Hour) 0 = true.
Proof.
  intros c.
  assert (8 * 24 * GoTime.Hour <= 9 * 24 * GoTime.Hour) as H
    by (vm_compute; discriminate).
  split; [exact H|]. split; [reflexivity|].
  apply (proj1 (isExpired_monotone c _ _ 0 H)). reflexivity.
Defined.


(** X3: the last writer wins and other queries are left alone, on these
    conditions: [encoding/json] behaves as [encoding_json] says; two [Set]
    calls for Q return no error; the [Get] comes within the TTL of the
    second; the file of the other query Q' is neither the file of Q nor its
    temporary file.  Then [Get(Q)] returns the entry of the second [Set] as
    [encoding/json] leaves it, which is that entry itself when the strings
    of Q and of the second results are valid UTF-8; no temporary file
    remains; and [Get(Q')] answers as it did before the two calls. *)
Theorem Set_overwrites
    (sha256_hex : string -> string)
    (filepath_Join : string -> string -> string)
    (json_MarshalIndent : CacheEntry -> option string)
    (json_Unmarshal : string -> option CacheEntry)
    (c : Cache) (t1 t2 t3 : Z) (Q Q' : string) (R1 R2 : list Package)
    (fs fs1 fs2 : FS)
    (Hjson : encoding_json json_MarshalIndent json_Unmarshal)
    (Hset1 : Set_ sha256_hex filepath_Join json_MarshalIndent c t1 Q R1 fs
             = (fs1, None))
    (Hset2 : Set_ sha256_hex filepath_Join json_MarshalIndent c t2 Q R2 fs1
             = (fs2, None))
    (Httl : GoTime.Since t3 t2 <= ttl c)
    (Hother : filepath_Join (dir c) (getFilename sha256_hex Q')
              <> filepath_Join (dir c) (getFilename sha256_hex Q))
    (Htemp : filepath_Join (dir c) (getFilename sha256_hex Q')
             <> filepath_Join (dir c) (getFilename sha256_hex Q) +:+ ".tmp") :
  let get := Get sha256_hex filepath_Join json_Unmarshal c in
  get t3 Q fs2 = (fs2, Some (json_entry (mkCacheEntry Q R2 t2)))
  /\ (GoJSON.utf8_valid Q -> Forall package_valid R2 ->
      get t3 Q fs2 = (fs2, Some (mkCacheEntry Q R2 t2)))
  /\ fs2 !! (filepath_Join (dir c) (getFilename sha256_hex Q) +:+ ".tmp") = None
  /\ (get t3 Q' fs2).2 = (get t3 Q' fs).2.
Proof.
  intros get.
  destruct (CacheProps.Set_writes_target _ _ _ _ _ _ _ _ _ Hset2)
    as (data & Henc & Hfs & Htmp).
  assert (get t3 Q fs2 = (fs2, Some (json_entry (mkCacheEntry Q R2 t2))))
    as Hget.
  { eapply CacheProps.Get_fresh; [exact Hfs|apply Hjson, Henc|].
    unfold isExpired. simpl. apply Z.ltb_ge. lia. }
  split; [exact Hget|]. split; [|split].
  - intros HQ HR. rewrite Hget. unfold json_entry. cbn [Query Results Timestamp].
    rewrite CacheProps.json_packages_valid by exact HR.
    unfold GoJSON.utf8_valid in HQ. rewrite HQ. reflexivity.
  - exact Htmp.
  - assert (fs2 !! filepath_Join (dir c) (getFilename sha256_hex Q')
            = fs !! filepath_Join (dir c) (getFilename sha256_hex Q')) as Hsame.
    { pose proof (Set_frame sha256_hex filepath_Join json_MarshalIndent
                    c t2 Q R2 fs1 _ Hother Htemp) as H2.
      pose proof (Set_frame sha256_hex filepath_Join json_MarshalIndent
                    c t1 Q R1 fs _ Hother Htemp) as H1.
      rewrite Hset2 in H2. rewrite Hset1 in H1. simpl in *. congruence. }
    unfold get, Get. rewrite Hsame.
    destruct (fs !! _) as [d|]; [|reflexivity].
    destruct (json_Unmarshal d) as [e|]; [|reflexivity].
    destruct (isExpired c t3 (Timestamp e)); reflexivity.
Qed.

(** X3 on a cache that holds an entry for [gin]: the results for [spf13]
    are stored twice, first one package and then two. *)
Lemma Set_overwrites_witness :
  let c := mkCache "cache" 7 in
  let cobra := mkPackage "cobra" "github.com/spf13/cobra" "" "1.8.0" false in
  let gin := mkCacheEntry "gin" [mkPackage "gin" "github.com/gin-gonic/gin" "" "" true] 0 in
  let set := Set_ id sample_Join standin_MarshalIndent c in
  let get := Get id sample_Join standin_Unmarshal c in
  let fs := (set 0 "gin" (Results gin) ∅).1 in
  let fs1 := (set 1 "spf13" [cobra] fs).1 in
  let fs2 := (set 5 "spf13" sample_packages fs1).1 in
  (encoding_json standin_MarshalIndent standin_Unmarshal
   /\ set 1 "spf13" [cobra] fs = (fs1, None)
   /\ set 5 "spf13" sample_packages fs1 = (fs2, None)
   /\ GoTime.Since 6 5 <= ttl c
   /\ sample_Join (dir c) (getFilename id "gin")
      <> sample_Join (dir c) (getFilename id "spf13")
   /\ sample_Join (dir c) (getFilename id "gin")
      <> sample_Join (dir c) (getFilename id "spf13") +:+ ".tmp")
  /\ [cobra] <> sample_packages
  /\ get 2 "spf13" fs1 = (fs1, Some (mkCacheEntry "spf13" [cobra] 1))
  /\ get 6 "spf13" fs2 = (fs2, Some (mkCacheEntry "spf13" sample_packages 5))
  /\ (get 6 "gin" fs2).2 = Some gin.
Proof.
  intros c cobra gin set get fs fs1 fs2.
  assert (set 1 "spf13" [cobra] fs = (fs1, None)) as H1
    by (vm_compute; reflexivity).
  assert (set 5 "spf13" sample_packages fs1 = (fs2, None)) as H2
    by (vm_compute; reflexivity).
  assert (GoTime.Since 6 5 <= ttl c) as Httl by (vm_compute; discriminate).
  assert (sample_Join (dir c) (getFilename id "gin")
          <> sample_Join (dir c) (getFilename id "spf13")) as Hother
    by discriminate.
  assert (sample_Join (dir c) (getFilename id "gin")
          <> sample_Join (dir c) (getFilename id "spf13") +:+ ".tmp") as Htemp
    by discriminate.
  split; [auto 10 using CacheProps.standin_encoding_json|].
  split; [discriminate|].
  split; [vm_compute; reflexivity|].
  destruct (Set_overwrites id sample_Join standin_MarshalIndent standin_Unmarshal
              c 1 5 6 "spf13" "gin" [cobra] sample_packages fs fs1 fs2
              CacheProps.standin_encoding_json H1 H2 Httl Hother Htemp)
    as (_ & Hget & _ & Hgin).
  split.
  - apply Hget; [vm_compute; reflexivity|].
    repeat constructor; vm_compute; reflexivity.
  - fold get in Hgin. rewrite Hgin. vm_compute. reflexivity.
Defined.

Section Listing.

Variable filepath_Join : string -> string -> string.

Let listed := listed filepath_Join.

Lemma listed_cons c entry entries p :
  listed c (entry :: entries) p <->
  (isCacheFile entry = true /\ p = filepath_Join (dir c) (entryName entry))
  \/ listed c entries p.
Proof.
  unfold listed, Cache.listed. split.
  - intros (e & [<-|He] & Hf & Hp); [left; auto|right; eauto].
  - intros [[Hf Hp]|(e & He & Hf & Hp)]; [exists entry|exists e]; simpl; auto.
Qed.

Lemma Clear_loop_spec c entries : forall fs fs' r,
  Clear_loop filepath_Join c entries fs = (fs', r) ->
  (forall p, ~ listed c entries p -> fs' !! p = fs !! p)
  /\ (forall p d, fs' !! p = Some d -> fs !! p = Some d)
  /\ (r = None -> forall p, listed c entries p -> fs' !! p = None)
  /\ (forall nm, r = Some (ErrRemove nm) ->
        listed c entries (filepath_Join (dir c) nm)
        /\ fs' !! filepath_Join (dir c) nm = None)
  /\ r <> Some ErrReadDir.
Proof.
  induction entries as [|entry rest IH]; intros fs fs' r H; simpl in H.
  - injection H as <- <-.
    split; [reflexivity|]. split; [auto|].
    split; [intros _ p (e & [] & _)|]. split; [discriminate|discriminate].
  - destruct (isCacheFile entry) eqn:Hfile.
    2:{ destruct (IH _ _ _ H) as (H1 & H2 & H3 & H4 & H5).
        split; [|split; [exact H2|split; [|split; [|exact H5]]]].
        - intros p Hp. apply H1. rewrite listed_cons in Hp. tauto.
        - intros Hr p Hp. apply H3; [exact Hr|]. rewrite listed_cons in Hp.
          destruct Hp as [[? _]|Hp]; [congruence|exact Hp].
        - intros nm Hr. destruct (H4 nm Hr) as [Hl Hn].
          split; [rewrite listed_cons; right; exact Hl|exact Hn]. }
    remember (filepath_Join (dir c) (entryName entry)) as p0 eqn:Ep0.
    destruct (fs !! p0) as [d0|] eqn:Hp0.
    + destruct (IH _ _ _ H) as (H1 & H2 & H3 & H4 & H5).
      split; [|split; [|split; [|split; [|exact H5]]]].
      * intros p Hp. rewrite listed_cons in Hp.
        rewrite H1 by tauto. apply lookup_delete_ne. intros Heq.
        apply Hp. left. split; [exact Hfile|]. congruence.
      * intros p d Hd. apply H2 in Hd. apply lookup_delete_Some in Hd. tauto.
      * intros Hr p Hp. rewrite listed_cons in Hp.
        destruct (fs' !! p) as [d|] eqn:E; [|reflexivity].
        destruct Hp as [[_ Hp]|Hp]; [|rewrite <- E; apply H3; auto].
        apply H2 in E. rewrite Hp, <- Ep0, lookup_delete_eq in E. discriminate.
      * intros nm Hr. destruct (H4 nm Hr) as [Hl Hn].
        split; [rewrite listed_cons; right; exact Hl|exact Hn].
    + injection H as <- <-.
      split; [reflexivity|]. split; [auto|]. split; [discriminate|].
      split; [|discriminate].
      intros nm [= <-]. rewrite <- Ep0. split; [|exact Hp0].
      exists entry. simpl. auto.
Qed.

Variable json_Unmarshal : string -> option CacheEntry.

Let stale_at := stale_at json_Unmarshal.

Lemma stale_at_delete c now fs p0 p :
  p <> p0 -> (stale_at c now (delete p0 fs) p <-> stale_at c now fs p).
Proof.
  intros Hne. unfold stale_at, Cache.stale_at.
  rewrite lookup_delete_ne by congruence. tauto.
Qed.

Lemma CleanExpired_loop_lookup c now entries : forall fs p,
  (listed c entries p /\ stale_at c now fs p ->
     CleanExpired_loop filepath_Join json_Unmarshal c now entries fs !! p = None)
  /\ (~ (listed c entries p /\ stale_at c now fs p) ->
     CleanExpired_loop filepath_Join json_Unmarshal c now entries fs !! p = fs !! p).
Proof.
  induction entries as [|entry rest IH]; intros fs p; simpl.
  - split; [intros [(e & [] & _) _]|reflexivity].
  - destruct (isCacheFile entry) eqn:Hfile.
    2:{ destruct (IH fs p) as [IH1 IH2]. split; intros H.
        - apply IH1. rewrite listed_cons in H.
          destruct H as [[[? _]|Hl] Hs]; [congruence|auto].
        - apply IH2. rewrite listed_cons in H. tauto. }
    set (p0 := filepath_Join (dir c) (entryName entry)).
    destruct (fs !! p0) as [data|] eqn:Hp0.
    2:{ destruct (IH fs p) as [IH1 IH2]. split; intros H.
        - apply IH1. rewrite listed_cons in H.
          destruct H as [[[_ ->]|Hl] Hs]; [|auto].
          destruct Hs as (d & e & Hd & _). fold p0 in Hd. congruence.
        - apply IH2. rewrite listed_cons in H. tauto. }
    destruct (json_Unmarshal data) as [e0|] eqn:Hdec.
    2:{ destruct (IH fs p) as [IH1 IH2]. split; intros H.
        - apply IH1. rewrite listed_cons in H.
          destruct H as [[[_ ->]|Hl] Hs]; [|auto].
          destruct Hs as (d & e & Hd & He & _). fold p0 in Hd. congruence.
        - apply IH2. rewrite listed_cons in H. tauto. }
    destruct (isExpired c now (Timestamp e0)) eqn:Hexp.
    + destruct (IH (delete p0 fs) p) as [IH1 IH2].
      destruct (decide (p = p0)) as [->|Hne].
      * split; intros H.
        -- rewrite IH2; [apply lookup_delete_eq|].
           intros [_ (d & e & Hd & _)]. rewrite lookup_delete_eq in Hd. discriminate.
        -- exfalso. apply H. split.
           ++ exists entry. simpl. auto.
           ++ exists data, e0. auto.
      * split; intros H.
        -- apply IH1. rewrite listed_cons in H. rewrite stale_at_delete by exact Hne.
           destruct H as [[[_ ?]|Hl] Hs]; [unfold p0 in Hne; congruence|auto].
        -- rewrite IH2; [apply lookup_delete_ne; congruence|].
           rewrite stale_at_delete by exact Hne. rewrite listed_cons in H. tauto.
    + destruct (IH fs p) as [IH1 IH2]. split; intros H.
      * apply IH1. rewrite listed_cons in H.
        destruct H as [[[_ ->]|Hl] Hs]; [|auto].
        destruct Hs as (d & e & Hd & He & Hx). fold p0 in Hd. congruence.
      * apply IH2. rewrite listed_cons in H. tauto.
Qed.

Lemma CleanExpired_loop_perm c now entries entries' fs :
  Permutation entries entries' ->
  CleanExpired_loop filepath_Join json_Unmarshal c now entries fs
  = CleanExpired_loop filepath_Join json_Unmarshal c now entries' fs.
Proof.
  intros Hperm. apply map_eq. intros p.
  destruct (CleanExpired_loop_lookup c now entries fs p) as [A1 A2].
  destruct (CleanExpired_loop_lookup c now entries' fs p) as [B1 B2].
  assert (listed c entries p <-> listed c entries' p) as Hl.
  { unfold listed, Cache.listed. split; intros (e & He & H); exists e;
      (split; [|exact H]).
    - eapply Permutation_in; eassumption.
    - eapply Permutation_in; [symmetry|]; eassumption. }
  destruct (CleanExpired_loop filepath_Join json_Unmarshal c now entries fs !! p)
    as [d|].
  - assert (~ (listed c entries p /\ stale_at c now fs p)) as Hn.
    { intros H. specialize (A1 H). discriminate. }
    rewrite B2 by tauto. apply A2, Hn.
  - destruct (CleanExpired_loop filepath_Join json_Unmarshal c now entries' fs !! p)
      as [d'|]; [|reflexivity].
    assert (~ (listed c entries' p /\ stale_at c now fs p)) as Hn.
    { intros H. specialize (B1 H). discriminate. }
    rewrite (B2 Hn). apply A2. tauto.
Qed.

End Listing.

(** X4: [CleanExpired] removes every listed cache file that holds a stale
    entry and nothing else: a record that is fresh, unreadable as an entry,
    not a [.json] file or not listed keeps its content; the outcome does not
    depend on the order in which the directory is listed; a directory that
    cannot be read is an error and nothing is touched. *)
Theorem CleanExpired_spec
    (filepath_Join : string -> string -> string)
    (json_Unmarshal : string -> option CacheEntry)
    (os_ReadDir : string -> option (list DirEntry))
    (c : Cache) (now : Z) (fs : FS) :
  let clean := CleanExpired filepath_Join json_Unmarshal os_ReadDir c now in
  match os_ReadDir (dir c) with
  | None => clean fs = (fs, Some ErrReadDir)
  | Some entries =>
      exists fs', clean fs = (fs', None)
        /\ (forall p, listed filepath_Join c entries p ->
               stale_at json_Unmarshal c now fs p -> fs' !! p = None)
        /\ (forall p, ~ (listed filepath_Join c entries p
                         /\ stale_at json_Unmarshal c now fs p) ->
               fs' !! p = fs !! p)
        /\ (forall entries', Permutation entries entries' ->
               CleanExpired_loop filepath_Join json_Unmarshal c now entries' fs
               = fs')
  end.
Proof.
  intros clean. unfold clean, CleanExpired.
  destruct (os_ReadDir (dir c)) as [entries|]; [|reflexivity].
  eexists. split; [reflexivity|]. split; [|split].
  - intros p Hl Hs.
    apply (proj1 (CleanExpired_loop_lookup _ _ c now entries fs p)). auto.
  - intros p H. apply (proj2 (CleanExpired_loop_lookup _ _ c now entries fs p)), H.
  - intros entries' Hp. symmetry. apply CleanExpired_loop_perm, Hp.
Qed.

(** X5: [Clear] only ever removes listed cache files.  When it returns no
    error every listed cache file is gone and every other path, directories
    and files of another extension included, is as before; it stops with an
    error at the first listed cache file that is not there to remove, and
    reports an unreadable directory without touching anything. *)
Theorem Clear_spec
    (filepath_Join : string -> string -> string)
    (os_ReadDir : string -> option (list DirEntry))
    (c : Cache) (fs : FS) :
  match os_ReadDir (dir c) with
  | None => Clear filepath_Join os_ReadDir c fs = (fs, Some ErrReadDir)
  | Some entries =>
      exists fs' r, Clear filepath_Join os_ReadDir c fs = (fs', r)
        /\ (forall p, ~ listed filepath_Join c entries p -> fs' !! p = fs !! p)
        /\ (forall p d, fs' !! p = Some d -> fs !! p = Some d)
        /\ (r = None -> forall p, listed filepath_Join c entries p ->
               fs' !! p = None)
        /\ (forall nm, r = Some (ErrRemove nm) ->
               listed filepath_Join c entries (filepath_Join (dir c) nm)
               /\ fs' !! filepath_Join (dir c) nm = None)
        /\ r <> Some ErrReadDir
  end.
Proof.
  unfold Clear. destruct (os_ReadDir (dir c)) as [entries|]; [|reflexivity].
  destruct (Clear_loop filepath_Join c entries fs) as [fs' r] eqn:E.
  exists fs', r. split; [reflexivity|].
  exact (Clear_loop_spec filepath_Join c entries fs fs' r E).
Qed.

(** The cache directory of the repository's sweep test: a fresh record, a
    stale one, a file that is no JSON, and a directory. *)
Example CleanExpired_example :
  let c := mkCache "cache" 1 in
  let dec := fun data : string =>
    if (data =? "old")%string then Some (mkCacheEntry "old" [] 0)
    else if (data =? "new")%string then Some (mkCacheEntry "new" [] (2 * 24 * GoTime.Hour))
    else None in
  let ls := fun _ : string =>
    Some [mkDirEntry "old.json" false; mkDirEntry "new.json" false;
          mkDirEntry "junk.json" false; mkDirEntry "notes.txt" false;
          mkDirEntry "sub.json" true] in
  let fs : FS := {[ "cache/old.json" := "old"; "cache/new.json" := "new";
                    "cache/junk.json" := "{"; "cache/notes.txt" := "old" ]} in
  let swept := CleanExpired sample_Join dec ls c (2 * 24 * GoTime.Hour) fs in
  let cleared := Clear sample_Join ls c fs in
  swept.2 = None
  /\ swept.1 !! "cache/old.json" = None
  /\ swept.1 !! "cache/new.json" = Some "new"
  /\ swept.1 !! "cache/junk.json" = Some "{"
  /\ swept.1 !! "cache/notes.txt" = Some "old"
  /\ cleared.2 = None
  /\ cleared.1 !! "cache/new.json" = None
  /\ cleared.1 !! "cache/junk.json" = None
  /\ cleared.1 !! "cache/notes.txt" = Some "old".
Proof. vm_compute. repeat split; reflexivity. Qed.

End CacheSweepProps.

(** ** More on the activity log: the bound, the scan window, recent entries *)

Module HistoryLogProps.
Import History HistoryProps.

Lemma last_n_length {A} (n : Z) (l : list A) :
  0 <= n -> Z.of_nat (length (last_n n l)) = Z.min n (Z.of_nat (length l)).
Proof. intros Hn. unfold last_n. rewrite length_drop. lia. Qed.

Lemma last_n_snoc {A} (n : Z) (l : list A) (x : A) :
  0 <= n -> last_n n (last_n n l ++ [x]) = last_n n (l ++ [x]).
Proof.
  intros Hn. unfold last_n. rewrite !length_app, length_drop. simpl.
  destruct (decide (Z.to_nat n = 0)%nat) as [Hz|Hnz].
  { rewrite !drop_ge; [reflexivity| |];
      rewrite length_app; [|rewrite length_drop]; simpl; lia. }
  destruct (decide (length l <= Z.to_nat n)%nat) as [Hle|Hgt].
  - replace (length l - Z.to_nat n)%nat with 0%nat by lia. simpl.
    f_equal. lia.
  - rewrite (drop_app_le l [x] (length l + 1 - Z.to_nat n)) by lia.
    rewrite drop_app_le by (rewrite length_drop; lia).
    rewrite drop_drop. f_equal. f_equal. lia.
Qed.

Lemma last_n_app {A} (n : Z) (l k : list A) :
  0 <= n -> last_n n (last_n n l ++ k) = last_n n (l ++ k).
Proof.
  intros Hn. revert l. induction k as [|x k IH]; intros l.
  - rewrite !app_nil_r. unfold last_n. rewrite length_drop, drop_drop.
    f_equal. lia.
  - rewrite !(cons_middle x), !app_assoc, <- IH, last_n_snoc, IH by exact Hn.
    reflexivity.
Qed.

Lemma last_n_elem {A} (n : Z) (l : list A) (x : A) : x ∈ last_n n l -> x ∈ l.
Proof.
  unfold last_n. intros H. apply list_elem_of_lookup in H as [i Hi].
  rewrite lookup_drop in Hi. apply list_elem_of_lookup. eauto.
Qed.

Section Log.

Variable json_Unmarshal : string -> option Entry.

Lemma isDuplicate_false_no_key now name path action st entries :
  readEntries json_Unmarshal st = inl entries ->
  (forall e, e ∈ entries -> entry_key e <> (name, path, action)) ->
  isDuplicate json_Unmarshal now name path action st = false.
Proof.
  intros Hread Hkeys.
  destruct (isDuplicate json_Unmarshal now name path action st) eqn:E;
    [|reflexivity].
  apply isDuplicate_spec in E
    as (entries' & i & e & Hread' & Hi & _ & Hp & Hi' & Ha & _).
  rewrite Hread in Hread'. injection Hread' as <-.
  exfalso. apply (Hkeys e); [apply list_elem_of_lookup; eauto|].
  unfold entry_key. congruence.
Qed.

Variable json_Marshal : Entry -> option string.

Hypothesis Hjson : encoding_json json_Marshal json_Unmarshal.

Lemma storable_survives e :
  storable json_Marshal e -> survives json_Marshal json_Unmarshal e.
Proof.
  intros (Hvalid & line & Henc & Hfit).
  exact (law_survives json_Unmarshal json_Marshal e line Hjson Hvalid Henc Hfit).
Qed.

(** [Add] when nothing is suppressed: the entry is appended and the log cut
    to its last [maxEntries] entries. *)
Lemma Add_appends h now name path action st entries :
  0 <= maxEntries h ->
  readEntries json_Unmarshal st = inl entries ->
  (forall e, e ∈ entries ++ [mkEntry now name path action] ->
     storable json_Marshal e) ->
  isDuplicate json_Unmarshal now name path action st = false ->
  exists lines,
    Add json_Marshal json_Unmarshal h now name path action st
      = Ok (Lines lines, None)
    /\ readEntries json_Unmarshal (Lines lines)
       = inl (last_n (maxEntries h)
                (entries ++ [mkEntry now name path action])).
Proof.
  intros Hmax Hread Hs Hnodup.
  set (all := entries ++ [mkEntry now name path action]) in *.
  set (kept := last_n (maxEntries h) all).
  exists (writeLines json_Marshal kept []). split.
  - apply Add_writes; assumption.
  - cbn [readEntries]. rewrite read_write_lines; [reflexivity|].
    intros e He. apply storable_survives, Hs. eapply last_n_elem, He.
Qed.

Lemma Add_all_appends h calls : forall st entries,
  0 <= maxEntries h -> calls <> [] ->
  readEntries json_Unmarshal st = inl entries ->
  (forall e, e ∈ entries ++ calls -> storable json_Marshal e) ->
  NoDup (entry_key <$> calls) ->
  (forall c e, c ∈ calls -> e ∈ entries -> entry_key e <> entry_key c) ->
  exists lines,
    Add_all json_Marshal json_Unmarshal h calls st = Ok (Lines lines)
    /\ readEntries json_Unmarshal (Lines lines)
       = inl (last_n (maxEntries h) (entries ++ calls)).
Proof.
  induction calls as [|c rest IH]; intros st entries Hmax Hne Hlog Hs Hnd Hfresh;
    [congruence|].
  assert (mkEntry (Timestamp c) (Package c) (ImportPath c) (Action c) = c) as Hc
    by (destruct c; reflexivity).
  destruct (Add_appends h (Timestamp c) (Package c) (ImportPath c) (Action c)
              st entries)
    as (lines & Hadd & Hread); [exact Hmax|exact Hlog| | |].
  { rewrite Hc. intros e He. apply Hs. apply elem_of_app in He as [He|He];
      apply elem_of_app; [left; exact He|right].
    apply list_elem_of_singleton in He as ->. left. }
  { apply (isDuplicate_false_no_key _ _ _ _ _ entries Hlog). intros e He.
    apply (Hfresh c e); [left|exact He]. }
  rewrite Hc in Hread.
  cbn [Add_all]. rewrite Hadd. cbn [bind].
  destruct rest as [|c' rest'].
  { exists lines. split; [reflexivity|exact Hread]. }
  apply NoDup_cons in Hnd as [Hnotin Hnd].
  destruct (IH (Lines lines) (last_n (maxEntries h) (entries ++ [c])))
    as (lines' & Hall & Hread');
    [exact Hmax|discriminate|exact Hread| |exact Hnd| |].
  - intros e He.  apply Hs.
    apply elem_of_app in He as [He|He].
    + apply last_n_elem in He. rewrite (cons_middle c), app_assoc.
      apply elem_of_app. left. exact He.
    + apply elem_of_app. right. right. exact He.
  - intros c0 e Hc0 He. apply last_n_elem in He.
    apply elem_of_app in He as [He|He].
    + apply Hfresh; [right; exact Hc0|exact He].
    + apply list_elem_of_singleton in He as ->. intros Heq.
      apply Hnotin. rewrite Heq.
      change (entry_key c0 ∈ entry_key <$> (c' :: rest')).
      apply list_elem_of_fmap_2, Hc0.
  - exists lines'. split; [exact Hall|].
    rewrite Hread'. rewrite last_n_app by exact Hmax.
    rewrite <- app_assoc. reflexivity.
Qed.

End Log.

(** The sample entries are ones the log can hold. *)
Ltac sample_storable :=
  split;
  [ repeat split; vm_compute; reflexivity
  | eexists; split; [reflexivity|vm_compute; reflexivity] ].

(** X6: the log is a bounded FIFO, on these conditions: [encoding/json]
    behaves as [encoding_json] says; the log can be read and the bound is
    not negative; every entry involved, old or new, has valid UTF-8 strings
    and marshals to a line shorter than 64 KiB; the (name, path, action) of
    the calls differ from each other and from those already in the log.
    Then after the series of [Add] calls the log holds the last
    [maxEntries] of the old entries followed by the new ones, in insertion
    order, and its length does not exceed the bound. *)
Theorem Add_all_keeps_last
    (json_Marshal : Entry -> option string)
    (json_Unmarshal : string -> option Entry)
    (h : History) (calls : list Entry) (st : Store) (logged : list Entry)
    (Hjson : encoding_json json_Marshal json_Unmarshal)
    (Hmax : 0 <= maxEntries h)
    (Hcalls : calls <> [])
    (Hread : readEntries json_Unmarshal st = inl logged)
    (Hstorable : forall e, e ∈ logged ++ calls -> storable json_Marshal e)
    (Hdistinct : NoDup (entry_key <$> calls))
    (Hfresh : forall c e, c ∈ calls -> e ∈ logged ->
        entry_key e <> entry_key c) :
  exists st',
    Add_all json_Marshal json_Unmarshal h calls st = Ok st'
    /\ GetAll json_Unmarshal st'
       = inl (last_n (maxEntries h) (logged ++ calls))
    /\ Z.of_nat (length (last_n (maxEntries h) (logged ++ calls)))
       <= maxEntries h.
Proof.
  destruct (Add_all_appends json_Unmarshal json_Marshal Hjson h calls st logged
              Hmax Hcalls Hread Hstorable Hdistinct Hfresh)
    as (lines & Hall & Hlog).
  exists (Lines lines). split; [exact Hall|]. unfold GetAll.
  split; [exact Hlog|]. rewrite last_n_length by exact Hmax. lia.
Qed.

Lemma Add_all_keeps_last_witness :
  let h := mkHistory "history" 2 in
  let entry := fun t name => mkEntry t name ("github.com/spf13/" +:+ name) ActionViewed in
  let logged := [entry 0 "afero"] in
  let calls := [entry 1 "cobra"; entry 2 "viper"; entry 3 "pflag"] in
  (encoding_json sample_MarshalLine sample_UnmarshalLine
   /\ 0 <= maxEntries h
   /\ calls <> []
   /\ readEntries sample_UnmarshalLine (sample_log logged) = inl logged
   /\ (forall e, e ∈ logged ++ calls -> storable sample_MarshalLine e)
   /\ NoDup (entry_key <$> calls)
   /\ (forall c e, c ∈ calls -> e ∈ logged -> entry_key e <> entry_key c))
  /\ exists st',
       Add_all sample_MarshalLine sample_UnmarshalLine h calls (sample_log logged)
         = Ok st'
       /\ GetAll sample_UnmarshalLine st'
          = inl [entry 2 "viper"; entry 3 "pflag"].
Proof.
  intros h entry logged calls.
  assert (readEntries sample_UnmarshalLine (sample_log logged) = inl logged)
    as Hread by (vm_compute; reflexivity).
  assert (forall e, e ∈ logged ++ calls -> storable sample_MarshalLine e) as Hs.
  { intros e He. simpl in He.
    repeat (apply elem_of_cons in He as [->|He]);
      [| | | |inversion He]; sample_storable. }
  assert (NoDup (entry_key <$> calls)) as Hnd
    by (apply (bool_decide_unpack _); vm_compute; exact I).
  assert (forall c e, c ∈ calls -> e ∈ logged -> entry_key e <> entry_key c)
    as Hfresh.
  { intros c e Hc He. apply list_elem_of_singleton in He as ->.
    simpl in Hc. repeat (apply elem_of_cons in Hc as [->|Hc]);
      [| | |inversion Hc]; discriminate. }
  assert (0 <= maxEntries h) as Hmax by (simpl; lia).
  assert (calls <> []) as Hne by discriminate.
  split; [repeat match goal with |- _ /\ _ => split end;
          auto using sample_encoding_json|].
  destruct (Add_all_keeps_last sample_MarshalLine sample_UnmarshalLine h calls
              (sample_log logged) logged sample_encoding_json Hmax Hne Hread
              Hs Hnd Hfresh)
    as (st' & Hall & Hget & _).
  exists st'. split; [exact Hall|]. rewrite Hget. reflexivity.
Defined.

(** X7: the bound is not validated.  A suppressed [Add] returns without
    touching the log whatever the bound, and on a log that cannot be read
    (the file cannot be opened, or holds a line of 64 KiB or more) [Add]
    returns the read error and writes nothing, whatever the bound.  On a
    log that can be read, an [Add] that is not suppressed panics on the
    slice expression when [maxEntries] is negative, and with a bound of 0
    it writes an empty log, dropping every earlier entry together with the
    new one. *)
Theorem Add_bound_edges
    (json_Marshal : Entry -> option string)
    (json_Unmarshal : string -> option Entry)
    (h : History) (now : Z) (name path : string) (action : ActionType)
    (st : Store) :
  let add := Add json_Marshal json_Unmarshal h now name path action in
  (isDuplicate json_Unmarshal now name path action st = true ->
     add st = Ok (st, None))
  /\ (forall err, readEntries json_Unmarshal st = inr err ->
        add st = Ok (st, Some err))
  /\ (forall entries, readEntries json_Unmarshal st = inl entries ->
        isDuplicate json_Unmarshal now name path action st = false ->
        maxEntries h < 0 -> add st = Panic)
  /\ (forall entries, readEntries json_Unmarshal st = inl entries ->
        isDuplicate json_Unmarshal now name path action st = false ->
        maxEntries h = 0 ->
        add st = Ok (Lines [], None)
        /\ GetAll json_Unmarshal (Lines []) = inl []).
Proof.
  intros add. unfold add. split; [apply Add_duplicate_noop|].
  split; [intros err; apply Add_unreadable|].
  split; intros entries Hread Hno Hmax; unfold Add; rewrite Hno, Hread.
  - set (n := Z.of_nat (length _)).
    destruct (Z.ltb_spec (maxEntries h) n) as [_|?]; [|lia].
    destruct (Z.leb_spec (n - maxEntries h) n) as [?|_]; [lia|].
    rewrite andb_false_r. reflexivity.
  - rewrite Hmax. set (all := entries ++ _).
    assert (0 < Z.of_nat (length all)) as Hlen.
    { unfold all. rewrite length_app. simpl. lia. }
    destruct (Z.ltb_spec 0 (Z.of_nat (length all))) as [_|?]; [|lia].
    destruct (Z.leb_spec 0 (Z.of_nat (length all) - 0)) as [_|?]; [|lia].
    destruct (Z.leb_spec (Z.of_nat (length all) - 0) (Z.of_nat (length all)))
      as [_|?]; [|lia].
    cbn [andb bind]. unfold writeEntries.
    rewrite drop_ge by lia. split; reflexivity.
Qed.

Lemma Add_bound_edges_witness :
  let entry := fun t name => mkEntry t name ("github.com/spf13/" +:+ name) ActionViewed in
  let add := fun h t name =>
    Add sample_MarshalLine sample_UnmarshalLine h t name
      ("github.com/spf13/" +:+ name) ActionViewed in
  let st := sample_log [entry 0 "cobra"] in
  let long := Lines [sample_repeat "x" 65536] in
  add (mkHistory "history" (-1)) 1 "cobra" st = Ok (st, None)
  /\ add (mkHistory "history" (-1)) 1 "viper" long = Ok (long, Some ErrRead)
  /\ add (mkHistory "history" (-1)) 1 "viper" NoAccess = Ok (NoAccess, Some ErrOpen)
  /\ add (mkHistory "history" (-1)) 1 "viper" st = Panic
  /\ add (mkHistory "history" 0) 1 "viper" st = Ok (Lines [], None).
Proof.
  intros entry add st long.
  pose proof (Add_bound_edges sample_MarshalLine sample_UnmarshalLine) as H.
  split; [|split; [|split; [|split]]].
  - apply (H (mkHistory "history" (-1)) 1 "cobra" "github.com/spf13/cobra"
             ActionViewed st). vm_compute. reflexivity.
  - apply (H (mkHistory "history" (-1)) 1 "viper" "github.com/spf13/viper"
             ActionViewed long). vm_compute. reflexivity.
  - apply (H (mkHistory "history" (-1)) 1 "viper" "github.com/spf13/viper"
             ActionViewed NoAccess). reflexivity.
  - apply (H (mkHistory "history" (-1)) 1 "viper" "github.com/spf13/viper"
             ActionViewed st) with (entries := [entry 0 "cobra"]);
      [vm_compute; reflexivity|vm_compute; reflexivity|simpl; lia].
  - apply (H (mkHistory "history" 0) 1 "viper" "github.com/spf13/viper"
             ActionViewed st) with (entries := [entry 0 "cobra"]);
      [vm_compute; reflexivity|vm_compute; reflexivity|reflexivity].
Defined.

(** X8: the duplicate check looks at the last 10 entries only, on these
    conditions: [encoding/json] behaves as [encoding_json] says; the log
    can be read and holds fewer entries than the bound; every entry of the
    log and the new one have valid UTF-8 strings and marshal to a line
    shorter than 64 KiB.  Then, when an entry with the same (name, path,
    action), however recent, is followed by 10 or more entries with other
    keys, [Add] does not see it and stores the entry a second time. *)
Theorem Add_misses_older_duplicate
    (json_Marshal : Entry -> option string)
    (json_Unmarshal : string -> option Entry)
    (h : History) (now : Z) (name path : string) (action : ActionType)
    (st : Store) (older newer : list Entry) (dup : Entry)
    (Hjson : encoding_json json_Marshal json_Unmarshal)
    (Hlog : readEntries json_Unmarshal st = inl (older ++ dup :: newer))
    (Hdup : entry_key dup = (name, path, action))
    (Hnewer : (10 <= length newer)%nat)
    (Hothers : forall e, e ∈ newer -> entry_key e <> (name, path, action))
    (Hroom : Z.of_nat (length (older ++ dup :: newer)) < maxEntries h)
    (Hstorable : forall e,
        e ∈ (older ++ dup :: newer) ++ [mkEntry now name path action] ->
        storable json_Marshal e) :
  isDuplicate json_Unmarshal now name path action st = false
  /\ exists st',
       Add json_Marshal json_Unmarshal h now name path action st = Ok (st', None)
       /\ GetAll json_Unmarshal st'
          = inl (older ++ dup :: newer ++ [mkEntry now name path action]).
Proof.
  assert (isDuplicate json_Unmarshal now name path action st = false) as Hno.
  { destruct (isDuplicate json_Unmarshal now name path action st) eqn:E;
      [|reflexivity].
    apply isDuplicate_spec in E
      as (entries & i & e & Hread & Hi & Hge & Hp & Hi' & Ha & _).
    rewrite Hlog in Hread. injection Hread as <-.
    rewrite length_app in Hge. simpl in Hge.
    exfalso. apply (Hothers e); [|unfold entry_key; congruence].
    rewrite lookup_app_r in Hi by lia.
    destruct (i - length older)%nat as [|j] eqn:Ej; [lia|].
    simpl in Hi. apply list_elem_of_lookup. eauto. }
  split; [exact Hno|].
  destruct (Add_appends json_Unmarshal json_Marshal Hjson h now name path action
              st (older ++ dup :: newer))
    as (lines & Hadd & Hread); [lia|exact Hlog|exact Hstorable|exact Hno|].
  exists (Lines lines). split; [exact Hadd|]. unfold GetAll.
  rewrite Hread. unfold last_n.
  set (all := (older ++ dup :: newer) ++ [mkEntry now name path action]).
  replace (length all - Z.to_nat (maxEntries h))%nat with 0%nat
    by (unfold all; rewrite length_app; simpl; lia).
  unfold all. rewrite <- app_assoc. reflexivity.
Qed.

Lemma Add_misses_older_duplicate_witness :
  let h := mkHistory "history" 1000 in
  let entry := fun t name => mkEntry t name ("github.com/spf13/" +:+ name) ActionViewed in
  let newer := entry 0 <$> ["a"; "b"; "c"; "d"; "e"; "f"; "g"; "h"; "i"; "j"] in
  let st := sample_log (entry 1 "cobra" :: newer) in
  (encoding_json sample_MarshalLine sample_UnmarshalLine
   /\ readEntries sample_UnmarshalLine st = inl ([] ++ entry 1 "cobra" :: newer)
   /\ entry_key (entry 1 "cobra") = ("cobra", "github.com/spf13/cobra", ActionViewed)
   /\ (10 <= length newer)%nat
   /\ (forall e, e ∈ newer ->
         entry_key e <> ("cobra", "github.com/spf13/cobra", ActionViewed))
   /\ Z.of_nat (length ([] ++ entry 1 "cobra" :: newer)) < maxEntries h
   /\ (forall e, e ∈ ([] ++ entry 1 "cobra" :: newer) ++ [entry 2 "cobra"] ->
         storable sample_MarshalLine e))
  /\ exists st',
       Add sample_MarshalLine sample_UnmarshalLine h 2 "cobra"
         "github.com/spf13/cobra" ActionViewed st = Ok (st', None)
       /\ GetAll sample_UnmarshalLine st'
          = inl (entry 1 "cobra" :: newer ++ [entry 2 "cobra"]).
Proof.
  intros h entry newer st.
  assert (readEntries sample_UnmarshalLine st = inl ([] ++ entry 1 "cobra" :: newer))
    as Hlog by (vm_compute; reflexivity).
  assert (forall e, e ∈ newer ->
            entry_key e <> ("cobra", "github.com/spf13/cobra", ActionViewed))
    as Hothers.
  { intros e He. unfold newer in He. simpl in He.
    repeat (apply elem_of_cons in He as [->|He]); try discriminate.
    inversion He. }
  assert (forall e, e ∈ ([] ++ entry 1 "cobra" :: newer) ++ [entry 2 "cobra"] ->
            storable sample_MarshalLine e) as Hs.
  { intros e He. simpl in He.
    repeat (apply elem_of_cons in He as [->|He]); try sample_storable.
    inversion He. }
  assert (Z.of_nat (length ([] ++ entry 1 "cobra" :: newer)) < maxEntries h)
    as Hroom by (vm_compute; reflexivity).
  assert (10 <= length newer)%nat as Hten by (simpl; lia).
  split; [repeat match goal with |- _ /\ _ => split end;
          auto using sample_encoding_json|].
  destruct (Add_misses_older_duplicate sample_MarshalLine sample_UnmarshalLine
              h 2 "cobra" "github.com/spf13/cobra" ActionViewed st []
              newer (entry 1 "cobra") sample_encoding_json Hlog eq_refl Hten
              Hothers Hroom Hs)
    as (_ & st' & Hadd & Hget).
  exists st'. split; [exact Hadd|exact Hget].
Defined.

(** X9: on a log that can be read, [GetRecent(n)] returns the last [n]
    entries of the log, oldest first, or the whole log when it has no more
    than [n], and for a negative [n] it panics on the slice expression,
    even on an empty log.  On a log that cannot be read (the file cannot be
    opened, or holds a line of 64 KiB or more) it returns the read error
    for every [n], with no entry and no panic. *)
Theorem GetRecent_spec
    (json_Unmarshal : string -> option Entry) (n : Z) (st : Store) :
  match GetAll json_Unmarshal st with
  | inr err => GetRecent json_Unmarshal n st = Ok (inr err)
  | inl entries =>
      (0 <= n ->
         exists recent older,
           GetRecent json_Unmarshal n st = Ok (inl recent)
           /\ entries = older ++ recent
           /\ Z.of_nat (length recent) = Z.min n (Z.of_nat (length entries)))
      /\ (n < 0 -> GetRecent json_Unmarshal n st = Panic)
  end.
Proof.
  unfold GetRecent, GetAll.
  destruct (readEntries json_Unmarshal st) as [entries|err]; [|reflexivity].
  split; intros Hn.
  - destruct (Z.leb_spec (Z.of_nat (length entries)) n) as [Hle|Hgt].
    + exists entries, []. split; [reflexivity|]. split; [reflexivity|lia].
    + destruct (Z.leb_spec 0 (Z.of_nat (length entries) - n)); [|lia].
      destruct (Z.leb_spec (Z.of_nat (length entries) - n)
                  (Z.of_nat (length entries))); [|lia].
      cbn [andb].
      exists (drop (Z.to_nat (Z.of_nat (length entries) - n)) entries),
             (take (Z.to_nat (Z.of_nat (length entries) - n)) entries).
      split; [reflexivity|]. split; [symmetry; apply take_drop|].
      rewrite length_drop. lia.
  - destruct (Z.leb_spec (Z.of_nat (length entries)) n) as [?|_]; [lia|].
    destruct (Z.leb_spec (Z.of_nat (length entries) - n)
                (Z.of_nat (length entries))) as [?|_]; [lia|].
    rewrite andb_false_r. reflexivity.
Qed.

End HistoryLogProps.

(** ** Properties of the installation probe and of the installer *)

Module ManagerProps.
Import Cache Packages.

Lemma IsInstalled_remembered ci m p :
  remembered (IsInstalled ci m p).1 p = Some (IsInstalled ci m p).2.
Proof.
  unfold IsInstalled, remembered.
  destruct (installedCache m !! p) eqn:E; simpl; [exact E|].
  apply lookup_insert_eq.
Qed.

Lemma IsInstalled_keeps ci m p q b :
  remembered m q = Some b -> remembered (IsInstalled ci m p).1 q = Some b.
Proof.
  unfold IsInstalled, remembered. intros H.
  destruct (installedCache m !! p) eqn:E; simpl; [exact H|].
  rewrite lookup_insert_ne; [exact H|]. intros ->. congruence.
Qed.

Lemma IsInstalled_others ci m p q :
  q <> p -> remembered (IsInstalled ci m p).1 q = remembered m q.
Proof.
  unfold IsInstalled, remembered. intros H.
  destruct (installedCache m !! p) eqn:E; simpl; [reflexivity|].
  rewrite lookup_insert_ne; [reflexivity|congruence].
Qed.

Lemma IsInstalled_hit ci m p b :
  remembered m p = Some b -> IsInstalled ci m p = (m, b).
Proof. unfold IsInstalled, remembered. intros ->. reflexivity. Qed.

(** X10: the manager remembers its first answer for an import path: asking
    again gives that answer and changes nothing, whatever the machine
    would say by then; the answers for other paths are untouched; only
    after [RefreshCache] is the machine probed again. *)
Theorem IsInstalled_remembers
    (ci ci' : Manager -> string -> bool) (m : Manager) (importPath : string) :
  let m1 := (IsInstalled ci m importPath).1 in
  let installed := (IsInstalled ci m importPath).2 in
  IsInstalled ci' m1 importPath = (m1, installed)
  /\ (remembered m importPath = None -> installed = ci m importPath)
  /\ (forall q, q <> importPath -> remembered m1 q = remembered m q)
  /\ (IsInstalled ci' (RefreshCache m1) importPath).2
     = ci' (RefreshCache m1) importPath.
Proof.
  intros m1 installed. split; [|split; [|split]].
  - apply IsInstalled_hit, IsInstalled_remembered.
  - unfold installed, IsInstalled, remembered. intros ->. reflexivity.
  - intros q Hq. apply IsInstalled_others, Hq.
  - unfold IsInstalled, RefreshCache. simpl. rewrite lookup_empty. reflexivity.
Qed.

Lemma MarkInstalledPackages_cons ci m pkg rest :
  MarkInstalledPackages ci m (pkg :: rest)
  = let m1 := (IsInstalled ci m (ImportPath pkg)).1 in
    let r := MarkInstalledPackages ci m1 rest in
    (r.1, mkPackage (Name pkg) (ImportPath pkg) (Description pkg) (Version pkg)
            (IsInstalled ci m (ImportPath pkg)).2 :: r.2).
Proof.
  simpl. destruct (IsInstalled ci m (ImportPath pkg)) as [m1 b]. simpl.
  destruct (MarkInstalledPackages ci m1 rest). reflexivity.
Qed.

Lemma MarkInstalledPackages_keeps ci packages : forall m q b,
  remembered m q = Some b ->
  remembered (MarkInstalledPackages ci m packages).1 q = Some b.
Proof.
  induction packages as [|pkg rest IH]; intros m q b H; [exact H|].
  rewrite MarkInstalledPackages_cons. simpl.
  apply IH, IsInstalled_keeps, H.
Qed.

Lemma MarkInstalledPackages_same_length ci packages : forall m,
  length (MarkInstalledPackages ci m packages).2 = length packages.
Proof.
  induction packages as [|pkg rest IH]; intros m; [reflexivity|].
  rewrite MarkInstalledPackages_cons. simpl. f_equal. apply IH.
Qed.

Lemma MarkInstalledPackages_at ci packages : forall m i pkg,
  packages !! i = Some pkg ->
  exists installed,
    (MarkInstalledPackages ci m packages).2 !! i
    = Some (mkPackage (Name pkg) (ImportPath pkg) (Description pkg)
              (Version pkg) installed)
    /\ remembered (MarkInstalledPackages ci m packages).1 (ImportPath pkg)
       = Some installed.
Proof.
  induction packages as [|pkg rest IH]; intros m i p Hp.
  - rewrite lookup_nil in Hp. discriminate.
  - rewrite MarkInstalledPackages_cons. cbv zeta. cbn [fst snd].
    destruct i as [|i]; simpl in Hp.
    + injection Hp as <-. eexists. split; [reflexivity|].
      apply MarkInstalledPackages_keeps, IsInstalled_remembered.
    + apply (IH _ i p Hp).
Qed.

(** The flags of the result are the answers the manager remembers. *)
Lemma MarkInstalledPackages_flags ci packages m pkg :
  pkg ∈ (MarkInstalledPackages ci m packages).2 ->
  remembered (MarkInstalledPackages ci m packages).1 (ImportPath pkg)
  = Some (Cache.IsInstalled pkg).
Proof.
  intros Hin. apply list_elem_of_lookup in Hin as [i Hi].
  destruct (packages !! i) as [p|] eqn:Ep.
  - destruct (MarkInstalledPackages_at ci packages m i p Ep) as (b & Hat & Hrem).
    rewrite Hat in Hi. injection Hi as <-. exact Hrem.
  - apply lookup_ge_None in Ep. apply lookup_lt_Some in Hi.
    rewrite MarkInstalledPackages_same_length in Hi. lia.
Qed.

(** Marking again packages whose flags the manager remembers changes
    nothing, whatever the machine says by then. *)
Lemma MarkInstalledPackages_fixed ci packages : forall m,
  (forall pkg, pkg ∈ packages ->
     remembered m (ImportPath pkg) = Some (Cache.IsInstalled pkg)) ->
  MarkInstalledPackages ci m packages = (m, packages).
Proof.
  induction packages as [|pkg rest IH]; intros m H; [reflexivity|].
  rewrite MarkInstalledPackages_cons. cbv zeta.
  rewrite (IsInstalled_hit ci m _ _ (H pkg ltac:(left))). cbn [fst snd].
  rewrite IH by (intros p Hp; apply H; right; exact Hp).
  destruct pkg. reflexivity.
Qed.

(** X11: [MarkInstalledPackages] returns one package per input package, in
    order, equal to it in every field but the flag; the flag is the answer
    the manager remembers for the import path when the call is over, so an
    answer remembered before the call is used as it is, and two packages
    with one import path get one flag. *)
Theorem MarkInstalledPackages_spec
    (ci : Manager -> string -> bool) (m : Manager) (packages : list Package) :
  let m' := (MarkInstalledPackages ci m packages).1 in
  let result := (MarkInstalledPackages ci m packages).2 in
  length result = length packages
  /\ (forall i pkg, packages !! i = Some pkg ->
        exists installed,
          result !! i = Some (mkPackage (Name pkg) (ImportPath pkg)
                                (Description pkg) (Version pkg) installed)
          /\ remembered m' (ImportPath pkg) = Some installed)
  /\ (forall q b, remembered m q = Some b -> remembered m' q = Some b).
Proof.
  split; [apply MarkInstalledPackages_same_length|]. split.
  - apply MarkInstalledPackages_at.
  - intros q b. apply MarkInstalledPackages_keeps.
Qed.

Lemma Split_from_length sep cur s :
  (1 <= length (GoString.Split_from sep cur s))%nat.
Proof.
  revert cur. induction s as [|a t IH]; intros cur; simpl; [lia|].
  destruct (Ascii.eqb a sep); simpl; [lia|apply IH].
Qed.

Lemma Split_from_slash cur s :
  (2 <= length (GoString.Split_from "/" cur s))%nat <-> has_slash s = true.
Proof.
  revert cur. induction s as [|a t IH]; intros cur; simpl.
  - split; [lia|discriminate].
  - destruct (Ascii.eqb a "/"); simpl; [|apply IH].
    pose proof (Split_from_length "/" "" t). split; [reflexivity|lia].
Qed.

Lemma checkInstalled_scan_spec packageName entries :
  checkInstalled_scan packageName entries = true <->
  exists entry, entry ∈ entries /\ entryIsDir entry = true
    /\ GoString.HasPrefix (entryName entry) (packageName +:+ "@") = true.
Proof.
  induction entries as [|e rest IH]; simpl.
  - split; [discriminate|]. intros (e & H & _). inversion H.
  - destruct (entryIsDir e && _) eqn:E.
    + split; [|reflexivity]. intros _. apply andb_true_iff in E as [E1 E2].
      exists e. split; [left|]. split; assumption.
    + rewrite IH. split.
      * intros (x & Hx & H). exists x. split; [right; exact Hx|exact H].
      * intros (x & Hx & H1 & H2). apply elem_of_cons in Hx as [->|Hx].
        -- rewrite H1, H2 in E. discriminate.
        -- exists x. auto.
Qed.

(** X12: [checkInstalled] answers yes exactly when the import path has a
    slash, the directory of its first two segments under the module cache
    can be read, and either that directory has a subdirectory whose name
    starts with the last segment followed by [@], or [go list -m] succeeds
    with a non-blank output.  A path without a slash, or an unreadable
    directory, gives no without [go list] being consulted. *)
Theorem checkInstalled_spec
    (filepath_Join : string -> string -> string)
    (os_ReadDir : string -> option (list DirEntry))
    (TrimSpace : string -> string) (go_list : string -> option string)
    (m : Manager) (importPath : string) :
  let parts := GoString.Split importPath "/" in
  let searchPath :=
    filepath_Join (filepath_Join (goModCachePath m) (part parts 0)) (part parts 1) in
  checkInstalled filepath_Join os_ReadDir TrimSpace go_list m importPath = true
  <-> has_slash importPath = true
      /\ exists entries,
           os_ReadDir searchPath = Some entries
           /\ ((exists entry, entry ∈ entries /\ entryIsDir entry = true
                  /\ GoString.HasPrefix (entryName entry)
                       (part parts (length parts - 1) +:+ "@") = true)
               \/ exists output, go_list importPath = Some output
                    /\ TrimSpace output <> "").
Proof.
  intros parts searchPath. unfold checkInstalled. fold parts.
  pose proof (Split_from_slash "" importPath) as Hs.
  change (GoString.Split_from "/" "" importPath) with parts in Hs.
  destruct (Z.ltb_spec (Z.of_nat (length parts)) 2) as [Hlt|Hge].
  - split; [discriminate|]. intros [H _]. apply Hs in H. lia.
  - destruct (Z.ltb_spec 1 (Z.of_nat (length parts))) as [_|?]; [|lia].
    fold searchPath.
    assert (has_slash importPath = true) as Hslash by (apply Hs; lia).
    destruct (os_ReadDir searchPath) as [entries|].
    + destruct (checkInstalled_scan _ entries) eqn:Escan.
      * split; [|reflexivity]. intros _. split; [exact Hslash|].
        exists entries. split; [reflexivity|]. left.
        apply checkInstalled_scan_spec, Escan.
      * split.
        -- intros H. split; [exact Hslash|]. exists entries.
           split; [reflexivity|]. right.
           destruct (go_list importPath) as [output|]; [|discriminate].
           exists output. split; [reflexivity|]. intros E. rewrite E in H.
           discriminate.
        -- intros (_ & entries' & [= <-] & [Hdir|(output & -> & Hout)]).
           ++ apply checkInstalled_scan_spec in Hdir. congruence.
           ++ apply negb_true_iff, String.eqb_neq, Hout.
    + split; [discriminate|]. intros (_ & entries & H & _). discriminate.
Qed.

Lemma InstallPackages_skip go_get m pkg rest runs :
  Cache.IsInstalled pkg = true ->
  InstallPackages go_get m (pkg :: rest) runs = InstallPackages go_get m rest runs.
Proof. simpl. intros ->. reflexivity. Qed.

Lemma InstallPackages_run go_get m pkg rest runs :
  Cache.IsInstalled pkg = false ->
  InstallPackages go_get m (pkg :: rest) runs
  = let m1 := mkManager (goModCachePath m)
                (delete (ImportPath pkg) (installedCache m)) in
    match go_get (length runs) (ImportPath pkg) with
    | Some err => (m1, runs ++ [ImportPath pkg],
                   Some (ErrInstallOf (ImportPath pkg) err))
    | None => InstallPackages go_get m1 rest (runs ++ [ImportPath pkg])
    end.
Proof. simpl. intros ->. reflexivity. Qed.

(** X13: called without a progress callback, [InstallPackages] runs
    [go get] once for each package that is not
    flagged installed, in input order, and stops at the first run that
    fails, returning an error that names that package; a flagged package is
    never fetched.  The answer remembered for each attempted import path is
    dropped, the others are kept. *)
Theorem InstallPackages_spec
    (go_get : nat -> string -> option install_error)
    (m : Manager) (packages : list Package) (runs : list string) :
  let todo := ImportPath <$> not_installed packages in
  exists m' attempted err,
    InstallPackages go_get m packages runs = (m', runs ++ attempted, err)
    /\ attempted `prefix_of` todo
    /\ (forall i p, attempted !! i = Some p -> (S i < length attempted)%nat ->
          go_get (length runs + i)%nat p = None)
    /\ match err with
       | None =>
           attempted = todo
           /\ forall i p, attempted !! i = Some p ->
                go_get (length runs + i)%nat p = None
       | Some e =>
           exists done p cause,
             attempted = done ++ [p]
             /\ e = ErrInstallOf p cause
             /\ go_get (length runs + length done)%nat p = Some cause
       end
    /\ (forall q, remembered m' q
                  = if decide (q ∈ attempted) then None else remembered m q).
Proof.
  revert m runs. induction packages as [|pkg rest IH]; intros m runs todo.
  - exists m, [], None. simpl. rewrite app_nil_r.
    split; [reflexivity|]. split; [reflexivity|].
    split; [intros i p H; rewrite lookup_nil in H; discriminate|].
    split; [split; [reflexivity|]|].
    + intros i p H. rewrite lookup_nil in H. discriminate.
    + intros q. destruct (decide (q ∈ [])) as [H|_]; [inversion H|reflexivity].
  - destruct (Cache.IsInstalled pkg) eqn:Eflag.
    + rewrite InstallPackages_skip by exact Eflag.
      unfold todo, not_installed. simpl. rewrite Eflag. simpl. apply IH.
    + rewrite InstallPackages_run by exact Eflag. cbv zeta.
      set (p := ImportPath pkg).
      set (m1 := mkManager (goModCachePath m) (delete p (installedCache m))).
      assert (todo = p :: (ImportPath <$> not_installed rest)) as ->.
      { unfold todo, not_installed. simpl. rewrite Eflag. reflexivity. }
      destruct (go_get (length runs) p) as [cause|] eqn:Eget.
      * exists m1, [p], (Some (ErrInstallOf p cause)).
        split; [reflexivity|]. split; [eexists; reflexivity|]. split.
        { intros i q _ H. simpl in H. lia. }
        split.
        { exists [], p, cause. split; [reflexivity|]. split; [reflexivity|].
          simpl. rewrite Nat.add_0_r. exact Eget. }
        intros q. unfold remembered, m1. simpl.
        destruct (decide (q ∈ [p])) as [H|H].
        -- apply list_elem_of_singleton in H as ->. apply lookup_delete_eq.
        -- rewrite lookup_delete_ne; [reflexivity|].
           intros ->. apply H. left.
      * destruct (IH m1 (runs ++ [p])) as (m' & att & err & Hrun & Hpre & Hok & Herr & Hmem).
        exists m', (p :: att), err.
        split; [rewrite Hrun, <- app_assoc; reflexivity|].
        split; [apply prefix_cons, Hpre|].
        assert (forall i, (length (runs ++ [p]) + i = length runs + S i)%nat) as Hshift
          by (intros i; rewrite length_app; simpl; lia).
        split.
        { intros [|i] q Hq Hi; simpl in Hq.
          - injection Hq as <-. rewrite Nat.add_0_r. exact Eget.
          - rewrite <- Hshift. apply Hok; [exact Hq|]. simpl in Hi. lia. }
        split.
        { destruct err as [e|].
          - destruct Herr as (done & q & cause & -> & -> & Hget).
            exists (p :: done), q, cause. split; [reflexivity|].
            split; [reflexivity|]. simpl. rewrite <- Hshift. exact Hget.
          - destruct Herr as [-> Hall]. split; [reflexivity|].
            intros [|i] q Hq; simpl in Hq.
            + injection Hq as <-. rewrite Nat.add_0_r. exact Eget.
            + rewrite <- Hshift. apply Hall, Hq. }
        intros q. rewrite Hmem. unfold remembered, m1. simpl.
        destruct (decide (q ∈ att)) as [H|H].
        -- rewrite decide_True; [reflexivity|right; exact H].
        -- destruct (decide (q = p)) as [->|Hne].
           ++ rewrite decide_True by left. apply lookup_delete_eq.
           ++ rewrite decide_False.
              ** apply lookup_delete_ne. congruence.
              ** intros Hin. apply elem_of_cons in Hin as [?|?]; contradiction.
Qed.

(** A path of the module cache, and a session of installs with one failure. *)
Example checkInstalled_example :
  let ReadDir := fun d =>
    if (d =? "/mod/github.com/spf13")%string
    then Some [mkDirEntry "cobra@v1.8.0" true; mkDirEntry "viper.zip" false]
    else None in
  let ci := checkInstalled sample_Join ReadDir (fun s => s) (fun _ => None) in
  ci (New "/mod") "github.com/spf13/cobra" = true
  /\ ci (New "/mod") "github.com/spf13/viper" = false
  /\ ci (New "/mod") "cobra" = false.
Proof. repeat split; reflexivity. Qed.

Example InstallPackages_example :
  let go_get := fun (n : nat) (p : string) =>
    if (p =? "b")%string then Some (ErrWait "no network") else None in
  (InstallPackages go_get (New "/mod")
     [mkPackage "a" "a" "" "" false; mkPackage "i" "i" "" "" true;
      mkPackage "b" "b" "" "" false; mkPackage "c" "c" "" "" false] []).1.2
  = ["a"; "b"].
Proof. reflexivity. Qed.

End ManagerProps.

(** ** Properties of the search outside the retry schedule *)

Module ScraperRunProps.
Import Cache Scraper ScraperProps.

Lemma slept_app w1 w2 : slept (w1 ++ w2) = slept w1 + slept w2.
Proof.
  induction w1 as [|[d|u] w1 IH]; simpl; [reflexivity| |exact IH].
  rewrite IH. lia.
Qed.

Lemma slept_schedule url n :
  (1 <= n <= 35)%nat ->
  slept (schedule url n) = (2 ^ (Z.of_nat n - 1) - 1) * GoTime.Second.
Proof.
  induction n as [|n IH]; [lia|]. intros Hn.
  cbn [schedule]. rewrite !slept_app.
  destruct (Nat.eq_dec n 0%nat) as [->|Hpos]; [reflexivity|].
  rewrite IH by lia.
  destruct (Z.ltb_spec 0 (Z.of_nat n)) as [_|?]; [|lia].
  cbn [slept]. rewrite backoff_exponential by lia.
  replace (Z.of_nat (S n) - 1) with (Z.succ (Z.of_nat n - 1)) by lia.
  rewrite Z.pow_succ_r by lia. lia.
Qed.

Lemma slept_schedule_mono url n k :
  (n <= k <= 35)%nat -> slept (schedule url n) <= slept (schedule url k).
Proof.
  intros H. destruct (Nat.eq_dec n 0%nat) as [->|Hn].
  - simpl. destruct (Nat.eq_dec k 0%nat) as [->|Hk]; [simpl; lia|].
    rewrite slept_schedule by lia.
    assert (0 < 2 ^ (Z.of_nat k - 1)) by (apply Z.pow_pos_nonneg; lia).
    unfold GoTime.Second. lia.
  - rewrite !slept_schedule by lia.
    assert (2 ^ (Z.of_nat n - 1) <= 2 ^ (Z.of_nat k - 1))
      by (apply Z.pow_le_mono_r; lia).
    unfold GoTime.Second. lia.
Qed.

Section Run.

Variable TrimSpace : string -> string.

Lemma parsePackage_ok sel pkg :
  parsePackage TrimSpace sel = Some pkg ->
  ImportPath pkg <> "" /\ IsInstalled pkg = false.
Proof.
  unfold parsePackage.
  destruct (match titleLink sel with Some l => Some l | None => anyLink sel end)
    as [l|]; [|discriminate].
  destruct (href l) as [h|]; [|discriminate].
  destruct (h =? "")%string; [discriminate|].
  destruct (String.eqb_spec (TrimSpace (GoString.TrimPrefix h "/")) "") as [|Hne];
    [discriminate|].
  intros [= <-]. simpl. auto.
Qed.

Lemma parseSnippets_ok sels : forall packages,
  Forall (fun pkg => ImportPath pkg <> "" /\ IsInstalled pkg = false) packages ->
  Forall (fun pkg => ImportPath pkg <> "" /\ IsInstalled pkg = false)
    (parseSnippets TrimSpace sels packages).
Proof.
  induction sels as [|sel rest IH]; intros packages H; simpl; [exact H|].
  destruct (parsePackage TrimSpace sel) as [pkg|] eqn:E; [|apply IH, H].
  destruct (negb _); apply IH; [|exact H].
  apply Forall_app. split; [exact H|].
  constructor; [|constructor]. apply (parsePackage_ok sel), E.
Qed.

Lemma parseSnippets_length sels : forall packages,
  (length (parseSnippets TrimSpace sels packages)
   <= length packages + length sels)%nat.
Proof.
  induction sels as [|sel rest IH]; intros packages; simpl; [lia|].
  destruct (parsePackage TrimSpace sel) as [pkg|].
  - destruct (negb _).
    + specialize (IH (packages ++ [pkg])). rewrite length_app in IH. simpl in IH. lia.
    + specialize (IH packages). lia.
  - specialize (IH packages). lia.
Qed.

Lemma parseTitles_ok els : forall packages,
  Forall (fun pkg => ImportPath pkg <> "" /\ IsInstalled pkg = false) packages ->
  Forall (fun pkg => ImportPath pkg <> "" /\ IsInstalled pkg = false)
    (parseTitles TrimSpace els packages).
Proof.
  induction els as [|el rest IH]; intros packages H; simpl; [exact H|].
  destruct (link el) as [l|]; [|apply IH, H].
  destruct (href l) as [h|]; [|apply IH, H].
  destruct (String.eqb_spec (GoString.TrimPrefix h "/") "") as [|Hne];
    [apply IH, H|].
  apply IH, Forall_app. split; [exact H|].
  constructor; [|constructor]. simpl. auto.
Qed.

Lemma parseTitles_length els : forall packages,
  (length (parseTitles TrimSpace els packages)
   <= length packages + length els)%nat.
Proof.
  induction els as [|el rest IH]; intros packages; simpl; [lia|].
  destruct (link el) as [l|]; [|specialize (IH packages); lia].
  destruct (href l) as [h|]; [|specialize (IH packages); lia].
  destruct (_ =? _)%string; [specialize (IH packages); lia|].
  match goal with |- (length (parseTitles _ _ ?p) <= _)%nat =>
    specialize (IH p) end.
  rewrite length_app in IH. simpl in IH. lia.
Qed.

End Run.

Lemma Search_attempts_extends (client_Get : nat -> string -> Reply) url n :
  forall attempt w lastErr,
  exists ext,
    (Search_attempts client_Get url n attempt w lastErr).1.1 = w ++ ext
    /\ (ext = [] <-> n = 0%nat).
Proof.
  induction n as [|n IH]; intros attempt w lastErr.
  - exists []. simpl. rewrite app_nil_r. split; [reflexivity|tauto].
  - cbn [Search_attempts].
    set (w1 := if 0 <? attempt then _ else _).
    assert (exists pre, w1 ++ [Request url] = w ++ pre ++ [Request url]) as [pre Hw1].
    { unfold w1. destruct (0 <? attempt).
      - eexists [_]. rewrite <- app_assoc. reflexivity.
      - exists []. reflexivity. }
    assert (forall e, exists ext,
              (Search_attempts client_Get url n (attempt + 1)
                 (w1 ++ [Request url]) e).1.1 = w ++ ext
              /\ (ext = [] <-> S n = 0%nat)) as Hrec.
    { intros e. destruct (IH (attempt + 1) (w1 ++ [Request url]) e) as (ext & -> & _).
      rewrite Hw1. exists ((pre ++ [Request url]) ++ ext).
      rewrite <- !app_assoc. split; [reflexivity|].
      split; [|discriminate]. intros H. destruct pre; discriminate. }
    destruct (client_Get (requests w1) url) as [err|code body]; [apply Hrec|].
    destruct (negb (code =? StatusOK)); [apply Hrec|].
    destruct body as [err|doc]; [apply Hrec|].
    cbn [fst]. rewrite Hw1. exists (pre ++ [Request url]).
    split; [reflexivity|]. split; [|discriminate].
    intros H. destruct pre; discriminate.
Qed.

(** X14: [Search] only adds to what the run has done so far, and it adds
    nothing, so sends no request, exactly when the query is empty or
    [maxRetries] is not positive.  For the empty query the result is an
    empty list without error; for a non-empty query and no attempt it is
    the error of a failed fetch with no cause. *)
Theorem Search_request_free
    (TrimSpace QueryEscape : string -> string)
    (client_Get : nat -> string -> Reply)
    (s : Scraper) (query : string) (w : World) :
  let w' := (Search TrimSpace QueryEscape client_Get s query w).1 in
  let res := (Search TrimSpace QueryEscape client_Get s query w).2 in
  exists ext,
    w' = w ++ ext
    /\ (ext = [] <-> query = "" \/ maxRetries s <= 0)
    /\ (query = "" -> res = inl [])
    /\ (query <> "" -> maxRetries s <= 0 ->
        res = inr (ErrFetch (maxRetries s) None)).
Proof.
  intros w' res. unfold w', res, Search.
  destruct (String.eqb_spec query "") as [->|Hne].
  - exists []. cbn [fst snd]. rewrite app_nil_r. split; [reflexivity|].
    split; [tauto|]. split; [reflexivity|congruence].
  - destruct (Search_attempts_extends client_Get
                (searchURL QueryEscape s query) (Z.to_nat (maxRetries s)) 0 w None)
      as (ext & Hw & Hext).
    exists ext. split; [|split; [|split]].
    + destruct (Search_attempts _ _ _ _ _ _) as [[w1 doc] lastErr].
      cbn [fst] in Hw. destruct doc; cbn [fst]; exact Hw.
    + rewrite Hext. split; [intros H; right; lia|].
      intros [?|?]; [contradiction|lia].
    + contradiction.
    + intros _ Hmax.
      replace (Z.to_nat (maxRetries s)) with 0%nat by lia. reflexivity.
Qed.

(** X15: with a bound of 1 to 35 attempts, a search sleeps at most
    [2^(maxRetries-1) - 1] seconds in all between its attempts, and exactly
    that long when it ends in an error: 3 seconds for the bound of 3 that
    [New] sets. *)
Theorem Search_sleeps_at_most
    (TrimSpace QueryEscape : string -> string)
    (client_Get : nat -> string -> Reply)
    (s : Scraper) (query : string)
    (Hquery : query <> "")
    (Hmax : 1 <= maxRetries s <= 35) :
  let w := (Search TrimSpace QueryEscape client_Get s query []).1 in
  let res := (Search TrimSpace QueryEscape client_Get s query []).2 in
  let total := (2 ^ (maxRetries s - 1) - 1) * GoTime.Second in
  0 <= slept w <= total
  /\ ((exists e, res = inr e) -> slept w = total)
  /\ (maxRetries s = maxRetries New -> total = 3 * GoTime.Second).
Proof.
  intros w res total. unfold w, res, Search.
  destruct (String.eqb_spec query "") as [?|_]; [congruence|].
  set (url := searchURL QueryEscape s query).
  pose proof (Search_attempts_spec client_Get url (Z.to_nat (maxRetries s)) 0) as Hloop.
  change (Z.of_nat 0) with 0 in Hloop.
  change (schedule url 0) with (@nil Event) in Hloop.
  change (last_failure client_Get url 0) with (@None AttemptError) in Hloop.
  specialize (Hloop ltac:(intros k Hk; lia)).
  destruct (Search_attempts _ _ _ _ _ _) as [[w1 doc] lastErr].
  assert (slept (schedule url (Z.to_nat (maxRetries s))) = total) as Htotal.
  { rewrite slept_schedule by lia. unfold total. f_equal. f_equal. f_equal. lia. }
  assert (0 <= total) as Hpos.
  { unfold total. assert (0 < 2 ^ (maxRetries s - 1)) by (apply Z.pow_pos_nonneg; lia).
    unfold GoTime.Second. lia. }
  destruct Hloop as [(j & d & Hj & _ & _ & -> & ->)|(_ & -> & -> & _)];
    cbn [fst snd].
  - split; [|split].
    + rewrite <- Htotal. split.
      * rewrite slept_schedule by lia.
        assert (0 < 2 ^ (Z.of_nat (S j) - 1)) by (apply Z.pow_pos_nonneg; lia).
        unfold GoTime.Second. lia.
      * apply slept_schedule_mono. lia.
    + intros [e H]. discriminate.
    + intros H. unfold total. rewrite H. reflexivity.
  - change (0 + Z.to_nat (maxRetries s))%nat with (Z.to_nat (maxRetries s)).
    rewrite Htotal. split; [lia|]. split; [reflexivity|].
    intros H. unfold total. rewrite H. reflexivity.
Qed.

Lemma Search_sleeps_at_most_witness :
  let s := mkScraper 3 "http://127.0.0.1" in
  ("test" <> "" /\ 1 <= maxRetries s <= 35)
  /\ 0 <= slept (Search id id sample_client_Get s "test" []).1 <= 3 * GoTime.Second.
Proof.
  intros s.
  assert ("test" <> "") as Hquery by discriminate.
  assert (1 <= maxRetries s <= 35) as Hmax by (simpl; lia).
  split; [split; assumption|].
  destruct (Search_sleeps_at_most id id sample_client_Get s "test" Hquery Hmax)
    as (H & _ & _).
  exact H.
Defined.

(** X16: every package that [parseResults] returns has a non-empty import
    path and is not flagged installed; the packages come from one selector
    only, the first in the order [div.SearchSnippet], [article.SearchSnippet],
    snippet titles that yields any, so there are no more of them than that
    selector matched. *)
Theorem parseResults_packages (TrimSpace : string -> string) (doc : Document) :
  let packages := parseResults TrimSpace doc in
  (forall pkg, pkg ∈ packages ->
     ImportPath pkg <> "" /\ IsInstalled pkg = false)
  /\ ((packages = parseSnippets TrimSpace (divSnippets doc) []
       /\ (length packages <= length (divSnippets doc))%nat)
      \/ (parseSnippets TrimSpace (divSnippets doc) [] = []
          /\ packages = parseSnippets TrimSpace (articleSnippets doc) []
          /\ (length packages <= length (articleSnippets doc))%nat)
      \/ (parseSnippets TrimSpace (divSnippets doc) [] = []
          /\ parseSnippets TrimSpace (articleSnippets doc) [] = []
          /\ packages = parseTitles TrimSpace (snippetTitles doc) []
          /\ (length packages <= length (snippetTitles doc))%nat)).
Proof.
  intros packages. unfold packages, parseResults.
  pose proof (parseSnippets_ok TrimSpace (divSnippets doc) [] (List.Forall_nil _)) as H1.
  pose proof (parseSnippets_ok TrimSpace (articleSnippets doc) [] (List.Forall_nil _)) as H2.
  pose proof (parseTitles_ok TrimSpace (snippetTitles doc) [] (List.Forall_nil _)) as H3.
  pose proof (parseSnippets_length TrimSpace (divSnippets doc) []) as L1.
  pose proof (parseSnippets_length TrimSpace (articleSnippets doc) []) as L2.
  pose proof (parseTitles_length TrimSpace (snippetTitles doc) []) as L3.
  simpl in L1, L2, L3.
  destruct (parseSnippets TrimSpace (divSnippets doc) []) as [|p1 r1] eqn:E1.
  - cbn [length Z.of_nat Z.eqb].
    destruct (parseSnippets TrimSpace (articleSnippets doc) []) as [|p2 r2] eqn:E2.
    + cbn [length Z.of_nat Z.eqb]. split.
      * intros pkg Hin. rewrite Forall_forall in H3. apply H3, Hin.
      * right. right. auto.
    + change (Z.of_nat (length (p2 :: r2)) =? 0) with false. cbv iota. split.
      * intros pkg Hin. rewrite Forall_forall in H2. apply H2, Hin.
      * right. left. auto.
  - change (Z.of_nat (length (p1 :: r1)) =? 0) with false. cbv iota. split.
    + intros pkg Hin. rewrite Forall_forall in H1. apply H1, Hin.
    + left. auto.
Qed.

End ScraperRunProps.

(** ** Further properties of the session *)

Module SessionProps.
Import Cache Tui TuiProps.

Ltac step_all :=
  repeat match goal with
         | H : Ok _ = Ok _ |- _ => injection H; clear H; intros; subst
         | H : Panic = Ok _ |- _ => discriminate H
         | H : (_, _) = (_, _) |- _ => injection H; clear H; intros; subst
         | H : bind ?r _ = _ |- _ =>
             destruct r as [?|] eqn:?; [cbn [bind] in H|discriminate H]
         | H : (if ?c then _ else _) = _ |- _ => destruct c eqn:?
         | H : match ?x with _ => _ end = _ |- _ => destruct x eqn:?
         end.

Lemma updateSearchInput_flags o m cmds :
  let m' := (updateSearchInput o m cmds).1 in
  viewState m' = viewState m /\ installing m' = installing m
  /\ commands m' = commands m /\ firstRun m' = firstRun m.
Proof.
  unfold updateSearchInput, debounceSearch.
  destruct (viewState m) eqn:Hv; simpl; try (rewrite Hv; repeat split; auto; fail).
  destruct (_ && _); simpl; [|rewrite Hv; repeat split; auto].
  destruct (negb (inputValue o =? searchInput m)%string); simpl.
  - destruct (inputValue o =? "")%string; simpl; rewrite Hv; repeat split; auto.
  - rewrite Hv. repeat split; auto.
Qed.

Lemma handleSearchKeys_flags o m k m' cmd :
  handleSearchKeys o m k = Ok (m', cmd) ->
  (viewState m' = viewState m \/ viewState m' = ViewOptions)
  /\ installing m' = installing m /\ commands m' = commands m
  /\ (firstRun m' = firstRun m \/ firstRun m' = false)
  /\ quitWithCommands m' = quitWithCommands m
  /\ commandsToPrint m' = commandsToPrint m
  /\ autoRun m' = autoRun m.
Proof.
  unfold handleSearchKeys, toggleHelp, selectAllPackages, addToHistory. intros H.
  step_all; simpl; repeat case_match; simpl; repeat split; auto.
Qed.

Lemma handleOptionsKeys_flags o m k m' cmd :
  handleOptionsKeys o m k = Ok (m', cmd) ->
  (viewState m' = viewState m \/ viewState m' = ViewSearch)
  /\ installing m' = installing m /\ commands m' = commands m
  /\ firstRun m' = firstRun m.
Proof.
  unfold handleOptionsKeys, addToHistory. intros H.
  step_all; simpl; repeat split; auto.
Qed.

Lemma handleCommandsKeys_flags m k :
  let m' := (handleCommandsKeys m k).1 in
  (viewState m' = viewState m \/ viewState m' = ViewSearch)
  /\ installing m' = installing m
  /\ (commands m' = commands m \/ commands m' = [])
  /\ firstRun m' = firstRun m.
Proof.
  unfold handleCommandsKeys. repeat case_match; simpl; repeat split; auto.
Qed.

Lemma handleSearchResults_flags m packages fromCache err :
  let m' := handleSearchResults m packages fromCache err in
  viewState m' = viewState m /\ installing m' = installing m
  /\ commands m' = commands m /\ firstRun m' = firstRun m
  /\ quitWithCommands m' = quitWithCommands m
  /\ commandsToPrint m' = commandsToPrint m
  /\ autoRun m' = autoRun m.
Proof.
  unfold handleSearchResults. repeat case_match; simpl; repeat split; auto.
Qed.

Section WithProbe.

Variable checkInstalled : Packages.Manager -> string -> bool.

Lemma Update_views o m msg m' cmds :
  Update checkInstalled o m msg = Ok (m', cmds) -> views_ok m -> views_ok m'.
Proof.
  intros H (Hview & Hinst & Hcmds & Hfirst).
  assert (forall m1 cs,
            (viewState m1 = ViewSearch \/ viewState m1 = ViewOptions) ->
            installing m1 = false -> commands m1 = [] -> firstRun m1 = false ->
            Ok (updateSearchInput o m1 cs) = Ok (m', cmds) -> views_ok m') as Hend.
  { intros m1 cs H1 H2 H3 H4 [= E].
    pose proof (updateSearchInput_flags o m1 cs) as F. rewrite E in F.
    simpl in F. destruct F as (F1 & F2 & F3 & F4). unfold views_ok.
    rewrite F1, F2, F3, F4. repeat split; assumption. }
  unfold Update in H. destruct msg as [w h|k|packages fromCache err|message done|err| |].
  - refine (Hend _ _ _ _ _ _ H); simpl; auto.
  - destruct Hview as [Hv|Hv]; rewrite Hv in H.
    + destruct (showHelp m).
      * injection H as <- _. repeat split; simpl; auto.
      * destruct (handleSearchKeys o m k) as [[m1 cmd]|] eqn:E; [|discriminate].
        cbn [bind] in H.
        destruct (handleSearchKeys_flags o m k m1 cmd E)
          as (V & I & C & F & _).
        assert (viewState m1 = ViewSearch \/ viewState m1 = ViewOptions) as V'
          by (destruct V as [V|V]; [left; congruence|right; exact V]).
        assert (firstRun m1 = false) as F' by (destruct F; congruence).
        apply (Hend m1 _ V' (eq_trans I Hinst) (eq_trans C Hcmds) F' H).
    + destruct (handleOptionsKeys o m k) as [[m1 cmd]|] eqn:E; [|discriminate].
      cbn [bind] in H.
      destruct (handleOptionsKeys_flags o m k m1 cmd E) as (V & I & C & F).
      assert (viewState m1 = ViewSearch \/ viewState m1 = ViewOptions) as V'
        by (destruct V as [V|V]; [right; congruence|left; exact V]).
      apply (Hend m1 _ V' (eq_trans I Hinst) (eq_trans C Hcmds)
               (eq_trans F Hfirst) H).
  - pose proof (handleSearchResults_flags m packages fromCache err)
      as (V & I & C & F & _).
    assert (viewState (handleSearchResults m packages fromCache err) = ViewSearch
            \/ viewState (handleSearchResults m packages fromCache err) = ViewOptions)
      as V' by (destruct Hview; [left|right]; congruence).
    apply (Hend _ _ V' (eq_trans I Hinst) (eq_trans C Hcmds) (eq_trans F Hfirst) H).
  - refine (Hend _ _ _ _ _ _ H); destruct done; simpl;
      try destruct (Packages.MarkInstalledPackages _ _ _); simpl; auto.
  - refine (Hend _ _ _ _ _ _ H); simpl; auto.
  - apply (Hend _ _ Hview Hinst Hcmds Hfirst H).
  - apply (Hend _ _ Hview Hinst Hcmds Hfirst H).
Qed.

Lemma reachable_views m : reachable checkInstalled m -> views_ok m.
Proof.
  induction 1 as [pm|m o msg m' cmds _ IH _ Hupd].
  - repeat split; auto.
  - eapply Update_views; eassumption.
Qed.

End WithProbe.

(** X17: a session only ever shows the search view (with or without the
    help) and the options dialog: in every state the view is one of these
    two, no installation is in progress, no command list is held and the
    welcome screen is off; so the installing view, the commands view and
    their key handler are never entered. *)
Theorem session_views
    (checkInstalled : Packages.Manager -> string -> bool) (m : Model)
    (Hreach : reachable checkInstalled m) :
  (viewState m = ViewSearch \/ viewState m = ViewOptions)
  /\ installing m = false /\ commands m = [] /\ firstRun m = false
  /\ (forall o msg m' cmds, Update checkInstalled o m msg = Ok (m', cmds) ->
        viewState m' <> ViewInstalling /\ viewState m' <> ViewCommands
        /\ viewState m' <> ViewHelp).
Proof.
  pose proof (reachable_views checkInstalled m Hreach) as Hm.
  destruct Hm as (Hv & Hi & Hc & Hf). repeat split; try assumption;
    pose proof (Update_views checkInstalled o m msg m' cmds H
                  (conj Hv (conj Hi (conj Hc Hf)))) as ([V|V] & _);
    congruence.
Qed.

Lemma session_views_witness :
  let m := sample_state [sample_enter] in
  reachable sample_checkInstalled m
  /\ viewState m = ViewOptions
  /\ installing m = false /\ commands m = [] /\ firstRun m = false.
Proof.
  intros m.
  assert (reachable sample_checkInstalled m) as Hreach
    by apply sample_state_reachable, sample_enter_ok.
  split; [exact Hreach|]. split; [reflexivity|].
  destruct (session_views sample_checkInstalled m Hreach) as (_ & Hi & Hc & Hf & _).
  repeat split; assumption.
Defined.


Lemma GetInstallCommand_prefix selected :
  Packages.GetInstallCommand selected <> "" ->
  GoString.HasPrefix (Packages.GetInstallCommand selected) "go get " = true.
Proof.
  rewrite PackagesProps.GetInstallCommand_eq.
  destruct (Packages.not_installed selected); [congruence|]. intros _.
  apply StringFacts.prefix_app. eexists. reflexivity.
Qed.

Lemma handleOptionsKeys_quit o m k m' cmd :
  handleOptionsKeys o m k = Ok (m', cmd) ->
  (quitWithCommands m' = quitWithCommands m
   /\ commandsToPrint m' = commandsToPrint m /\ autoRun m' = autoRun m)
  \/ (quitWithCommands m' = true
      /\ (exists command, commandsToPrint m' = [command]
            /\ GoString.HasPrefix command "go get " = true)
      /\ cmd = Some Quit /\ viewState m' = viewState m).
Proof.
  unfold handleOptionsKeys, addToHistory. intros H.
  step_all; simpl; try (left; repeat split; reflexivity);
    right; (split; [reflexivity|]); (split; [|split; reflexivity]);
    eexists; (split; [reflexivity|]); apply GetInstallCommand_prefix;
    match goal with
    | E : negb (?c =? "")%string = true |- _ =>
        apply negb_true_iff, String.eqb_neq in E; exact E
    end.
Qed.

Lemma tail_no_quit o m1 cs m' cmds :
  Ok (updateSearchInput o m1 cs) = Ok (m', cmds) -> Quit ∈ cmds -> Quit ∈ cs.
Proof.
  intros [= E] Hq. pose proof (updateSearchInput_keeps o m1 cs) as K.
  rewrite E in K. simpl in K. destruct K as (_ & _ & _ & _ & _ & _ & K).
  exact (K Quit Hq eq_refl).
Qed.

Section WithProbeQuit.

Variable checkInstalled : Packages.Manager -> string -> bool.

Lemma Update_quit o m msg m' cmds :
  Update checkInstalled o m msg = Ok (m', cmds) ->
  (quitWithCommands m' = quitWithCommands m
   /\ commandsToPrint m' = commandsToPrint m /\ autoRun m' = autoRun m)
  \/ (quitWithCommands m' = true
      /\ (exists command, commandsToPrint m' = [command]
            /\ GoString.HasPrefix command "go get " = true)
      /\ Quit ∈ cmds /\ viewState m = ViewOptions).
Proof.
  intros H.
  assert (forall m1 cs,
            quitWithCommands m1 = quitWithCommands m ->
            commandsToPrint m1 = commandsToPrint m -> autoRun m1 = autoRun m ->
            Ok (updateSearchInput o m1 cs) = Ok (m', cmds) ->
            quitWithCommands m' = quitWithCommands m
            /\ commandsToPrint m' = commandsToPrint m /\ autoRun m' = autoRun m)
    as Hend.
  { intros m1 cs H1 H2 H3 [= E].
    pose proof (updateSearchInput_keeps o m1 cs) as F. rewrite E in F.
    simpl in F. destruct F as (_ & _ & _ & F1 & F2 & F3 & _).
    rewrite F1, F2, F3. auto. }
  unfold Update in H. destruct msg as [w h|k|packages fromCache err|message done|err| |].
  - left. refine (Hend _ _ _ _ _ H); reflexivity.
  - destruct (viewState m) eqn:Hv.
    + destruct (showHelp m).
      * injection H as <- _. left. repeat split.
      * destruct (handleSearchKeys o m k) as [[m1 cmd]|] eqn:E; [|discriminate].
        cbn [bind] in H.
        destruct (handleSearchKeys_flags o m k m1 cmd E)
          as (_ & _ & _ & _ & Q1 & Q2 & Q3).
        left. exact (Hend m1 _ Q1 Q2 Q3 H).
    + destruct (handleOptionsKeys o m k) as [[m1 cmd]|] eqn:E; [|discriminate].
      cbn [bind] in H.
      destruct (handleOptionsKeys_quit o m k m1 cmd E)
        as [(Q1 & Q2 & Q3)|(Q & C & -> & V)].
      * left. exact (Hend m1 _ Q1 Q2 Q3 H).
      * rewrite updateSearchInput_options in H by congruence.
        injection H as <- <-. right. repeat split; try assumption. left.
    + left. refine (Hend _ _ _ _ _ H); reflexivity.
    + destruct (handleCommandsKeys m k) as [m1 cmd] eqn:E.
      left. refine (Hend m1 _ _ _ _ H);
        unfold handleCommandsKeys in E; step_all; reflexivity.
    + left. refine (Hend _ _ _ _ _ H); reflexivity.
  - pose proof (handleSearchResults_flags m packages fromCache err)
      as (_ & _ & _ & _ & Q1 & Q2 & Q3).
    left. exact (Hend _ _ Q1 Q2 Q3 H).
  - left. refine (Hend _ _ _ _ _ H); destruct done; simpl;
      try destruct (Packages.MarkInstalledPackages _ _ _); reflexivity.
  - left. refine (Hend _ _ _ _ _ H); reflexivity.
  - left. refine (Hend _ _ _ _ _ H); reflexivity.
  - left. refine (Hend _ _ _ _ _ H); reflexivity.
Qed.

Lemma reachable_quit m : reachable checkInstalled m -> quit_ok m.
Proof.
  induction 1 as [pm|m o msg m' cmds _ IH _ Hupd].
  - split; reflexivity.
  - destruct (Update_quit o m msg m' cmds Hupd)
      as [(Q1 & Q2 & Q3)|(Q & C & _)]; unfold quit_ok in *.
    + rewrite Q1, Q2, Q3. exact IH.
    + rewrite Q. exact C.
Qed.

End WithProbeQuit.

(** X18: what a session leaves for [main].  As long as no command has been
    asked for, the list of commands to print is empty and auto-run is off;
    once one has, the list holds exactly one command, a [go get] line.  The
    flag is never taken back, and the [Update] that sets it, or that
    replaces the command, is a key of the options dialog and hands back
    [tea.Quit]. *)
Theorem session_quit
    (checkInstalled : Packages.Manager -> string -> bool) (m : Model)
    (Hreach : reachable checkInstalled m) :
  (if ShouldPrintCommands m
   then exists command,
          GetCommandsToPrint m = [command]
          /\ GoString.HasPrefix command "go get " = true
   else GetCommandsToPrint m = [] /\ ShouldAutoRun m = false)
  /\ (forall o msg m' cmds, Update checkInstalled o m msg = Ok (m', cmds) ->
        (ShouldPrintCommands m = true -> ShouldPrintCommands m' = true)
        /\ (ShouldPrintCommands m' <> ShouldPrintCommands m
            \/ GetCommandsToPrint m' <> GetCommandsToPrint m
            \/ ShouldAutoRun m' <> ShouldAutoRun m ->
            Quit ∈ cmds /\ viewState m = ViewOptions
            /\ exists k, msg = Key k)).
Proof.
  split; [exact (reachable_quit checkInstalled m Hreach)|].
  intros o msg m' cmds H.
  unfold ShouldPrintCommands, GetCommandsToPrint, ShouldAutoRun.
  destruct (Update_quit checkInstalled o m msg m' cmds H)
    as [(Q1 & Q2 & Q3)|(Q & _ & Hq & Hv)].
  - split; [congruence|]. intros [?|[?|?]]; congruence.
  - split; [auto|]. intros _. split; [exact Hq|]. split; [exact Hv|].
    destruct msg as [w h|k|packages fromCache err|message done|err| |];
      try (exists k; reflexivity); exfalso;
      unfold Update in H; apply tail_no_quit in H; try exact Hq;
      try (inversion H; fail).
    apply list_elem_of_singleton in H. discriminate.
Qed.

Lemma session_quit_witness :
  let m := sample_state [sample_enter; sample_download] in
  reachable sample_checkInstalled m
  /\ ShouldPrintCommands m = true
  /\ exists command,
       GetCommandsToPrint m = [command]
       /\ GoString.HasPrefix command "go get " = true.
Proof.
  intros m.
  assert (reachable sample_checkInstalled m) as Hreach
    by (apply sample_state_reachable; sample_run_ok).
  split; [exact Hreach|]. split; [reflexivity|].
  pose proof (proj1 (session_quit sample_checkInstalled m Hreach)) as H.
  change (ShouldPrintCommands m) with true in H. exact H.
Defined.

End SessionProps.

(** ** Properties of what the views compute *)

Module ViewProps.
Import Cache Tui TuiProps StringFacts.

Lemma wrap64_small z :
  - 2 ^ 63 <= z < 2 ^ 63 -> GoTime.wrap64 z = z.
Proof.
  intros H. unfold GoTime.wrap64.
  change (2 ^ 63) with 9223372036854775808 in *.
  change (2 ^ 64) with 18446744073709551616.
  rewrite Z.mod_small by lia. lia.
Qed.

Lemma wrap64_range z : - 2 ^ 63 <= GoTime.wrap64 z < 2 ^ 63.
Proof.
  unfold GoTime.wrap64.
  change (2 ^ 63) with 9223372036854775808.
  change (2 ^ 64) with 18446744073709551616.
  pose proof (Z.mod_pos_bound (z + 9223372036854775808) 18446744073709551616).
  lia.
Qed.

Lemma quot4_bound h : - 2 ^ 63 <= h < 2 ^ 63 -> Z.quot h 4 < 2 ^ 61.
Proof.
  intros H. change (2 ^ 63) with 9223372036854775808 in H.
  change (2 ^ 61) with 2305843009213693952.
  destruct (Z.le_gt_cases 0 h) as [Hpos|Hneg].
  - rewrite Z.quot_div_nonneg by lia.
    apply Z.div_lt_upper_bound; lia.
  - pose proof (Z.quot_le_mono h 0 4 ltac:(lia) ltac:(lia)) as Hq.
    rewrite Z.quot_0_l in Hq by lia. lia.
Qed.

Lemma elem_of_count_from n : forall i idx,
  idx ∈ count_from i n <-> i <= idx < i + Z.of_nat n.
Proof.
  induction n as [|n IH]; intros i idx; simpl.
  - split; [intros H; inversion H|lia].
  - rewrite elem_of_cons, IH. lia.
Qed.

Lemma length_count_from n i : length (count_from i n) = n.
Proof. revert i. induction n as [|n IH]; intros i; simpl; [|rewrite IH]; reflexivity. Qed.

(** X21: in every state of a session whose result list is shorter than
    [2^62], [getVisibleItems] returns without panic a run of consecutive
    indices of the result list: as many as the list has, or as fit the
    window ([(height - 15) / 4], at least 1) when that is fewer.  While the
    list is not empty the cursor is among them, so the row under the cursor
    is always drawn and [renderPackageItem] never reads outside the
    list. *)
Theorem getVisibleItems_spec
    (checkInstalled : Packages.Manager -> string -> bool) (m : Model)
    (Hreach : reachable checkInstalled m)
    (Hlen : slice_len (packages m) < 2 ^ 62) :
  let maxVisible := Z.max 1 (Z.quot (GoTime.wrap64 (height m - 15)) 4) in
  let n := Z.min (slice_len (packages m)) maxVisible in
  exists start,
    getVisibleItems m = Ok (count_from start (Z.to_nat n))
    /\ 0 <= start /\ start + n <= slice_len (packages m)
    /\ (packages m <> [] -> start <= cursor m < start + n)
    /\ (forall idx, idx ∈ count_from start (Z.to_nat n) ->
          exists pkg, index (packages m) idx = Ok pkg).
Proof.
  intros maxVisible n.
  destruct (reachable_ok _ _ Hreach) as [[Hc0 Hc] _].
  assert (0 <= slice_len (packages m)) as Hlen0 by (unfold slice_len; lia).
  assert (forall start,
            0 <= start -> start + n <= slice_len (packages m) -> 0 <= n ->
            forall idx, idx ∈ count_from start (Z.to_nat n) ->
              exists pkg, index (packages m) idx = Ok pkg) as Hidx.
  { intros start H0 H1 Hn idx Hin. apply elem_of_count_from in Hin.
    destruct (index_in_range (packages m) idx) as (pkg & Hp & _); [lia|eauto]. }
  unfold getVisibleItems.
  pose proof (wrap64_range (height m - 15)) as Hh.
  pose proof (quot4_bound _ Hh) as Hq.
  set (q := Z.quot (GoTime.wrap64 (height m - 15)) 4) in *.
  set (mv := if q <? 1 then 1 else q).
  assert (mv = maxVisible) as Hmv
    by (unfold mv, maxVisible; fold q; destruct (Z.ltb_spec q 1); lia).
  assert (1 <= mv < 2 ^ 61) as Hmvr
    by (unfold mv; destruct (Z.ltb_spec q 1); lia).
  change (2 ^ 61) with 2305843009213693952 in Hmvr.
  change (2 ^ 62) with 4611686018427387904 in Hlen.
  assert (forall z, - 4611686018427387904 <= z < 2 * 4611686018427387904 ->
                    GoTime.wrap64 z = z) as Hw
    by (intros z Hz; apply wrap64_small;
        change (2 ^ 63) with 9223372036854775808; lia).
  rewrite (Hw (slice_len (packages m) - 0)) by lia.
  rewrite Z.sub_0_r.
  destruct (Z.ltb_spec mv (slice_len (packages m))) as [Hlt|Hge].
  - assert (packages m <> []) as Hne
      by (intros E; rewrite E in Hlt; unfold slice_len in Hlt; simpl in Hlt; lia).
    specialize (Hc Hne).
    assert (Z.quot mv 2 = mv / 2) as Hhalf by (apply Z.quot_div_nonneg; lia).
    rewrite Hhalf.
    assert (0 <= mv / 2 < mv) as Hhr
      by (split; [apply Z.div_pos; lia|apply Z.div_lt_upper_bound; lia]).
    rewrite (Hw (cursor m - mv / 2)) by lia.
    set (s1 := if cursor m - mv / 2 <? 0 then 0 else cursor m - mv / 2).
    assert (0 <= s1 <= cursor m /\ cursor m < s1 + mv) as Hs1
      by (unfold s1; destruct (Z.ltb_spec (cursor m - mv / 2) 0); lia).
    rewrite (Hw (s1 + mv)) by lia.
    assert (n = mv) as Hn by (unfold n; lia).
    destruct (Z.ltb_spec (slice_len (packages m)) (s1 + mv)) as [Hover|Hfit].
    + rewrite (Hw (slice_len (packages m) - mv)) by lia.
      destruct (Z.ltb_spec (slice_len (packages m) - mv) 0) as [?|_]; [lia|].
      rewrite (Hw (slice_len (packages m) - (slice_len (packages m) - mv))) by lia.
      replace (slice_len (packages m) - (slice_len (packages m) - mv)) with mv by lia.
      destruct (Z.ltb_spec mv 0) as [?|_]; [lia|].
      exists (slice_len (packages m) - mv). rewrite Hn.
      split; [reflexivity|]. split; [lia|]. split; [lia|]. split; [lia|].
      rewrite <- Hn. apply Hidx; lia.
    + rewrite (Hw (s1 + mv - s1)) by lia.
      replace (s1 + mv - s1) with mv by lia.
      destruct (Z.ltb_spec mv 0) as [?|_]; [lia|].
      exists s1. rewrite Hn.
      split; [reflexivity|]. split; [lia|]. split; [lia|]. split; [lia|].
      rewrite <- Hn. apply Hidx; lia.
  - rewrite (Hw (slice_len (packages m) - 0)) by lia. rewrite Z.sub_0_r.
    destruct (Z.ltb_spec (slice_len (packages m)) 0) as [?|_]; [lia|].
    assert (n = slice_len (packages m)) as Hn by (unfold n; lia).
    exists 0. rewrite Hn.
    split; [reflexivity|]. split; [lia|]. split; [lia|].
    split; [intros Hne; specialize (Hc Hne); lia|].
    rewrite <- Hn. apply Hidx; lia.
Qed.

Lemma getVisibleItems_spec_witness :
  let m := sample_state [sample_resize] in
  (reachable sample_checkInstalled m /\ slice_len (packages m) < 2 ^ 62)
  /\ cursor m = 1 /\ height m = 19
  /\ getVisibleItems m = Ok [1]
  /\ exists start,
       getVisibleItems m = Ok (count_from start 1)
       /\ (packages m <> [] -> start <= cursor m < start + 1).
Proof.
  intros m.
  assert (reachable sample_checkInstalled m) as Hreach
    by (apply sample_state_reachable; sample_run_ok).
  assert (slice_len (packages m) < 2 ^ 62) as Hlen by (vm_compute; reflexivity).
  split; [split; assumption|]. split; [reflexivity|]. split; [reflexivity|].
  split; [reflexivity|].
  destruct (getVisibleItems_spec sample_checkInstalled m Hreach Hlen)
    as (start & Hget & _ & _ & Hcur & _).
  exists start. split; [exact Hget|exact Hcur].
Defined.

Lemma take_bytes_spec text : forall n,
  (n <= String.length text)%nat ->
  String.length (take_bytes n text) = n
  /\ exists rest, text = take_bytes n text +:+ rest.
Proof.
  induction text as [|a text IH]; intros n Hn.
  - simpl in Hn. assert (n = 0%nat) as -> by lia. split; [reflexivity|].
    exists "". reflexivity.
  - destruct n as [|n]; simpl.
    + split; [reflexivity|]. eexists. reflexivity.
    + destruct (IH n) as (Hl & rest & Hr); [simpl in Hn; lia|].
      split; [lia|]. exists rest. rewrite str_app_cons, <- Hr. reflexivity.
Qed.

(** X22: [TruncateText] panics exactly when the width is negative.  For a
    width of 0 or more it returns a text that fits, with as many bytes as
    the smaller of the width and the length of the text: the text itself
    when it fits; its first bytes when the width is at most 3; and
    otherwise its first [maxWidth - 3] bytes followed by three dots. *)
Theorem TruncateText_spec (text : string) (maxWidth : Z) :
  (maxWidth < 0 <-> TruncateText text maxWidth = Panic)
  /\ (0 <= maxWidth ->
      exists out,
        TruncateText text maxWidth = Ok out
        /\ GoString.len out = Z.min (GoString.len text) maxWidth
        /\ (GoString.len text <= maxWidth -> out = text)
        /\ (maxWidth < GoString.len text -> maxWidth <= 3 ->
            exists rest, text = out +:+ rest)
        /\ (maxWidth < GoString.len text -> 3 < maxWidth ->
            exists head rest,
              out = head +:+ "..." /\ text = head +:+ rest
              /\ GoString.len head = maxWidth - 3)).
Proof.
  assert (0 <= GoString.len text) as Hlen by (unfold GoString.len; lia).
  assert (0 <= maxWidth ->
      exists out,
        TruncateText text maxWidth = Ok out
        /\ GoString.len out = Z.min (GoString.len text) maxWidth
        /\ (GoString.len text <= maxWidth -> out = text)
        /\ (maxWidth < GoString.len text -> maxWidth <= 3 ->
            exists rest, text = out +:+ rest)
        /\ (maxWidth < GoString.len text -> 3 < maxWidth ->
            exists head rest,
              out = head +:+ "..." /\ text = head +:+ rest
              /\ GoString.len head = maxWidth - 3)) as Hok.
  { intros Hw. unfold TruncateText.
    destruct (Z.leb_spec (GoString.len text) maxWidth) as [Hfit|Hcut].
    - exists text. split; [reflexivity|]. split; [lia|]. split; [auto|].
      split; intros; lia.
    - destruct (Z.leb_spec maxWidth 3) as [Hsmall|Hbig]; unfold slice_to.
      + destruct (Z.ltb_spec maxWidth 0) as [?|_]; [lia|].
        destruct (Z.ltb_spec (GoString.len text) maxWidth) as [?|_]; [lia|].
        cbn [orb].
        destruct (take_bytes_spec text (Z.to_nat maxWidth)) as (Hl & rest & Hr);
          [unfold GoString.len in Hcut; lia|].
        eexists. split; [reflexivity|].
        split; [unfold GoString.len; rewrite Hl; unfold GoString.len in Hcut; lia|].
        split; [lia|]. split; [intros _ _; exists rest; exact Hr|lia].
      + destruct (Z.ltb_spec (maxWidth - 3) 0) as [?|_]; [lia|].
        destruct (Z.ltb_spec (GoString.len text) (maxWidth - 3)) as [?|_]; [lia|].
        cbn [orb bind].
        destruct (take_bytes_spec text (Z.to_nat (maxWidth - 3)))
          as (Hl & rest & Hr); [unfold GoString.len in Hcut; lia|].
        eexists. split; [reflexivity|]. split.
        { unfold GoString.len. rewrite str_app_length, Hl. simpl.
          unfold GoString.len in Hcut. lia. }
        split; [lia|]. split; [lia|]. intros _ _.
        eexists _, rest. split; [reflexivity|]. split; [exact Hr|].
        unfold GoString.len. rewrite Hl. lia. }
  split; [|exact Hok]. split.
  - intros Hneg. unfold TruncateText.
    destruct (Z.leb_spec (GoString.len text) maxWidth) as [?|_]; [lia|].
    destruct (Z.leb_spec maxWidth 3) as [_|?]; [|lia].
    unfold slice_to. destruct (Z.ltb_spec maxWidth 0) as [_|?]; [reflexivity|lia].
  - intros Hp. destruct (Z.lt_ge_cases maxWidth 0) as [?|Hw]; [assumption|].
    destruct (Hok Hw) as (out & Ho & _). congruence.
Qed.

End ViewProps.

(** ** Properties of the terminal injection and of the end of [main] *)

Module TermProps.
Import Term StringFacts.

Lemma inject_loop_spec ioctl_ok command : forall typed,
  exists done rest,
    command = done +:+ rest
    /\ (inject_loop ioctl_ok command typed).1 = typed +:+ done
    /\ match (inject_loop ioctl_ok command typed).2 with
       | None => rest = ""
       | Some e =>
           e = ErrInjectInput /\ rest <> ""
           /\ ioctl_ok (String.length (typed +:+ done)) = false
       end
    /\ (forall n, (String.length typed <= n < String.length (typed +:+ done))%nat ->
          ioctl_ok n = true).
Proof.
  induction command as [|b command IH]; intros typed.
  - exists "", "". simpl. rewrite (str_app_nil_r typed).
    split; [reflexivity|]. split; [reflexivity|]. split; [reflexivity|].
    intros n Hn. lia.
  - simpl. destruct (ioctl_ok (String.length typed)) eqn:Eok.
    + destruct (IH (typed +:+ String b "")) as (done & rest & -> & Ht & He & Hn).
      exists (String b done), rest. rewrite str_app_assoc in Ht, He, Hn.
      change (String b "" +:+ done) with (String b done) in Ht, He, Hn.
      split; [reflexivity|]. split; [exact Ht|]. split; [exact He|].
      intros n Hlt. destruct (Nat.eq_dec n (String.length typed)) as [->|Hne];
        [exact Eok|].
      apply Hn. rewrite str_app_length. simpl. lia.
    + exists "", (String b command). simpl. rewrite (str_app_nil_r typed).
      split; [reflexivity|]. split; [reflexivity|].
      split; [split; [reflexivity|split; [discriminate|exact Eok]]|].
      intros n Hn. lia.
Qed.

Lemma InjectCommandToTTY_prefix tty_opens ioctl_ok command pressEnter :
  let typed := (InjectCommandToTTY tty_opens ioctl_ok command pressEnter).1 in
  let err := (InjectCommandToTTY tty_opens ioctl_ok command pressEnter).2 in
  let full := command +:+ (if pressEnter then newline else "") in
  (exists rest, full = typed +:+ rest) /\ (err = None -> typed = full).
Proof.
  intros typed err full. unfold typed, err, InjectCommandToTTY.
  destruct tty_opens; cbn [negb];
    [|split; [exists full; reflexivity|discriminate]].
  destruct (inject_loop_spec ioctl_ok command "") as (done & rest & Hc & Ht & He & _).
  destruct (inject_loop ioctl_ok command "") as [t e]. cbn [fst snd] in *.
  change ("" +:+ done) with done in *. subst t.
  destruct e as [e|]; cbn [fst snd].
  - split; [|discriminate].
    exists (rest +:+ (if pressEnter then newline else "")).
    unfold full. rewrite Hc, str_app_assoc. reflexivity.
  - subst rest. rewrite str_app_nil_r in Hc. subst done.
    destruct pressEnter; [destruct (ioctl_ok _)|]; cbn [fst snd].
    + split; [exists ""; rewrite str_app_nil_r|]; reflexivity.
    + split; [exists newline; reflexivity|discriminate].
    + unfold full. rewrite str_app_nil_r.
      split; [exists ""; rewrite str_app_nil_r|]; reflexivity.
Qed.

(** X19: [InjectCommandToTTY] types a prefix of the command followed, when
    asked for, by a newline, byte by byte in order: all of it when it
    returns no error; nothing when the terminal cannot be opened; the bytes
    before the first failing one otherwise, which stay typed.  The newline
    is typed only after the whole command, and only when [pressEnter] is
    set. *)
Theorem InjectCommandToTTY_spec
    (tty_opens : bool) (ioctl_ok : nat -> bool)
    (command : string) (pressEnter : bool) :
  let typed := (InjectCommandToTTY tty_opens ioctl_ok command pressEnter).1 in
  let err := (InjectCommandToTTY tty_opens ioctl_ok command pressEnter).2 in
  let full := command +:+ (if pressEnter then newline else "") in
  (exists rest, full = typed +:+ rest)
  /\ match err with
     | None => typed = full /\ tty_opens = true
     | Some ErrOpenTTY => typed = "" /\ tty_opens = false
     | Some ErrInjectInput =>
         (exists b rest, command = typed +:+ String b rest)
         /\ ioctl_ok (String.length typed) = false
     | Some ErrInjectEnter =>
         typed = command /\ pressEnter = true
         /\ ioctl_ok (String.length typed) = false
     end
  /\ (forall n, (n < String.length typed)%nat -> ioctl_ok n = true)
  /\ (tty_opens = true ->
      (forall n, (n < String.length full)%nat -> ioctl_ok n = true) ->
      typed = full /\ err = None).
Proof.
  intros typed err full. unfold typed, err, InjectCommandToTTY.
  destruct tty_opens; cbn [negb].
  2:{ cbn [fst snd]. split; [exists full; reflexivity|].
      repeat split; try discriminate. intros n. simpl. lia. }
  destruct (inject_loop_spec ioctl_ok command "") as (done & rest & Hc & Ht & He & Hn).
  destruct (inject_loop ioctl_ok command "") as [t e]. cbn [fst snd] in *.
  change ("" +:+ done) with done in *. subst t.
  destruct e as [e|].
  - destruct He as (-> & Hrest & Hfail). cbn [fst snd].
    split; [exists (rest +:+ (if pressEnter then newline else ""));
            unfold full; rewrite Hc, str_app_assoc; reflexivity|].
    split; [split; [|exact Hfail]|].
    { destruct rest as [|b rest]; [congruence|]. exists b, rest. exact Hc. }
    split; [intros n Hlt; apply Hn; simpl; lia|].
    intros _ Hall. exfalso.
    rewrite Hall in Hfail; [discriminate|].
    unfold full. rewrite Hc, !str_app_length.
    destruct rest; [congruence|]. simpl. lia.
  - subst rest. rewrite str_app_nil_r in Hc. subst done.
    destruct pressEnter.
    + destruct (ioctl_ok (String.length command)) eqn:Eok; cbn [fst snd].
      * split; [exists ""; rewrite str_app_nil_r; reflexivity|].
        split; [split; reflexivity|]. split; [|auto].
        intros n Hlt. rewrite str_app_length in Hlt. simpl in Hlt.
        destruct (Nat.eq_dec n (String.length command)) as [->|Hne];
          [exact Eok|].
        apply Hn. simpl. lia.
      * split; [exists newline; reflexivity|].
        split; [repeat split; exact Eok|].
        split; [intros n Hlt; apply Hn; simpl; lia|].
        intros _ Hall. exfalso. rewrite Hall in Eok; [discriminate|].
        unfold full. rewrite str_app_length. simpl. lia.
    + cbn [fst snd]. unfold full. rewrite str_app_nil_r.
      split; [exists ""; rewrite str_app_nil_r; reflexivity|].
      split; [split; reflexivity|]. split; [|auto].
      intros n Hlt. apply Hn. simpl. lia.
Qed.

Example InjectCommandToTTY_example :
  InjectCommandToTTY true (fun n => (n <? 5)%nat) "go get x" true
  = ("go ge", Some ErrInjectInput)
  /\ InjectCommandToTTY true (fun _ => true) "go get x" false
     = ("go get x", None).
Proof. split; reflexivity. Qed.

End TermProps.

Module MainProps.
Import Cache Tui TuiProps SessionProps Term StringFacts.

(** X20: what [main] types into the terminal at the end of a session.
    When no command was asked for it types and prints nothing.  Otherwise
    the session holds one [go get] command: [main] types a prefix of it,
    followed by a newline only when the download key set auto-run, and all
    of it when the injection succeeds; when the injection fails it prints
    the command. *)
Theorem finish_types_one_command
    (checkInstalled : Packages.Manager -> string -> bool)
    (tty_opens : bool) (ioctl_ok : nat -> bool) (m : Model)
    (Hreach : reachable checkInstalled m) :
  let typed := (Main.finish tty_opens ioctl_ok m).1 in
  let printed := (Main.finish tty_opens ioctl_ok m).2 in
  if ShouldPrintCommands m
  then exists command rest,
         GetCommandsToPrint m = [command]
         /\ GoString.HasPrefix command "go get " = true
         /\ command +:+ (if ShouldAutoRun m then newline else "") = typed +:+ rest
         /\ ((printed = [] /\ rest = "") \/ printed = [command])
  else typed = "" /\ printed = [] /\ GetCommandsToPrint m = [].
Proof.
  intros typed printed. unfold typed, printed, Main.finish.
  pose proof (reachable_quit checkInstalled m Hreach) as Hq.
  unfold quit_ok in Hq. unfold ShouldPrintCommands, GetCommandsToPrint, ShouldAutoRun.
  destruct (quitWithCommands m).
  - destruct Hq as (command & Hc & Hp). rewrite Hc.
    change (GoString.Join [command] " && ") with command.
    pose proof (TermProps.InjectCommandToTTY_prefix tty_opens ioctl_ok command
                  (autoRun m)) as (Hpre & Herr).
    destruct (InjectCommandToTTY tty_opens ioctl_ok command (autoRun m))
      as [t e]. cbn [fst snd] in *.
    destruct Hpre as [rest Hrest].
    destruct e as [e|]; cbn [fst snd].
    + exists command, rest. repeat split; auto.
    + specialize (Herr eq_refl). exists command, "".
      rewrite str_app_nil_r. repeat split; auto.
  - destruct Hq as [Hc _]. repeat split. exact Hc.
Qed.

Lemma finish_types_one_command_witness :
  let m := sample_state [sample_enter; sample_download] in
  reachable sample_checkInstalled m
  /\ Main.finish true (fun _ => true) m
     = ("go get github.com/spf13/cobra@1.8.0" +:+ newline, [])
  /\ exists command rest,
       GetCommandsToPrint m = [command]
       /\ GoString.HasPrefix command "go get " = true
       /\ command +:+ newline
          = (Main.finish true (fun _ => true) m).1 +:+ rest.
Proof.
  intros m.
  assert (reachable sample_checkInstalled m) as Hreach
    by (apply sample_state_reachable; sample_run_ok).
  split; [exact Hreach|]. split; [reflexivity|].
  pose proof (finish_types_one_command sample_checkInstalled true (fun _ => true)
                m Hreach) as H.
  change (ShouldPrintCommands m) with true in H.
  change (ShouldAutoRun m) with true in H.
  cbv zeta in H. destruct H as (command & rest & Hc & Hp & Ht & _).
  exists command, rest. repeat split; assumption.
Defined.

End MainProps.

(** ** Properties of the search behind the session *)

Module SearchFlowProps.
Import Cache Tui.

Section Flow.

Variable sha256_hex : string -> string.
Variable filepath_Join : string -> string -> string.
Variable json_Unmarshal : string -> option CacheEntry.

Let Get := Cache.Get sha256_hex filepath_Join json_Unmarshal.

(** A look at the cache that finds an entry leaves the directory as it
    is; after one that finds none, the next finds none either, as long as
    the file of the query is as the first look left it. *)
Lemma Get_hit_same c now query fs fs1 entry :
  Get c now query fs = (fs1, Some entry) -> fs1 = fs.
Proof.
  unfold Get, Cache.Get.
  destruct (fs !! _) as [data|]; [|discriminate].
  destruct (json_Unmarshal data) as [e|]; [|discriminate].
  destruct (isExpired c now (Timestamp e)); [discriminate|].
  intros [= <- _]. reflexivity.
Qed.

Lemma Get_miss_again c now now' query fs fs1 fs2 :
  Get c now query fs = (fs1, None) ->
  fs2 !! filepath_Join (dir c) (getFilename sha256_hex query)
  = fs1 !! filepath_Join (dir c) (getFilename sha256_hex query) ->
  Get c now' query fs2 = (fs2, None).
Proof.
  unfold Get, Cache.Get.
  destruct (fs !! _) as [data|] eqn:Efs.
  - destruct (json_Unmarshal data) as [e|] eqn:Edec.
    + destruct (isExpired c now (Timestamp e)); [|discriminate].
      intros [= <-]. rewrite lookup_delete_eq. intros ->. reflexivity.
    + intros [= <-]. rewrite Efs. intros ->. rewrite Edec. reflexivity.
  - intros [= <-]. rewrite Efs. intros ->. reflexivity.
Qed.

End Flow.

(** X23: [performSearch], with [others1] and [others2] standing for what
    the other searches do to the shared cache directory in the meantime.
    When the first look at the cache finds an entry, no request is sent,
    the directory is left as it is, and the message carries the cached
    packages with their flags set anew, marked as cached.  Otherwise it
    searches.  When the search fails, the cache is looked at again, in the
    directory as the other searches have left it by then: if that look
    finds an entry, the message carries its packages, flagged by the
    manager and not marked as cached; if it finds none, the message
    carries the error and the manager is not asked; and it finds none
    whenever the file of the query is still as the first look left it.
    When the search succeeds the message carries the packages found,
    flagged by the manager, not marked as cached, and they are stored in
    the directory as the other searches have left it. *)
Theorem performSearch_spec
    (sha256_hex : string -> string)
    (filepath_Join : string -> string -> string)
    (json_MarshalIndent : CacheEntry -> option string)
    (json_Unmarshal : string -> option CacheEntry)
    (TrimSpace QueryEscape : string -> string)
    (client_Get : nat -> string -> Scraper.Reply)
    (checkInstalled : Packages.Manager -> string -> bool)
    (Error_ : Scraper.search_error -> string)
    (others1 others2 : FS -> FS)
    (c : Cache) (s : Scraper.Scraper) (now1 now2 now3 : Z) (query : string)
    (pm : Packages.Manager) (fs : FS) (w : Scraper.World) :
  let run := performSearch sha256_hex filepath_Join json_MarshalIndent
               json_Unmarshal TrimSpace QueryEscape client_Get checkInstalled
               Error_ others1 others2 c s now1 now2 now3 query pm fs w in
  let path := filepath_Join (dir c) (getFilename sha256_hex query) in
  let look := Cache.Get sha256_hex filepath_Join json_Unmarshal c now1 query fs in
  let found := Scraper.Search TrimSpace QueryEscape client_Get s query w in
  let mark := Packages.MarkInstalledPackages checkInstalled pm in
  match look.2 with
  | Some cached =>
      run = ((mark (Results cached)).1, fs, w,
             searchResultsMsg (mark (Results cached)).2 true None)
  | None =>
      match found.2 with
      | inr err =>
          let again :=
            Cache.Get sha256_hex filepath_Join json_Unmarshal c now2 query
              (others1 look.1) in
          match again.2 with
          | Some cached =>
              again.1 = others1 look.1
              /\ run = ((mark (Results cached)).1, others1 look.1, found.1,
                        searchResultsMsg (mark (Results cached)).2 false None)
          | None =>
              run = (pm, again.1, found.1,
                     searchResultsMsg [] false (Some (Error_ err)))
          end
          /\ (others1 look.1 !! path = look.1 !! path ->
              again = (others1 look.1, None))
      | inl packages =>
          run.1.1.1 = (mark packages).1
          /\ run.1.2 = found.1
          /\ run.2 = searchResultsMsg (mark packages).2 false None
          /\ run.1.1.2
             = (Cache.Set_ sha256_hex filepath_Join json_MarshalIndent c now3
                  query (mark packages).2 (others2 (others1 look.1))).1
      end
  end.
Proof.
  intros run path look found mark. unfold run, performSearch.
  fold look. destruct look as [fs1 [cached|]] eqn:Elook; cbn [fst snd].
  - apply Get_hit_same in Elook as ->.
    fold (mark (Results cached)). destruct (mark (Results cached)). reflexivity.
  - fold found. destruct found as [w1 [packages|err]]; cbn [fst snd].
    + fold (mark packages). destruct (mark packages) as [pm1 marked].
      cbn [fst snd]. destruct (Cache.Set_ _ _ _ _ _ _ _ _) as [fs2 e].
      repeat split.
    + split.
      * destruct (Cache.Get _ _ _ c now2 query (others1 fs1))
          as [fs2 [cached|]] eqn:Eagain; cbn [fst snd]; [|reflexivity].
        apply Get_hit_same in Eagain as ->. split; [reflexivity|].
        fold (mark (Results cached)). destruct (mark (Results cached)).
        reflexivity.
      * intros Hsame.
        exact (Get_miss_again _ _ _ c now1 now2 query fs fs1 (others1 fs1)
                 Elook Hsame).
Qed.

(** X24: a search that went to the network and stored its results is
    answered from the cache when it is repeated, on these conditions:
    [encoding/json] behaves as [encoding_json] says; the first look of the
    first search found nothing, its request succeeded and its entry was
    marshalled; when the second search starts, the file of the query is as
    the first search wrote it and the entry has not expired.  Then the
    second [performSearch] sends no request and leaves the directory as it
    is, whatever the network and the other searches do by then, and its
    message, marked as cached, carries the packages of the first as
    [encoding/json] leaves them, with their flags set anew.  When the
    strings of the packages found are valid UTF-8 and the manager still
    remembers the flags it gave them, these are the same packages with the
    same flags and the manager is left as it is, whatever the machine would
    answer by then. *)
Theorem performSearch_twice
    (sha256_hex : string -> string)
    (filepath_Join : string -> string -> string)
    (json_MarshalIndent : CacheEntry -> option string)
    (json_Unmarshal : string -> option CacheEntry)
    (TrimSpace QueryEscape : string -> string)
    (client_Get client_Get' : nat -> string -> Scraper.Reply)
    (checkInstalled checkInstalled' : Packages.Manager -> string -> bool)
    (Error_ : Scraper.search_error -> string)
    (others1 others2 others1' others2' : FS -> FS)
    (c : Cache) (s : Scraper.Scraper) (now1 now2 now3 : Z) (query : string)
    (pm : Packages.Manager) (fs : FS) (w : Scraper.World)
    (found : list Package)
    (pm1 : Packages.Manager) (fs1 : FS) (w1 : Scraper.World) (msg1 : Msg)
    (later1 later2 later3 : Z)
    (pm2 : Packages.Manager) (fs2 : FS) (w2 : Scraper.World)
    (Hjson : encoding_json json_MarshalIndent json_Unmarshal)
    (Hmiss : (Cache.Get sha256_hex filepath_Join json_Unmarshal c now1 query
                fs).2 = None)
    (Hfound : (Scraper.Search TrimSpace QueryEscape client_Get s query w).2
              = inl found)
    (Hstored : json_MarshalIndent
                 (mkCacheEntry query
                    (Packages.MarkInstalledPackages checkInstalled pm found).2
                    now3) <> None)
    (Hfirst : performSearch sha256_hex filepath_Join json_MarshalIndent
                json_Unmarshal TrimSpace QueryEscape client_Get checkInstalled
                Error_ others1 others2 c s now1 now2 now3 query pm fs w
              = (pm1, fs1, w1, msg1))
    (Hfile : fs2 !! filepath_Join (dir c) (getFilename sha256_hex query)
             = fs1 !! filepath_Join (dir c) (getFilename sha256_hex query))
    (Hfresh : isExpired c later1 now3 = false) :
  let marked := (Packages.MarkInstalledPackages checkInstalled pm found).2 in
  let again :=
    Packages.MarkInstalledPackages checkInstalled' pm2 (json_package <$> marked) in
  let second :=
    performSearch sha256_hex filepath_Join json_MarshalIndent
      json_Unmarshal TrimSpace QueryEscape client_Get' checkInstalled'
      Error_ others1' others2' c s later1 later2 later3 query pm2 fs2 w2 in
  msg1 = searchResultsMsg marked false None
  /\ pm1 = (Packages.MarkInstalledPackages checkInstalled pm found).1
  /\ second = (again.1, fs2, w2, searchResultsMsg again.2 true None)
  /\ (Forall package_valid found ->
      (forall pkg, pkg ∈ marked ->
         Packages.remembered pm2 (ImportPath pkg)
         = Packages.remembered pm1 (ImportPath pkg)) ->
      second = (pm2, fs2, w2, searchResultsMsg marked true None)).
Proof.
  intros marked again second.
  unfold performSearch in Hfirst.
  destruct (Cache.Get _ _ _ c now1 query fs) as [fs0 [cached|]] eqn:Elook;
    [discriminate|]. clear Hmiss.
  destruct (Scraper.Search _ _ _ s query w) as [w0 res]. cbn [snd] in Hfound.
  subst res.
  destruct (Packages.MarkInstalledPackages checkInstalled pm found)
    as [pm0 marked0] eqn:Emark.
  cbn [snd] in Hstored, marked. subst marked. rename marked0 into marked.
  destruct (Cache.Set_ _ _ _ c now3 query marked (others2 (others1 fs0)))
    as [fs3 e] eqn:Eset.
  injection Hfirst as <- <- <- <-.
  assert (e = None) as ->.
  { unfold Cache.Set_ in Eset.
    destruct (json_MarshalIndent _); [|congruence].
    injection Eset as _ <-. reflexivity. }
  destruct (CacheProps.Set_writes_target _ _ _ _ _ _ _ _ _ Eset)
    as (data & Henc & Hfs & _).
  rewrite <- Hfile in Hfs.
  assert (second = (again.1, fs2, w2, searchResultsMsg again.2 true None))
    as Hsecond.
  { unfold second, performSearch.
    rewrite (CacheProps.Get_fresh sha256_hex filepath_Join json_Unmarshal
               c later1 query fs2 data (json_entry (mkCacheEntry query marked now3))
               Hfs (Hjson _ data Henc) Hfresh).
    cbn [json_entry Results]. fold again. destruct again. reflexivity. }
  split; [reflexivity|]. split; [reflexivity|]. split; [exact Hsecond|].
  intros Hvalid Hsame. rewrite Hsecond. unfold again.
  assert (Forall package_valid marked) as Hmarked.
  { apply Forall_lookup_2. intros i pkg Hi.
    destruct (found !! i) as [p|] eqn:Ep.
    - destruct (ManagerProps.MarkInstalledPackages_at checkInstalled found pm i p Ep)
        as (b & Hat & _).
      rewrite Emark in Hat. cbn [snd] in Hat.
      rewrite Hat in Hi. injection Hi as <-.
      exact (Forall_lookup_1 _ _ _ _ Hvalid Ep).
    - apply lookup_ge_None in Ep. apply lookup_lt_Some in Hi.
      pose proof (ManagerProps.MarkInstalledPackages_same_length
                    checkInstalled found pm) as Hlen.
      rewrite Emark in Hlen. cbn [snd] in Hlen. lia. }
  rewrite (CacheProps.json_packages_valid marked Hmarked).
  rewrite ManagerProps.MarkInstalledPackages_fixed; [reflexivity|].
  intros pkg Hin. rewrite (Hsame pkg Hin).
  pose proof (ManagerProps.MarkInstalledPackages_flags checkInstalled found pm pkg)
    as H.
  rewrite Emark in H. apply H, Hin.
Qed.

(** X24 on the sample search: the first goes to the network at a time when
    nothing is cached; by the second the network is down, nothing is
    installed any more and another file has appeared in the directory. *)
Lemma performSearch_twice_witness :
  let c := mkCache "cache" 7 in
  let same := fun fs : FS => fs in
  let first :=
    performSearch id sample_Join standin_MarshalIndent standin_Unmarshal id id
      sample_search_Get sample_probe (fun _ => "") same same c Scraper.New
      1 2 5 "spf13" (Packages.New "") ∅ [] in
  let down := fun (n : nat) (url : string) => Scraper.TransportError "down" in
  let gone := fun (pm : Packages.Manager) (importPath : string) => false in
  let wipe := fun fs : FS => (∅ : FS) in
  let fs2 : FS := <["cache/gin.json" := "gin"]> first.1.1.2 in
  (encoding_json standin_MarshalIndent standin_Unmarshal
   /\ (Cache.Get id sample_Join standin_Unmarshal c 1 "spf13" ∅).2 = None
   /\ (Scraper.Search id id sample_search_Get Scraper.New "spf13" []).2
      = inl [mkPackage "cobra" "github.com/spf13/cobra"
               "A Commander for modern Go CLI interactions" "1.8.0" false;
             mkPackage "viper" "github.com/spf13/viper"
               "Go configuration with fangs" "" false]
   /\ first = (first.1.1.1, first.1.1.2, first.1.2, first.2)
   /\ fs2 !! sample_Join (dir c) (getFilename id "spf13")
      = first.1.1.2 !! sample_Join (dir c) (getFilename id "spf13")
   /\ isExpired c (5 + GoTime.Second) 5 = false)
  /\ first.2 = searchResultsMsg sample_packages false None
  /\ first.1.2 = [Scraper.Request "https://pkg.go.dev/search?q=spf13"]
  /\ performSearch id sample_Join standin_MarshalIndent standin_Unmarshal id id
       down gone (fun _ => "") wipe wipe c Scraper.New (5 + GoTime.Second)
       (6 + GoTime.Second) (7 + GoTime.Second) "spf13"
       first.1.1.1 fs2 first.1.2
     = (first.1.1.1, fs2, first.1.2,
        searchResultsMsg sample_packages true None).
Proof.
  intros c same first down gone wipe fs2.
  set (found := [mkPackage "cobra" "github.com/spf13/cobra"
                   "A Commander for modern Go CLI interactions" "1.8.0" false;
                 mkPackage "viper" "github.com/spf13/viper"
                   "Go configuration with fangs" "" false]).
  assert ((Cache.Get id sample_Join standin_Unmarshal c 1 "spf13" ∅).2 = None)
    as Hmiss by reflexivity.
  assert ((Scraper.Search id id sample_search_Get Scraper.New "spf13" []).2
          = inl found) as Hfound by (vm_compute; reflexivity).
  assert (first = (first.1.1.1, first.1.1.2, first.1.2, first.2)) as Hfirst
    by (destruct first as [[[? ?] ?] ?]; reflexivity).
  assert (fs2 !! sample_Join (dir c) (getFilename id "spf13")
          = first.1.1.2 !! sample_Join (dir c) (getFilename id "spf13")) as Hfile
    by (apply lookup_insert_ne; discriminate).
  assert (isExpired c (5 + GoTime.Second) 5 = false) as Hfresh
    by (vm_compute; reflexivity).
  assert (Forall package_valid found) as Hvalid
    by (repeat constructor; vm_compute; reflexivity).
  split; [auto 10 using CacheProps.standin_encoding_json|].
  destruct (performSearch_twice id sample_Join standin_MarshalIndent
              standin_Unmarshal id id sample_search_Get down sample_probe gone
              (fun _ => "") same same wipe wipe c Scraper.New 1 2 5 "spf13"
              (Packages.New "") ∅ [] found
              first.1.1.1 first.1.1.2 first.1.2 first.2
              (5 + GoTime.Second) (6 + GoTime.Second) (7 + GoTime.Second)
              first.1.1.1 fs2 first.1.2
              CacheProps.standin_encoding_json Hmiss Hfound
              ltac:(discriminate) Hfirst Hfile Hfresh)
    as (Hmsg & _ & _ & Hsecond).
  split; [rewrite Hmsg; vm_compute; reflexivity|].
  split; [vm_compute; reflexivity|].
  rewrite (Hsecond Hvalid (fun pkg _ => eq_refl)).
  vm_compute. reflexivity.
Defined.

End SearchFlowProps.

(** ** Properties of the selection and of the keys that use it *)

Module SelectionProps.
Import Cache Tui TuiProps SessionProps ViewProps.

Lemma selected_at_Some m idx pkg :
  selected_at m idx = Some pkg <->
  selected m !! idx = Some true /\ 0 <= idx < slice_len (packages m)
  /\ packages m !! Z.to_nat idx = Some pkg.
Proof.
  unfold selected_at, isSelected.
  destruct (selected m !! idx) as [[|]|]; simpl.
  - destruct (Z.leb_spec 0 idx); simpl; [|split; [discriminate|lia]].
    destruct (Z.ltb_spec idx (slice_len (packages m)));
      [|split; [discriminate|lia]].
    split; [intros Hp; repeat split; auto; lia|intros (_ & _ & Hp); exact Hp].
  - split; [discriminate|intros (E & _); discriminate].
  - split; [discriminate|intros (E & _); discriminate].
Qed.

Lemma range_order_elem selected order idx :
  range_order selected order -> idx ∈ order <-> is_Some (selected !! idx).
Proof.
  intros H. rewrite H, list_elem_of_fmap. split.
  - intros ([i b] & -> & Hin). apply elem_of_map_to_list in Hin. simpl. eauto.
  - intros [b Hb]. exists (idx, b). split; [reflexivity|].
    apply elem_of_map_to_list, Hb.
Qed.

Lemma range_order_NoDup selected order :
  range_order selected order -> NoDup order.
Proof. intros H. rewrite H. apply NoDup_fst_map_to_list. Qed.

(** X25: the order in which the selection map is ranged over shows only in
    the order of the result of [getSelectedPackages]: in every state of a
    session two runs return the same packages, each as often, namely the
    packages at the selected indices of the result list; so whether the
    install command is empty does not depend on the order. *)
Theorem getSelectedPackages_order_free
    (checkInstalled : Packages.Manager -> string -> bool) (m : Model)
    (order1 order2 : list Z)
    (Hreach : reachable checkInstalled m)
    (Horder1 : range_order (selected m) order1)
    (Horder2 : range_order (selected m) order2) :
  exists selected1 selected2,
    getSelectedPackages order1 m = Ok selected1
    /\ getSelectedPackages order2 m = Ok selected2
    /\ selected1 ≡ₚ selected2
    /\ (forall pkg, pkg ∈ selected1 <->
          exists idx, selected m !! idx = Some true
            /\ 0 <= idx < slice_len (packages m)
            /\ packages m !! Z.to_nat idx = Some pkg)
    /\ (Packages.GetInstallCommand selected1 = "" <->
        Packages.GetInstallCommand selected2 = "").
Proof.
  destruct (reachable_ok _ _ Hreach) as [_ Hsel].
  exists (omap (selected_at m) order1), (omap (selected_at m) order2).
  split; [apply getSelectedPackages_ok, Hsel|].
  split; [apply getSelectedPackages_ok, Hsel|].
  assert (omap (selected_at m) order1 ≡ₚ omap (selected_at m) order2) as Hperm.
  { apply omap_Permutation. unfold range_order in *.
    rewrite Horder1, Horder2. reflexivity. }
  split; [exact Hperm|]. split.
  - intros pkg. rewrite list_elem_of_omap. split.
    + intros (idx & _ & H). exists idx. apply selected_at_Some, H.
    + intros (idx & H1 & H2 & H3). exists idx. split.
      * apply (range_order_elem _ _ _ Horder1). eauto.
      * apply selected_at_Some. auto.
  - rewrite !PackagesProps.GetInstallCommand_all_installed.
    split; intros H pkg Hin; apply H; apply list_elem_of_In;
      apply list_elem_of_In in Hin; [rewrite Hperm|rewrite <- Hperm]; exact Hin.
Qed.

Lemma sample_select_all_ok :
  run_ok sample_checkInstalled (New (Packages.New ""))
    (sample_session ++ [sample_select_all]).
Proof. sample_run_ok. Qed.

(** X25 on the sample session after ctrl+a, where both packages are
    selected: ranging over the selection as 0, 1 gives cobra then viper,
    ranging over it as 1, 0 gives viper then cobra. *)
Lemma getSelectedPackages_order_free_witness :
  let m := sample_state [sample_select_all] in
  (reachable sample_checkInstalled m
   /\ range_order (selected m) [0; 1] /\ range_order (selected m) [1; 0])
  /\ getSelectedPackages [0; 1] m = Ok sample_packages
  /\ getSelectedPackages [1; 0] m = Ok (rev sample_packages)
  /\ sample_packages <> rev sample_packages
  /\ sample_packages ≡ₚ rev sample_packages
  /\ (Packages.GetInstallCommand sample_packages = "" <->
      Packages.GetInstallCommand (rev sample_packages) = "").
Proof.
  intros m.
  assert (reachable sample_checkInstalled m) as Hreach
    by apply sample_state_reachable, sample_select_all_ok.
  assert (range_order (selected m) [0; 1]) as Horder1
    by (vm_compute; first [reflexivity | apply perm_swap]).
  assert (range_order (selected m) [1; 0]) as Horder2
    by (vm_compute; first [reflexivity | apply perm_swap]).
  assert (getSelectedPackages [0; 1] m = Ok sample_packages) as E1
    by (vm_compute; reflexivity).
  assert (getSelectedPackages [1; 0] m = Ok (rev sample_packages)) as E2
    by (vm_compute; reflexivity).
  split; [repeat split; assumption|].
  split; [exact E1|]. split; [exact E2|]. split; [discriminate|].
  destruct (getSelectedPackages_order_free sample_checkInstalled m [0; 1] [1; 0]
              Hreach Horder1 Horder2) as (s1 & s2 & H1 & H2 & Hp & _ & Hcmd).
  rewrite E1 in H1. rewrite E2 in H2.
  injection H1 as <-. injection H2 as <-.
  split; [exact Hp|exact Hcmd].
Defined.

(** X26: in the options dialog the key [d] (or [D]) builds the same
    install command as [g].  When it is not empty the session marks it for
    printing with auto-run, records every selected package in the history
    as installed, those already installed included and before anything is
    installed, and quits.  When it is empty the key does nothing at all:
    the dialog stays open and no message is shown. *)
Theorem download_key
    (checkInstalled : Packages.Manager -> string -> bool)
    (o : Oracle) (m : Model) (k : KeyMsg)
    (Hreach : reachable checkInstalled m)
    (Hview : viewState m = ViewOptions)
    (Hkey : Type_ k = KeyRunes)
    (Hrunes : Runes k = [rune_of "d"] \/ Runes k = [rune_of "D"]) :
  exists selected m' cmds,
    getSelectedPackages (rangeOrder1 o) m = Ok selected
    /\ Update checkInstalled o m (Key k) = Ok (m', cmds)
    /\ (Packages.GetInstallCommand selected <> "" ->
        quitWithCommands m' = true
        /\ commandsToPrint m' = [Packages.GetInstallCommand selected]
        /\ autoRun m' = true
        /\ calls m'
           = calls m ++ map (fun pkg => historyAdd (Name pkg) (ImportPath pkg)
                                          History.ActionInstalled) selected
        /\ cmds = [Quit]
        /\ viewState m' = ViewOptions)
    /\ (Packages.GetInstallCommand selected = "" -> m' = m /\ cmds = []).
Proof.
  destruct (reachable_ok _ _ Hreach) as [_ Hsel].
  pose proof (getSelectedPackages_ok m (rangeOrder1 o) Hsel) as Hget.
  set (sel := omap (selected_at m) (rangeOrder1 o)) in *.
  assert (runes_are (Runes k) "g" "G" = false) as Hg.
  { destruct Hrunes as [-> | ->]; reflexivity. }
  assert (runes_are (Runes k) "d" "D" = true) as Hd.
  { destruct Hrunes as [-> | ->]; reflexivity. }
  exists sel. unfold Update. rewrite Hview. unfold handleOptionsKeys.
  rewrite Hkey, Hg, Hd, Hget. cbn [bind].
  destruct (String.eqb_spec (Packages.GetInstallCommand sel) "") as [Hcmd|Hcmd];
    cbn [negb bind cmd_list].
  - rewrite updateSearchInput_options by congruence.
    exists m, []. split; [reflexivity|]. split; [reflexivity|].
    split; [congruence|auto].
  - rewrite updateSearchInput_options by (simpl; congruence).
    eexists _, _. split; [reflexivity|]. split; [reflexivity|].
    split; [|congruence]. intros _. repeat split. exact Hview.
Qed.

Lemma download_key_witness :
  let m := sample_state [sample_enter] in
  let o := sample_download.1 in
  let k := mkKeyMsg KeyRunes [rune_of "d"] "d" in
  (reachable sample_checkInstalled m
   /\ viewState m = ViewOptions
   /\ Type_ k = KeyRunes
   /\ (Runes k = [rune_of "d"] \/ Runes k = [rune_of "D"]))
  /\ exists m',
       Update sample_checkInstalled o m (Key k) = Ok (m', [Quit])
       /\ commandsToPrint m' = ["go get github.com/spf13/cobra@1.8.0"]
       /\ autoRun m' = true
       /\ calls m'
          = calls m ++ [historyAdd "cobra" "github.com/spf13/cobra"
                          History.ActionInstalled].
Proof.
  intros m o k.
  assert (reachable sample_checkInstalled m) as Hreach
    by apply sample_state_reachable, sample_enter_ok.
  split; [repeat split; auto|].
  destruct (download_key sample_checkInstalled o m k Hreach eq_refl eq_refl
              (or_introl eq_refl))
    as (sel & m' & cmds & Hget & Hupd & Hcmd & _).
  assert (sel = [mkPackage "cobra" "github.com/spf13/cobra"
                   "A Commander for modern Go CLI interactions" "1.8.0" false])
    as ->.
  { assert (getSelectedPackages (rangeOrder1 o) m
            = Ok [mkPackage "cobra" "github.com/spf13/cobra"
                    "A Commander for modern Go CLI interactions" "1.8.0" false])
      as Hc by (vm_compute; reflexivity).
    rewrite Hc in Hget. injection Hget as <-. reflexivity. }
  destruct Hcmd as (_ & Hp & Ha & Hcalls & -> & _); [discriminate|].
  exists m'. repeat split; assumption.
Defined.


Lemma selectAll_get n : forall i sel idx,
  selectAll n i sel !! idx
  = if decide (i <= idx < i + Z.of_nat n) then Some true else sel !! idx.
Proof.
  induction n as [|n IH]; intros i sel idx.
  - simpl. destruct (decide _); [lia|reflexivity].
  - cbn [selectAll]. rewrite IH.
    destruct (decide (i + 1 <= idx < i + 1 + Z.of_nat n)) as [H|H].
    + rewrite decide_True by lia. reflexivity.
    + destruct (decide (i = idx)) as [->|Hne].
      * rewrite lookup_insert_eq, decide_True by lia. reflexivity.
      * rewrite lookup_insert_ne by exact Hne.
        rewrite decide_False by lia. reflexivity.
Qed.

Lemma NoDup_count_from n : forall i, NoDup (count_from i n).
Proof.
  induction n as [|n IH]; intros i; simpl; constructor; [|apply IH].
  rewrite elem_of_count_from. lia.
Qed.

Lemma omap_selected_at_all m k : forall i,
  (forall idx, 0 <= idx < slice_len (packages m) ->
     selected m !! idx = Some true) ->
  0 <= i -> i + Z.of_nat k <= slice_len (packages m) ->
  omap (selected_at m) (count_from i k)
  = take k (drop (Z.to_nat i) (packages m)).
Proof.
  induction k as [|k IH]; intros i Hall Hi Hk; [reflexivity|].
  cbn [count_from omap list_omap].
  destruct (index_in_range (packages m) i) as (pkg & _ & Hp); [lia|].
  assert (selected_at m i = Some pkg) as ->
    by (apply selected_at_Some; repeat split; auto; try lia; apply Hall; lia).
  rewrite (drop_S _ _ _ Hp). cbn [take]. f_equal.
  rewrite IH by (auto; lia). f_equal. f_equal. lia.
Qed.

(** X27: the select-all key ([ctrl+a], or [A]) leaves the result list and
    the cursor as they are and, when the list is not empty, selects every
    index of it: [getSelectedPackages] then returns every package of the
    list once, in the order of the [range].  On an empty list the key
    changes nothing. *)
Theorem select_all_key
    (checkInstalled : Packages.Manager -> string -> bool)
    (o : Oracle) (m : Model) (k : KeyMsg)
    (Hreach : reachable checkInstalled m)
    (Hkey : Type_ k = KeyCtrlA
            \/ (Type_ k = KeyRunes /\ Runes k = [rune_of "A"])) :
  exists m',
    handleSearchKeys o m k = Ok (m', None)
    /\ packages m' = packages m /\ cursor m' = cursor m
    /\ (packages m = [] -> m' = m)
    /\ (forall idx, 0 <= idx < slice_len (packages m) ->
          selected m' !! idx = Some true)
    /\ (forall order, range_order (selected m') order ->
          exists selected,
            getSelectedPackages order m' = Ok selected
            /\ (packages m <> [] -> selected ≡ₚ packages m)).
Proof.
  destruct (reachable_ok _ _ Hreach) as [_ Hsel].
  exists (selectAllPackages m).
  split.
  { unfold handleSearchKeys.
    destruct Hkey as [-> | [-> ->]]; reflexivity. }
  pose proof (selected_ok_selectAll m Hsel) as Hsel'.
  unfold selectAllPackages in *.
  destruct (Z.ltb_spec 0 (slice_len (packages m))) as [Hpos|Hzero].
  - set (m' := set_selected _ m) in *.
    assert (forall idx, 0 <= idx < slice_len (packages m) ->
              selected m' !! idx = Some true) as Hall.
    { intros idx Hidx. unfold m'. simpl. rewrite selectAll_get.
      rewrite decide_True; [reflexivity|]. unfold slice_len in Hidx. lia. }
    split; [reflexivity|]. split; [reflexivity|].
    split; [intros E; rewrite E in Hpos; unfold slice_len in Hpos; simpl in Hpos; lia|].
    split; [exact Hall|].
    intros order Horder. exists (omap (selected_at m') order).
    split; [apply getSelectedPackages_ok, Hsel'|]. intros Hne.
    assert (order ≡ₚ count_from 0 (length (packages m))) as Hperm.
    { apply NoDup_Permutation;
        [eapply range_order_NoDup, Horder|apply NoDup_count_from|].
      intros idx. rewrite (range_order_elem _ _ _ Horder), elem_of_count_from.
      split.
      - intros H. destruct (Hsel' idx H) as [H0 H1].
        specialize (H1 Hne). unfold slice_len in H1. simpl in H1. lia.
      - intros H. rewrite Hall by (unfold slice_len; lia). eauto. }
    rewrite Hperm.
    rewrite (omap_selected_at_all m' (length (packages m)) 0 Hall);
      [|lia|unfold slice_len; simpl; lia].
    simpl. rewrite drop_0, firstn_all. reflexivity.
  - assert (packages m = []) as Hnil
      by (apply len_nil_iff; unfold slice_len in *; lia).
    split; [reflexivity|]. split; [reflexivity|]. split; [reflexivity|].
    split; [intros idx; lia|].
    intros order _. exists (omap (selected_at m) order).
    split; [apply getSelectedPackages_ok, Hsel|]. congruence.
Qed.

Lemma select_all_key_witness :
  let m := sample_state [] in
  let k := mkKeyMsg KeyCtrlA [] "ctrl+a" in
  let o := sample_oracle "c" [0] [0; 1] in
  (reachable sample_checkInstalled m
   /\ (Type_ k = KeyCtrlA \/ (Type_ k = KeyRunes /\ Runes k = [rune_of "A"])))
  /\ exists m',
       handleSearchKeys o m k = Ok (m', None)
       /\ selected m' !! 0 = Some true /\ selected m' !! 1 = Some true
       /\ getSelectedPackages [1; 0] m' = Ok (rev sample_packages).
Proof.
  intros m k o.
  assert (reachable sample_checkInstalled m) as Hreach
    by apply sample_state_reachable, sample_session_ok.
  split; [split; [exact Hreach|left; reflexivity]|].
  destruct (select_all_key sample_checkInstalled o m k Hreach (or_introl eq_refl))
    as (m' & Hstep & _ & _ & _ & Hall & _).
  exists m'. split; [exact Hstep|].
  split; [apply Hall; vm_compute; split; congruence|].
  split; [apply Hall; vm_compute; split; congruence|].
  assert (handleSearchKeys o m k = Ok (selectAllPackages m, None)) as E
    by reflexivity.
  rewrite E in Hstep. injection Hstep as <-. vm_compute. reflexivity.
Defined.

Lemma omap_single {A} (f : Z -> option A) (c : Z) (x : A) order :
  NoDup order -> c ∈ order -> f c = Some x ->
  (forall idx, idx ∈ order -> idx <> c -> f idx = None) ->
  omap f order = [x].
Proof.
  induction order as [|i rest IH]; intros Hnd Hin Hc Hother.
  - inversion Hin.
  - apply NoDup_cons in Hnd as [Hni Hnd]. cbn [omap list_omap].
    destruct (decide (i = c)) as [->|Hne].
    + rewrite Hc. f_equal.
      clear IH Hin. induction rest as [|j rest IH]; [reflexivity|].
      cbn [omap list_omap]. rewrite Hother.
      * apply IH.
        -- intros H. apply Hni. right. exact H.
        -- apply NoDup_cons in Hnd as [_ ?]. assumption.
        -- intros idx H. apply Hother. apply elem_of_cons in H as [->|H];
             [left|right; right; exact H].
      * right. left.
      * intros ->. apply Hni. left.
    + rewrite Hother by (auto; left). apply IH; auto.
      * apply elem_of_cons in Hin as [?|?]; [congruence|assumption].
      * intros idx H. apply Hother. right. exact H.
Qed.

Lemma omap_none {A B} (f : A -> option B) l :
  omap f l = [] <-> forall x, x ∈ l -> f x = None.
Proof.
  induction l as [|a l IH]; cbn [omap list_omap].
  - split; [intros _ x H; inversion H|reflexivity].
  - destruct (f a) eqn:E.
    + split; [discriminate|]. intros H. rewrite (H a) in E by left. discriminate.
    + rewrite IH. split.
      * intros H x Hx. apply elem_of_cons in Hx as [->|Hx]; auto.
      * intros H x Hx. apply H. right. exact Hx.
Qed.

(** X28: what the enter key does in a session.  With some package selected
    it opens the options dialog and records each selected package in the
    history as viewed.  With none selected and a result list that is not
    empty it first selects the package under the cursor, which is then the
    one package of the dialog.  With none selected and no results it does
    nothing. *)
Theorem enter_key
    (checkInstalled : Packages.Manager -> string -> bool)
    (o : Oracle) (m : Model) (k : KeyMsg)
    (Hreach : reachable checkInstalled m)
    (Horacle : oracle_ok m o)
    (Hkey : Type_ k = KeyEnter) :
  exists chosen,
    getSelectedPackages (rangeOrder1 o) m = Ok chosen
    /\ (chosen <> [] ->
        handleSearchKeys o m k
        = Ok (addToHistory History.ActionViewed chosen
                (set_viewState ViewOptions m), None))
    /\ (chosen = [] -> packages m <> [] ->
        exists pkg,
          packages m !! Z.to_nat (cursor m) = Some pkg
          /\ handleSearchKeys o m k
             = Ok (addToHistory History.ActionViewed [pkg]
                     (set_viewState ViewOptions
                        (set_selected (<[cursor m := true]> (selected m)) m)),
                   None))
    /\ (chosen = [] -> packages m = [] -> handleSearchKeys o m k = Ok (m, None)).
Proof.
  destruct (reachable_ok _ _ Hreach) as [Hcur Hsel].
  destruct (reachable_views _ _ Hreach) as (_ & _ & _ & Hfirst).
  destruct Horacle as [Ho1 Ho2].
  exists (omap (selected_at m) (rangeOrder1 o)).
  pose proof (getSelectedPackages_ok m (rangeOrder1 o) Hsel) as Hget.
  split; [exact Hget|].
  unfold handleSearchKeys. rewrite Hkey, Hfirst, Hget. cbn [bind].
  set (chosen := omap (selected_at m) (rangeOrder1 o)).
  split; [|split].
  - intros Hne.
    assert (0 < slice_len chosen) as Hpos by (apply len_pos_iff, Hne).
    destruct (Z.eqb_spec (slice_len chosen) 0) as [?|_]; [lia|].
    cbn [andb bind].
    destruct (Z.ltb_spec 0 (slice_len chosen)) as [_|?]; [reflexivity|lia].
  - intros Hnil Hne. destruct Hcur as [Hc0 Hc]. specialize (Hc Hne).
    destruct (index_in_range (packages m) (cursor m)) as (pkg & _ & Hp); [lia|].
    exists pkg. split; [exact Hp|].
    rewrite Hnil. change (slice_len (@nil Package) =? 0) with true.
    destruct (Z.ltb_spec (cursor m) (slice_len (packages m))) as [_|?]; [|lia].
    cbn [andb].
    set (m2 := set_selected (<[cursor m := true]> (selected m)) m).
    assert (selected_ok m2) as Hsel2
      by (apply selected_ok_insert_cursor; [split; auto| |]; assumption).
    rewrite (getSelectedPackages_ok m2 (rangeOrder2 o) Hsel2).
    assert (omap (selected_at m2) (rangeOrder2 o) = [pkg]) as ->.
    { apply (omap_single _ (cursor m)).
      - eapply range_order_NoDup, Ho2.
      - apply (range_order_elem _ _ _ Ho2). rewrite lookup_insert_eq. eauto.
      - apply selected_at_Some. unfold m2. simpl.
        rewrite lookup_insert_eq. repeat split; auto; lia.
      - intros idx Hin Hidx.
        apply (range_order_elem _ _ _ Ho2) in Hin.
        rewrite lookup_insert_ne in Hin by congruence.
        apply (range_order_elem _ _ _ Ho1) in Hin.
        pose proof (proj1 (omap_none (selected_at m) (rangeOrder1 o)) Hnil idx Hin)
          as Hnone.
        unfold selected_at, isSelected in *. unfold m2. simpl.
        rewrite lookup_insert_ne by congruence. exact Hnone. }
    reflexivity.
  - intros Hnil Hp. rewrite Hnil, Hp.
    change (slice_len (@nil Package)) with 0.
    destruct Hcur as [Hc0 _].
    destruct (Z.ltb_spec (cursor m) 0) as [?|_]; [lia|]. reflexivity.
Qed.

Lemma enter_key_witness :
  let m := sample_state [] in
  let o := sample_enter.1 in
  let k := mkKeyMsg KeyEnter [] "enter" in
  (reachable sample_checkInstalled m /\ oracle_ok m o /\ Type_ k = KeyEnter)
  /\ exists chosen m',
       getSelectedPackages (rangeOrder1 o) m = Ok chosen
       /\ handleSearchKeys o m k = Ok (m', None)
       /\ viewState m' = ViewOptions
       /\ calls m'
          = calls m ++ [historyAdd "cobra" "github.com/spf13/cobra"
                          History.ActionViewed].
Proof.
  intros m o k.
  assert (reachable sample_checkInstalled m) as Hreach
    by apply sample_state_reachable, sample_session_ok.
  assert (oracle_ok m o) as Horacle
    by (vm_compute; repeat split; first [reflexivity | apply perm_swap]).
  split; [repeat split; try assumption; apply Horacle|].
  destruct (enter_key sample_checkInstalled o m k Hreach Horacle eq_refl)
    as (chosen & Hget & Hsome & _).
  assert (chosen = [mkPackage "cobra" "github.com/spf13/cobra"
                      "A Commander for modern Go CLI interactions" "1.8.0" false])
    as Hc.
  { assert (getSelectedPackages (rangeOrder1 o) m
            = Ok [mkPackage "cobra" "github.com/spf13/cobra"
                    "A Commander for modern Go CLI interactions" "1.8.0" false])
      as E by (vm_compute; reflexivity).
    rewrite E in Hget. injection Hget as <-. reflexivity. }
  eexists chosen, _. split; [exact Hget|].
  split; [apply Hsome; rewrite Hc; discriminate|].
  split; [reflexivity|]. rewrite Hc. vm_compute. reflexivity.
Defined.

End SelectionProps.
